(** * PDF heading extractor (1a.py): a shallow embedding and its properties

    The development follows [PDFHeadingExtractor] of [src/1a.py].

    Modelling conventions:
    - Python [str] values are lists of ASCII characters ([pystr]).
    - Python [float] values (font sizes, coordinates, scores) are exact
      rationals [Q]; comparisons are the rational ones and [round(x, 2)] is
      rounding to the nearest hundredth, ties to even.
    - The dictionaries of the layout API are records.  In [Layout] they
      are as PyMuPDF documents them: the one key that may be absent,
      ["lines"] of a block, is an [option] field, and every page loads.  In
      [Fitz] every key is an [option] field and the layout call of a page
      may raise; the two passes over the document are embedded on both, and
      shown to agree on the documents of [Layout].  The line dictionaries
      the extractor builds are records too, with [option] fields for the
      keys that are read with [dict.get].
    - The extractor's attributes are an explicit [State], passed to and
      returned by the methods that use them.
    - Exceptions are values of [exn] in the error monad [result]. *)

From Stdlib Require Import List ZArith QArith Ascii String Bool Lia Lqa Arith.
From Stdlib Require Import Permutation Sorted.
Import ListNotations.

Set Implicit Arguments.

(** ** Python string primitives (ASCII) *)

Module PyStr.

Definition pystr := list ascii.

Definition str (s : string) : pystr := list_ascii_of_string s.

Definition code (c : ascii) : nat := nat_of_ascii c.

Definition between (lo hi : nat) (c : ascii) : bool :=
  (lo <=? code c)%nat && (code c <=? hi)%nat.

(** [str.isspace] on ASCII: TAB..CR, FS..US and SPACE. *)
Definition is_space (c : ascii) : bool :=
  between 9 13 c || between 28 32 c.

Definition is_digit (c : ascii) : bool := between 48 57 c.
Definition is_upper (c : ascii) : bool := between 65 90 c.
Definition is_lower (c : ascii) : bool := between 97 122 c.
Definition is_alpha (c : ascii) : bool := is_upper c || is_lower c.

(** [\w] on ASCII. *)
Definition is_word (c : ascii) : bool :=
  is_alpha c || is_digit c || (code c =? 95)%nat.

Definition to_lower (c : ascii) : ascii :=
  if is_upper c then ascii_of_nat (code c + 32) else c.

Definition to_upper (c : ascii) : ascii :=
  if is_lower c then ascii_of_nat (code c - 32) else c.

Definition lower (s : pystr) : pystr := map to_lower s.

Fixpoint lstrip (s : pystr) : pystr :=
  match s with
  | c :: s' => if is_space c then lstrip s' else s
  | [] => []
  end.

Definition rstrip (s : pystr) : pystr := rev (lstrip (rev s)).

Definition strip (s : pystr) : pystr := rstrip (lstrip s).

Definition char_eqb (a b : ascii) : bool := Ascii.eqb a b.

Definition text_eqb (a b : pystr) : bool :=
  if list_eq_dec ascii_dec a b then true else false.

Fixpoint starts_with (p s : pystr) : bool :=
  match p, s with
  | [], _ => true
  | a :: p', b :: s' => char_eqb a b && starts_with p' s'
  | _ :: _, [] => false
  end.

(** [sub in s] *)
Fixpoint contains (sub s : pystr) : bool :=
  starts_with sub s ||
  match s with
  | [] => false
  | _ :: s' => contains sub s'
  end.

(** [s.endswith(c)] for a one-character suffix. *)
Definition endswith (s : pystr) (c : ascii) : bool :=
  match rev s with
  | x :: _ => char_eqb x c
  | [] => false
  end.

(** [s.split()]: the maximal runs of non-whitespace characters.
    [cur] is the word being read, reversed. *)
Fixpoint split_go (s : pystr) (cur : pystr) : list pystr :=
  match s with
  | [] => match cur with [] => [] | _ => [rev cur] end
  | c :: s' =>
      if is_space c
      then match cur with
           | [] => split_go s' []
           | _ => rev cur :: split_go s' []
           end
      else split_go s' (c :: cur)
  end.

Definition split (s : pystr) : list pystr := split_go s [].

(** [sep.join(parts)] *)
Fixpoint join (sep : pystr) (parts : list pystr) : pystr :=
  match parts with
  | [] => []
  | [p] => p
  | p :: rest => p ++ sep ++ join sep rest
  end.

(** [sum(1 for c in s if c.isupper())] *)
Definition count_upper (s : pystr) : nat :=
  List.length (filter is_upper s).

(** [str.istitle]: uppercase letters only after uncased characters,
    lowercase letters only after cased ones, at least one cased character. *)
Fixpoint istitle_go (s : pystr) (prev_cased cased : bool) : bool :=
  match s with
  | [] => cased
  | c :: s' =>
      if is_upper c then
        if prev_cased then false else istitle_go s' true true
      else if is_lower c then
        if prev_cased then istitle_go s' true true else false
      else istitle_go s' false cased
  end.

Definition istitle (s : pystr) : bool := istitle_go s false false.

End PyStr.

(** ** Regular expressions as used by the extractor

    Only the constructs that occur in the source patterns.  A cursor is the
    remaining input together with the character just before it, which is what
    [^] and the look-behind [(?<!c)] inspect. *)

Module Re.
Import PyStr.

Inductive regex : Type :=
| Eps
| Lit (c : ascii)                 (* a literal character *)
| Cls (p : ascii -> bool)         (* a character class *)
| Dot                             (* [.]: anything but a newline *)
| Cat (a b : regex)
| Alt (a b : regex)
| Star (greedy : bool) (a : regex)
| Bol                             (* [^] *)
| Eol                             (* [$] *)
| NotBehind (c : ascii).          (* [(?<!c)] *)

Definition cursor : Type := (option ascii * pystr)%type.

Definition rest (cur : cursor) : pystr := snd cur.

Definition newline : ascii := ascii_of_nat 10.

(** Matching of one character; [ic] is [re.IGNORECASE]. *)
Definition lit_ok (ic : bool) (c x : ascii) : bool :=
  char_eqb c x || (ic && char_eqb (to_lower c) (to_lower x)).

Definition cls_ok (ic : bool) (p : ascii -> bool) (x : ascii) : bool :=
  p x || (ic && (p (to_lower x) || p (to_upper x))).

Definition step (ok : ascii -> bool) (cur : cursor) : list cursor :=
  match rest cur with
  | x :: s => if ok x then [(Some x, s)] else []
  | [] => []
  end.

(** The iteration of [body]: each round must consume input, so [fuel] above
    the length of the remaining input is never exhausted.  A greedy star
    tries one more round first, a lazy one tries to stop first. *)
Fixpoint star_from (body : cursor -> list cursor) (greedy : bool)
         (fuel : nat) (cur : cursor) {struct fuel} : list cursor :=
  match fuel with
  | O => [cur]
  | S fuel' =>
      let more :=
        flat_map
          (fun c' =>
             if (List.length (rest c') <? List.length (rest cur))%nat
             then star_from body greedy fuel' c' else [])
          (body cur) in
      if greedy then more ++ [cur] else cur :: more
  end.

(** [ends ic r cur]: the cursors at which a match of [r] starting at [cur]
    can end, in the order a backtracking matcher tries them. *)
Fixpoint ends (ic : bool) (r : regex) (cur : cursor) : list cursor :=
  match r with
  | Eps => [cur]
  | Lit c => step (lit_ok ic c) cur
  | Cls p => step (cls_ok ic p) cur
  | Dot => step (fun x => negb (char_eqb x newline)) cur
  | Cat a b => flat_map (ends ic b) (ends ic a cur)
  | Alt a b => ends ic a cur ++ ends ic b cur
  | Star greedy a =>
      star_from (ends ic a) greedy (S (List.length (rest cur))) cur
  | Bol => match fst cur with None => [cur] | Some _ => [] end
  | Eol => match rest cur with
           | [] => [cur]
           | [x] => if char_eqb x newline then [cur] else []
           | _ => []
           end
  | NotBehind c => match fst cur with
                   | Some x => if char_eqb x c then [] else [cur]
                   | None => [cur]
                   end
  end.

Definition nonempty {A : Type} (l : list A) : bool :=
  match l with [] => false | _ => true end.

(** A compiled pattern: the expression and its flag. *)
Record pattern : Type := Pattern { p_re : regex; p_ignorecase : bool }.

Definition compile (r : regex) (ignorecase : bool) : pattern :=
  Pattern r ignorecase.

Definition match_at (p : pattern) (cur : cursor) : bool :=
  nonempty (ends (p_ignorecase p) (p_re p) cur).

(** [p.match(s)] as a truth value. *)
Definition pmatch (p : pattern) (s : pystr) : bool := match_at p (None, s).

Fixpoint search_from (p : pattern) (prev : option ascii) (s : pystr) : bool :=
  match_at p (prev, s) ||
  match s with
  | [] => false
  | x :: s' => search_from p (Some x) s'
  end.

(** [p.search(s)] as a truth value. *)
Definition search (p : pattern) (s : pystr) : bool := search_from p None s.

(** [re.sub(p, repl, s)] for a pattern that never matches the empty string
    (true of every pattern the source substitutes): scan left to right,
    replace the first-choice match at each position, continue after it. *)
Fixpoint sub_go (fuel : nat) (p : pattern) (repl : pystr)
         (prev : option ascii) (s : pystr) : pystr :=
  match fuel with
  | O => s
  | S fuel' =>
      match ends (p_ignorecase p) (p_re p) (prev, s) with
      | (prev', s') :: _ =>
          if (List.length s' <? List.length s)%nat
          then repl ++ sub_go fuel' p repl prev' s'
          else match s with
               | [] => []
               | x :: t => x :: sub_go fuel' p repl (Some x) t
               end
      | [] =>
          match s with
          | [] => []
          | x :: t => x :: sub_go fuel' p repl (Some x) t
          end
      end
  end.

Definition sub (p : pattern) (repl : pystr) (s : pystr) : pystr :=
  sub_go (S (List.length s)) p repl None s.

(** Pattern combinators mirroring the concrete syntax. *)
Definition Plus (a : regex) : regex := Cat a (Star true a).
Definition Opt (a : regex) : regex := Alt a Eps.
Definition Many (a : regex) : regex := Star true a.
Definition Lazy (a : regex) : regex := Star false a.

Fixpoint Seq (rs : list regex) : regex :=
  match rs with
  | [] => Eps
  | [r] => r
  | r :: rs' => Cat r (Seq rs')
  end.

Fixpoint Any (rs : list regex) : regex :=
  match rs with
  | [] => Cls (fun _ => false)
  | [r] => r
  | r :: rs' => Alt r (Any rs')
  end.

Fixpoint Times (n : nat) (a : regex) : regex :=
  match n with
  | O => Eps
  | S n' => Cat a (Times n' a)
  end.

(** [a{n,}] and [a{n,m}] *)
Definition AtLeast (n : nat) (a : regex) : regex := Cat (Times n a) (Many a).

Fixpoint UpTo (k : nat) (a : regex) : regex :=
  match k with
  | O => Eps
  | S k' => Opt (Cat a (UpTo k' a))
  end.

Definition Range (n m : nat) (a : regex) : regex :=
  Cat (Times n a) (UpTo (m - n) a).

Definition Word (s : string) : regex := Seq (map Lit (str s)).

Definition one_of (s : string) : ascii -> bool :=
  fun x => existsb (char_eqb x) (str s).

Definition ws : regex := Cls is_space.       (* \s *)
Definition dig : regex := Cls is_digit.      (* \d *)
Definition wordc : regex := Cls is_word.     (* \w *)
Definition AZ : regex := Cls is_upper.       (* [A-Z] *)
Definition az : regex := Cls is_lower.       (* [a-z] *)
Definition azAZ : regex := Cls is_alpha.     (* [a-zA-Z] *)
Definition roman : regex := Cls (one_of "IVXLCDM").
Definition roman_lc : regex := Cls (one_of "ivxlcdm").

(** What it means for [r] to match from one cursor to another; [ends] is
    checked against it below. *)
Inductive Matches (ic : bool) : regex -> cursor -> cursor -> Prop :=
| MEps cur : Matches ic Eps cur cur
| MLit c prev x s :
    lit_ok ic c x = true -> Matches ic (Lit c) (prev, x :: s) (Some x, s)
| MCls p prev x s :
    cls_ok ic p x = true -> Matches ic (Cls p) (prev, x :: s) (Some x, s)
| MDot prev x s :
    char_eqb x newline = false -> Matches ic Dot (prev, x :: s) (Some x, s)
| MCat a b c1 c2 c3 :
    Matches ic a c1 c2 -> Matches ic b c2 c3 -> Matches ic (Cat a b) c1 c3
| MAltL a b c1 c2 : Matches ic a c1 c2 -> Matches ic (Alt a b) c1 c2
| MAltR a b c1 c2 : Matches ic b c1 c2 -> Matches ic (Alt a b) c1 c2
| MStarStop g a cur : Matches ic (Star g a) cur cur
| MStarStep g a c1 c2 c3 :
    Matches ic a c1 c2 ->
    (List.length (rest c2) < List.length (rest c1))%nat ->
    Matches ic (Star g a) c2 c3 ->
    Matches ic (Star g a) c1 c3
| MBol s : Matches ic Bol (None, s) (None, s)
| MEolEnd prev : Matches ic Eol (prev, []) (prev, [])
| MEolNewline prev : Matches ic Eol (prev, [newline]) (prev, [newline])
| MNotBehindStart c s : Matches ic (NotBehind c) (None, s) (None, s)
| MNotBehind c x s :
    char_eqb x c = false -> Matches ic (NotBehind c) (Some x, s) (Some x, s).

(** Every character of [run] is in the class [p]. *)
Definition all_in (p : ascii -> bool) (run : pystr) : Prop :=
  Forall (fun c => p c = true) run.

End Re.

(** ** Numbers *)

Module Num.

Open Scope Q_scope.

Definition Qleb (a b : Q) : bool := Qle_bool a b.
Definition Qltb (a b : Q) : bool := negb (Qle_bool b a).
Definition Qeqb (a b : Q) : bool := Qeq_bool a b.
Definition Qgeb (a b : Q) : bool := Qle_bool b a.
Definition Qgtb (a b : Q) : bool := negb (Qle_bool a b).

(** [max(a, b)] and [min(a, b)]: the first argument wins a tie. *)
Definition Qmax (a b : Q) : Q := if Qltb a b then b else a.
Definition Qmin (a b : Q) : Q := if Qltb b a then b else a.
Definition Qabs' (a : Q) : Q := if Qleb 0 a then a else - a.

Definition ofZ (z : Z) : Q := inject_Z z.
Definition ofnat (n : nat) : Q := inject_Z (Z.of_nat n).

(** [int(x)]: truncation towards zero. *)
Definition py_int (q : Q) : Z := Z.quot (Qnum q) (Zpos (Qden q)).

(** Nearest integer, ties to even. *)
Definition round_half_even (q : Q) : Z :=
  let n := Qnum q in
  let d := Zpos (Qden q) in
  let f := (n / d)%Z in
  let r := (n mod d)%Z in
  match (2 * r ?= d)%Z with
  | Lt => f
  | Gt => (f + 1)%Z
  | Eq => if Z.even f then f else (f + 1)%Z
  end.

(** [round(x, 2)] *)
Definition round2 (q : Q) : Q := Qmake (round_half_even (q * 100)) 100.

Definition Qsum (l : list Q) : Q := fold_left Qplus l 0.

(** [statistics.mean] of a non-empty list *)
Definition mean (l : list Q) : Q := Qred (Qsum l / ofnat (List.length l)).

End Num.

(** ** Stable sorting, as [sorted] and [list.sort] *)

Module PySort.

Section Sort.
Variable A : Type.
Variable le : A -> A -> bool.

Fixpoint insert (x : A) (l : list A) : list A :=
  match l with
  | [] => [x]
  | y :: l' => if le x y then x :: l else y :: insert x l'
  end.

(** [x] is inserted before the first element that is not below it, so
    elements that compare equal keep their input order. *)
Fixpoint sorted (l : list A) : list A :=
  match l with
  | [] => []
  | x :: l' => insert x (sorted l')
  end.

End Sort.

End PySort.

(** ** Exceptions *)

Inductive exn : Type :=
| FileDataError            (* [fitz.open] cannot open or decode the file *)
| UnboundLocalError (v : string)
| KeyError (k : string)    (* [d[k]] on a dictionary without the key [k] *)
| RuntimeError.            (* MuPDF fails while a page is loaded or laid out *)

Inductive result (A : Type) : Type :=
| Ok (a : A)
| Raise (e : exn).

Arguments Ok {A} a.
Arguments Raise {A} e.

Definition bind {A B : Type} (m : result A) (k : A -> result B) : result B :=
  match m with
  | Ok a => k a
  | Raise e => Raise e
  end.

Notation "x <- m ;; k" := (bind m (fun x => k))
  (at level 61, m at next level, right associativity).

Fixpoint mapM {A B : Type} (f : A -> result B) (l : list A) : result (list B) :=
  match l with
  | [] => Ok []
  | a :: l' => b <- f a ;; bs <- mapM f l' ;; Ok (b :: bs)
  end.

(** ** The layout API (PyMuPDF's [page.get_text("dict")]) *)

Module Layout.
Import PyStr.

Record BBox : Type := mkBBox { x0 : Q; y0 : Q; x1 : Q; y1 : Q }.

Record Span : Type := mkSpan {
  span_text : pystr;
  span_size : Q;
  span_font : pystr;
  span_flags : Z;
  span_color : Z
}.

Record RawLine : Type := mkRawLine {
  rl_bbox : BBox;
  rl_spans : list Span
}.

(** A block without the key ["lines"] (an image block) has [None]. *)
Record Block : Type := mkBlock {
  b_bbox : BBox;
  b_lines : option (list RawLine)
}.

Record Page : Type := mkPage {
  p_width : Q;
  p_height : Q;
  p_blocks : list Block
}.

Definition Doc : Type := list Page.

End Layout.

(** ** The extractor *)

Module Extractor.
Import PyStr Re Num Layout.

Open Scope Q_scope.

(** *** Configuration ([__init__]) *)

Definition HF_TOP_ZONE_PERCENTAGE : Q := 6 # 100.
Definition HF_BOTTOM_ZONE_PERCENTAGE : Q := 6 # 100.
Definition HF_MIN_PAGES_FOR_REPETITION : Z := 3.
Definition HF_REPETITION_THRESHOLD_PERCENT : Q := 75 # 100.

Definition HEADING_SCORE_THRESHOLD : Q := 75.
Definition MIN_HEADING_FONT_SIZE_RATIO : Q := 13 # 10.
Definition MAX_HEADING_WORD_COUNT : Z := 18.

Definition colon_or_dot : regex := Cls (one_of ":.").

(** Words separated by [\s+]. *)
Fixpoint Phrase (ws_words : list string) : regex :=
  match ws_words with
  | [] => Eps
  | [w] => Word w
  | w :: rest => Cat (Word w) (Cat (Plus ws) (Phrase rest))
  end.

Definition heading_patterns : list pattern :=
  [ (* r"^\s*(?:Chapter|Section|Part|Appendix)\s+(?:\d+|[IVXLCDM]+)(?:\.\d+)*\s*[:\.]?$" *)
    compile (Seq [Bol; Many ws;
                  Any [Word "Chapter"; Word "Section"; Word "Part"; Word "Appendix"];
                  Plus ws; Alt (Plus dig) (Plus roman);
                  Many (Cat (Lit ".") (Plus dig)); Many ws; Opt colon_or_dot; Eol]) true;
    (* r"^\s*\d+(\.\d+)*\.?\s*[A-Z].*?[:\.]?$" *)
    compile (Seq [Bol; Many ws; Plus dig; Many (Cat (Lit ".") (Plus dig));
                  Opt (Lit "."); Many ws; AZ; Lazy Dot; Opt colon_or_dot; Eol]) true;
    (* r"^\s*[IVXLCDM]+\s+[A-Z].*?[:\.]?$" *)
    compile (Seq [Bol; Many ws; Plus roman; Plus ws; AZ; Lazy Dot;
                  Opt colon_or_dot; Eol]) true;
    (* r"^[A-Z][A-Z\s]{5,}(?<!\.)\s*$" *)
    compile (Seq [Bol; AZ; AtLeast 5 (Cls (fun c => is_upper c || is_space c));
                  NotBehind "."; Many ws; Eol]) true;
    (* r"^[A-Z][a-z]+(?:\s+[A-Z][a-z]*" r")*\s*[:\.]?$" *)
    compile (Seq [Bol; AZ; Plus az; Many (Seq [Plus ws; AZ; Many az]);
                  Many ws; Opt colon_or_dot; Eol]) true;
    (* r"^\s*\([a-z]\)\s+[A-Z].*?[:\.]?$" *)
    compile (Seq [Bol; Many ws; Lit "("; az; Lit ")"; Plus ws; AZ; Lazy Dot;
                  Opt colon_or_dot; Eol]) true;
    (* r"^\s*[a-z]\.\s+[A-Z].*?[:\.]?$" *)
    compile (Seq [Bol; Many ws; az; Lit "."; Plus ws; AZ; Lazy Dot;
                  Opt colon_or_dot; Eol]) true ].

Definition heading_keywords : list pystr :=
  map str
    [ "introduction"; "conclusion"; "summary"; "overview"; "background";
      "methodology"; "results"; "discussion"; "references"; "appendix";
      "chapter"; "section"; "abstract"; "acknowledgments"; "bibliography";
      "annex"; "preface"; "foreword"; "table of contents"; "list of figures";
      "list of tables"; "definitions"; "scope"; "purpose"; "policy"; "procedure";
      "executive summary"; "terms and conditions"; "legal"; "analysis"; "findings";
      "evaluation"; "award"; "timeline"; "milestones"; "approach"; "requirements";
      "principles"; "access"; "guidance"; "training"; "purchasing"; "technological";
      "mean"; "developed"; "criteria"; "process"; "membership"; "chair"; "meetings";
      "accountability"; "communication"; "financial"; "administrative"; "policies";
      "preamble"; "terms of reference" ]%string.

Definition NON_CONTENT_PATTERNS : list pattern :=
  [ (* r"^\s*\d+\s*$" *)
    compile (Seq [Bol; Many ws; Plus dig; Many ws; Eol]) true;
    (* r"^\s*-\s*\d+\s*-\s*$" *)
    compile (Seq [Bol; Many ws; Lit "-"; Many ws; Plus dig; Many ws; Lit "-";
                  Many ws; Eol]) true;
    (* r"^\s*page\s+\d+\s*$" *)
    compile (Seq [Bol; Many ws; Word "page"; Plus ws; Plus dig; Many ws; Eol]) true;
    (* r"^\s*page\s+\d+\s+of\s+\d+\s*$" *)
    compile (Seq [Bol; Many ws; Word "page"; Plus ws; Plus dig; Plus ws;
                  Word "of"; Plus ws; Plus dig; Many ws; Eol]) true;
    (* r"^\s*([ivxlcdm]+|[a-z])\s*$" *)
    compile (Seq [Bol; Many ws; Alt (Plus roman_lc) az; Many ws; Eol]) true;
    compile (Seq [Word "www"; Lit "."]) true;
    compile (Seq [Lit "."; Word "gov"]) true;
    compile (Seq [Lit "."; Word "org"]) true;
    compile (Seq [Lit "."; Word "com"]) true;
    compile (Word "confidential") true;
    compile (Word "proprietar") true;
    compile (Word "draft") true;
    compile (Word "author") true;
    compile (Word "doi:") true;
    compile (Word "copyright") true;
    (* r"version\s*\d" *)
    compile (Seq [Word "version"; Many ws; dig]) true;
    compile (Phrase ["all"; "rights"; "reserved"]%string) true;
    compile (Phrase ["contact"; "information"]%string) true;
    compile (Phrase ["revision"; "history"]%string) true;
    compile (Phrase ["document"; "id"]%string) true;
    compile (Phrase ["file"; "id"]%string) true;
    (* r"boscha{0,1}\s+north\s+america" *)
    compile (Seq [Word "bosch"; Range 0 1 (Lit "a"); Plus ws;
                  Phrase ["north"; "america"]%string]) true;
    compile (Phrase ["mutual"; "nda"]%string) true;
    (* r"rev\.\s*\d{4}\.\d{2}\.\d{2}" *)
    compile (Seq [Word "rev"; Lit "."; Many ws; Times 4 dig; Lit ".";
                  Times 2 dig; Lit "."; Times 2 dig]) true;
    compile (Word "gretchen whitmer") true;
    compile (Word "by the governor") true;
    compile (Word "secretary of state") true;
    (* r"\d{1,3}\s+(?:south|north|east|west)?\s*capitol" *)
    compile (Seq [Range 1 3 dig; Plus ws;
                  Opt (Any [Word "south"; Word "north"; Word "east"; Word "west"]);
                  Many ws; Word "capitol"]) true;
    compile (Seq [Word "george w"; Lit "."; Word " romney building"]) true;
    compile (Word "printed in-house") true;
    (* r"^\s*[\*#\-_=\s]{3,}$", compiled without flags *)
    compile (Seq [Bol; Many ws;
                  AtLeast 3 (Cls (fun c => one_of "*#-_=" c || is_space c)); Eol]) false;
    (* r"^\s*(?:p\.?|pg\.?)\s*\d+\s*$" *)
    compile (Seq [Bol; Many ws;
                  Alt (Cat (Lit "p") (Opt (Lit "."))) (Cat (Word "pg") (Opt (Lit ".")));
                  Many ws; Plus dig; Many ws; Eol]) true;
    (* r"rfp:\s+to\s+develop\s+the\s+ontario\s+digital\s+library\s+business\s+plan\s+march\s+\d{4}" *)
    compile (Seq [Phrase ["rfp:"; "to"; "develop"; "the"; "ontario"; "digital";
                          "library"; "business"; "plan"; "march"]%string;
                  Plus ws; Times 4 dig]) true;
    compile (Phrase ["ontario's"; "libraries"]%string) true;
    compile (Phrase ["working"; "together"]%string) true;
    compile (Phrase ["connecting"; "ontarians!"]%string) true ].

(** The patterns that are compiled at their place of use. *)

(* r"\s+" *)
Definition RE_WS_RUN : pattern := compile (Plus ws) false.

(* r"(\d+\s*of\s*\d+|\s*page\s*\d+\s*|-\s*\d+\s*-|\d+)$" *)
Definition RE_PAGE_SUFFIX : pattern :=
  compile (Cat (Any [ Seq [Plus dig; Many ws; Word "of"; Many ws; Plus dig];
                      Seq [Many ws; Word "page"; Many ws; Plus dig; Many ws];
                      Seq [Lit "-"; Many ws; Plus dig; Many ws; Lit "-"];
                      Plus dig ])
               Eol) false.

(* r"\d{4}-\d{2}-\d{2}" *)
Definition RE_DATE : pattern :=
  compile (Seq [Times 4 dig; Lit "-"; Times 2 dig; Lit "-"; Times 2 dig]) false.

(* r"[0-9a-f]{32}" *)
Definition RE_HASH : pattern :=
  compile (Times 32 (Cls (fun c => is_digit c || between 97 102 c))) false.

(* r"^\s*(\d+\.?|\([a-zA-Z]\)|\w\.|\s*[*+-]\s*" r")$" *)
Definition RE_SHORT_TOKEN : pattern :=
  compile (Seq [Bol; Many ws;
                Any [ Cat (Plus dig) (Opt (Lit "."));
                      Seq [Lit "("; azAZ; Lit ")"];
                      Cat wordc (Lit ".");
                      Seq [Many ws; Cls (one_of "*+-"); Many ws] ];
                Eol]) false.

(* r"^\s*(\d+(\.\d+)*\.?|[A-Z][a-zA-Z]*\.|\([a-zA-Z]\)|\d+\))\s*" *)
Definition RE_ENUM : pattern :=
  compile (Seq [Bol; Many ws;
                Any [ Seq [Plus dig; Many (Cat (Lit ".") (Plus dig)); Opt (Lit ".")];
                      Seq [AZ; Many azAZ; Lit "."];
                      Seq [Lit "("; azAZ; Lit ")"];
                      Seq [Plus dig; Lit ")"] ];
                Many ws]) false.

(* r"^\s*\d+\.\d+\.\d+(\.\d+)*\s+" *)
Definition RE_LEVEL3 : pattern :=
  compile (Seq [Bol; Many ws; Plus dig; Lit "."; Plus dig; Lit "."; Plus dig;
                Many (Cat (Lit ".") (Plus dig)); Plus ws]) false.

(* r"^\s*\d+\.\d+\s+" *)
Definition RE_LEVEL2 : pattern :=
  compile (Seq [Bol; Many ws; Plus dig; Lit "."; Plus dig; Plus ws]) false.

(* r"^\s*\d+\s+" *)
Definition RE_LEVEL1_NUM : pattern :=
  compile (Seq [Bol; Many ws; Plus dig; Plus ws]) false.

(* r"^\s*[IVXLCDM]+\s+" *)
Definition RE_LEVEL1_ROMAN : pattern :=
  compile (Seq [Bol; Many ws; Plus roman; Plus ws]) false.

(* r"^\s*[a-zA-Z]\.?\s*\)" *)
Definition RE_LETTER_PAREN : pattern :=
  compile (Seq [Bol; Many ws; azAZ; Opt (Lit "."); Many ws; Lit ")"]) false.

(* r"^\s*[a-zA-Z]\s*\.\s+" *)
Definition RE_LETTER_DOT : pattern :=
  compile (Seq [Bol; Many ws; azAZ; Many ws; Lit "."; Plus ws]) false.

(* r".*\d+\.$" *)
Definition RE_ENDS_WITH_NUMBER_DOT : pattern :=
  compile (Seq [Many Dot; Plus dig; Lit "."; Eol]) false.

(* r"^\d+\.?$" *)
Definition RE_BARE_NUMBER : pattern :=
  compile (Seq [Bol; Plus dig; Opt (Lit "."); Eol]) false.


(** *** Internal state for document processing *)

Definition HFKey : Type := (pystr * Z * bool)%type.

Definition hfkey_eqb (a b : HFKey) : bool :=
  let '(ta, ya, za) := a in
  let '(tb, yb, zb) := b in
  text_eqb ta tb && (ya =? yb)%Z && Bool.eqb za zb.

Record State : Type := mkState {
  _hf_candidates : list (HFKey * Z);        (* key -> count, in insertion order *)
  _total_pages_in_doc : Z;
  _page_dimensions : list (Z * (Q * Q))     (* page_num -> (width, height) *)
}.

(** [d.get(k)] on an association list *)
Fixpoint lookup {K V : Type} (eqb : K -> K -> bool) (k : K) (d : list (K * V))
  : option V :=
  match d with
  | [] => None
  | (k', v) :: d' => if eqb k k' then Some v else lookup eqb k d'
  end.

(** [d[k] = v] *)
Fixpoint store {K V : Type} (eqb : K -> K -> bool) (k : K) (v : V)
         (d : list (K * V)) : list (K * V) :=
  match d with
  | [] => [(k, v)]
  | (k', v') :: d' =>
      if eqb k k' then (k, v) :: d' else (k', v') :: store eqb k v d'
  end.

(** [d[k] += 1] on a [defaultdict(int)] *)
Definition bump (k : HFKey) (d : list (HFKey * Z)) : list (HFKey * Z) :=
  match lookup hfkey_eqb k d with
  | Some n => store hfkey_eqb k (n + 1)%Z d
  | None => store hfkey_eqb k 1%Z d
  end.

Definition _reset_state (st : State) : State :=
  mkState [] 0%Z [].

Definition _is_bold (flags : Z) : bool := negb (Z.land flags 1 =? 0)%Z.

Definition _is_italic (flags : Z) : bool := negb (Z.land flags 2 =? 0)%Z.

Definition _normalize_text_for_hf_comparison (t : pystr) : pystr :=
  let normalized := lower (strip (Re.sub RE_WS_RUN (str " ") t)) in
  let normalized := strip (Re.sub RE_PAGE_SUFFIX [] normalized) in
  let normalized := strip (Re.sub RE_DATE [] normalized) in
  let normalized := strip (Re.sub RE_HASH [] normalized) in
  normalized.

(** [" ".join([s["pystr"] for s in l["spans"]]).strip()] *)
Definition line_text_of (l : RawLine) : pystr :=
  strip (join (str " ") (map span_text (rl_spans l))).

Definition is_empty (t : pystr) : bool :=
  match t with [] => true | _ => false end.

Definition len (t : pystr) : Z := Z.of_nat (List.length t).

(** [int(y / 5) * 5] *)
Definition y_bucket_of (y : Q) : Z := (py_int (y / 5) * 5)%Z.

(** [enumerate]: the elements with their indices from [i] on. *)
Fixpoint enumerate_from {A : Type} (i : Z) (l : list A) : list (Z * A) :=
  match l with
  | [] => []
  | a :: l' => (i, a) :: enumerate_from (i + 1)%Z l'
  end.

(** The body of the innermost loop of the first pass, for one line. *)
Definition hf_scan_line (page_num pages_to_scan : Z) (page_height : Q)
           (hf : list (HFKey * Z)) (l : RawLine) : list (HFKey * Z) :=
  let line_text := line_text_of l in
  if is_empty line_text then hf else
  let top_zone_y_max := page_height * HF_TOP_ZONE_PERCENTAGE in
  let bottom_zone_y_min := page_height * (1 - HF_BOTTOM_ZONE_PERCENTAGE) in
  let y_pos_top := y0 (rl_bbox l) in
  let y_pos_bottom := y1 (rl_bbox l) in
  let in_top_zone := Qltb y_pos_top top_zone_y_max in
  let in_bottom_zone := Qgtb y_pos_bottom bottom_zone_y_min in
  if (in_top_zone || in_bottom_zone) && (page_num <? pages_to_scan)%Z then
    let normalized_text := _normalize_text_for_hf_comparison line_text in
    if negb (is_empty normalized_text) && (3 <? len normalized_text)%Z then
      bump (normalized_text, y_bucket_of y_pos_top, in_top_zone) hf
    else hf
  else hf.

Definition hf_scan_block (page_num pages_to_scan : Z) (page_height : Q)
           (hf : list (HFKey * Z)) (b : Block) : list (HFKey * Z) :=
  match b_lines b with
  | None => hf
  | Some ls => fold_left (hf_scan_line page_num pages_to_scan page_height) ls hf
  end.

Definition hf_scan_page (pages_to_scan : Z) (st : State) (ip : Z * Page)
  : State :=
  let '(page_num, page) := ip in
  let dims := store Z.eqb page_num (p_width page, p_height page)
                    (_page_dimensions st) in
  let hf := fold_left (hf_scan_block page_num pages_to_scan (p_height page))
                      (p_blocks page) (_hf_candidates st) in
  mkState hf (_total_pages_in_doc st) dims.

(** First pass: the header/footer census.  It adds to the counts and page
    dimensions already in the state. *)
Definition _pre_process_for_hf_detection (st : State) (doc : Doc) : State :=
  let total := Z.of_nat (List.length doc) in
  let st := mkState (_hf_candidates st) total (_page_dimensions st) in
  let pages_to_scan := Z.min total 10 in
  fold_left (hf_scan_page pages_to_scan) (enumerate_from 0%Z doc) st.

(** Rule 4 of [_is_redundant_line]: repetition across the census. *)
Definition repetition_rule (st : State) (t : pystr) (y_top : Q)
           (in_top_zone : bool) : bool :=
  if (0 <? _total_pages_in_doc st)%Z then
    let normalized_text := _normalize_text_for_hf_comparison t in
    let y_bucket := y_bucket_of y_top in
    if negb (is_empty normalized_text) && (3 <? len normalized_text)%Z then
      match lookup hfkey_eqb (normalized_text, y_bucket, in_top_zone)
                   (_hf_candidates st) with
      | Some count =>
          (HF_MIN_PAGES_FOR_REPETITION <=? count)%Z &&
          Qgeb (ofZ count / ofZ (_total_pages_in_doc st))
               HF_REPETITION_THRESHOLD_PERCENT
      | None => false
      end
    else false
  else false.

Definition _is_redundant_line (st : State) (t : pystr) (y_top y_bottom : Q)
           (page_num : Z) : bool :=
  let text_lower := lower (strip t) in
  let page_height :=
    match lookup Z.eqb page_num (_page_dimensions st) with
    | Some dims => snd dims
    | None => 842
    end in
  if existsb (fun p => search p text_lower) NON_CONTENT_PATTERNS then true else
  let in_top_zone := Qltb y_top (page_height * HF_TOP_ZONE_PERCENTAGE) in
  let in_bottom_zone :=
    Qgtb y_bottom (page_height * (1 - HF_BOTTOM_ZONE_PERCENTAGE)) in
  if (len (strip t) <? 5)%Z then
    if pmatch RE_SHORT_TOKEN (strip t) then false else true
  else repetition_rule st t y_top in_top_zone.

(** *** Line records (the dictionaries built by the feature extractor)

    [heading_score] is absent until the line has been scored, and no step
    ever stores a ["whitespace_below"] key: both are read with [dict.get]. *)

Record Line : Type := mkLine {
  text : pystr;
  page : Z;
  font_size : Q;
  font_name : pystr;
  is_bold : bool;
  is_italic : bool;
  bbox : BBox;
  color : Z;
  rel_font_size : Q;
  x_pos : Q;
  y_pos : Q;
  whitespace_above : Q;
  seq_idx : Z;
  word_count : Z;
  cap_ratio : Q;
  ends_with_period : bool;
  ends_with_colon : bool;
  has_enum : bool;
  has_cue : bool;
  heading_score : option Q;
  whitespace_below : option Q
}.

(** [d.get(k, default)] *)
Definition get {A : Type} (field : option A) (default : A) : A :=
  match field with
  | Some v => v
  | None => default
  end.

Definition page_width_of (st : State) (page_num : Z) : Q :=
  match lookup Z.eqb page_num (_page_dimensions st) with
  | Some dims => fst dims
  | None => 595
  end.

(** *** Heading score, one definition per scoring step *)

Definition size_ratio_of (line_data : Line) (avg_doc_font_size : Q) : option Q :=
  if Qgtb avg_doc_font_size 0
  then Some (font_size line_data / avg_doc_font_size)
  else None.

Definition score_font (line_data : Line) (avg_doc_font_size : Q) : Q :=
  match size_ratio_of line_data avg_doc_font_size with
  | Some size_ratio =>
      if Qgeb size_ratio (18 # 10) then 50
      else if Qgeb size_ratio (15 # 10) then 35
      else if Qgtb size_ratio MIN_HEADING_FONT_SIZE_RATIO then 25
      else 0
  | None => 0
  end.

Definition score_bold (line_data : Line) : Q :=
  if is_bold line_data then 45 else 0.

Definition score_italic (line_data : Line) : Q :=
  if is_italic line_data then 0 else 0.

Definition score_pattern (line_data : Line) : Q :=
  if existsb (fun p => pmatch p (text line_data)) heading_patterns
  then 30 else 0.

Definition score_enum (line_data : Line) : Q :=
  if has_enum line_data then 35 else 0.

Definition score_cue (line_data : Line) : Q :=
  if has_cue line_data then 10 else 0.

Definition combined_whitespace (line_data : Line) : Q :=
  whitespace_above line_data + get (whitespace_below line_data) 0.

Definition whitespace_tier (combined body_size : Q) : Q :=
  if Qgtb combined (body_size * (25 # 10)) then 15
  else if Qgtb combined (body_size * (15 # 10)) then 10
  else if Qgtb combined (body_size * (8 # 10)) then 5
  else 0.

Definition score_whitespace (line_data : Line) (avg_doc_font_size : Q) : Q :=
  let body_size := avg_doc_font_size in
  whitespace_tier (combined_whitespace line_data) body_size.

Definition score_left (st : State) (line_data : Line) : Q :=
  let page_width := page_width_of st (page line_data - 1) in
  let typical_left_margin := page_width * (12 # 100) in
  if Qltb (Qabs' (x_pos line_data - typical_left_margin)) 10 then 10 else 0.

Definition score_center (st : State) (line_data : Line) : Q :=
  let page_width := page_width_of st (page line_data - 1) in
  let text_center_x :=
    x_pos line_data + (x1 (bbox line_data) - x_pos line_data) / 2 in
  let page_center_x := page_width / 2 in
  if Qltb (Qabs' (text_center_x - page_center_x)) (page_width * (8 # 100))
  then 12 else 0.

Definition score_word_count (line_data : Line) : Q :=
  let wc := word_count line_data in
  if (2 <=? wc)%Z && (wc <=? MAX_HEADING_WORD_COUNT)%Z then 6
  else if (MAX_HEADING_WORD_COUNT + 10 <? wc)%Z then -30
  else if (wc <? 2)%Z then -25
  else 0.

Definition score_capitalization (line_data : Line) : Q :=
  let wc := word_count line_data in
  if Qeqb (cap_ratio line_data) 1 &&
     Qleb (ofZ wc) (ofZ MAX_HEADING_WORD_COUNT / 2) then 12
  else if istitle (text line_data) && (wc <=? MAX_HEADING_WORD_COUNT)%Z then 8
  else 0.

Definition score_ending (line_data : Line) : Q :=
  if ends_with_period line_data then -45
  else if ends_with_colon line_data then 15
  else if negb (ends_with_period line_data || ends_with_colon line_data) then 10
  else 0.

Definition score_first_page (line_data : Line) (avg_doc_font_size : Q) : Q :=
  let body_size := avg_doc_font_size in
  if (page line_data =? 1)%Z && Qltb (y_pos line_data) 120 &&
     Qgeb (font_size line_data) (body_size * (18 # 10))
  then 25 else 0.

Definition score_color (line_data : Line) : Q :=
  if (color line_data =? 0)%Z then 3 else 0.

(** The f-string of the first [logging.debug] after the font step formats
    [size_ratio], which is bound only under [avg_doc_font_size > 0]. *)
Definition calculate_heading_score (st : State) (line_data : Line)
           (avg_doc_font_size : Q) : result Q :=
  if is_empty (text line_data) then Ok 0 else
  let score := 0 + score_font line_data avg_doc_font_size in
  _ <- match size_ratio_of line_data avg_doc_font_size with
       | Some size_ratio => Ok size_ratio
       | None => Raise (UnboundLocalError "size_ratio")
       end ;;
  let score := score + score_bold line_data in
  let score := score + score_italic line_data in
  let score := score + score_pattern line_data in
  let score := score + score_enum line_data in
  let score := score + score_cue line_data in
  let score := score + score_whitespace line_data avg_doc_font_size in
  let score := score + score_left st line_data in
  let score := score + score_center st line_data in
  let score := score + score_word_count line_data in
  let score := score + score_capitalization line_data in
  let score := score + score_ending line_data in
  let score := score + score_first_page line_data avg_doc_font_size in
  let score := score + score_color line_data in
  Ok score.

(** *** Feature extraction *)

(** Order of the keys [(a1, b1) <= (a2, b2)] of two-component tuples. *)
Definition lex_le (a1 b1 a2 b2 : Q) : bool :=
  Qltb a1 a2 || (Qeqb a1 a2 && Qleb b1 b2).

Definition bbox_le (a b : BBox) : bool := lex_le (y0 a) (x0 a) (y0 b) (x0 b).

Fixpoint foldM {A B : Type} (f : A -> B -> result A) (l : list B) (a : A)
  : result A :=
  match l with
  | [] => Ok a
  | b :: l' => a' <- f a b ;; foldM f l' a'
  end.

Definition all_doc_font_sizes (doc : Doc) : list Q :=
  flat_map
    (fun p =>
       flat_map
         (fun b =>
            flat_map
              (fun l =>
                 filter (fun sz => Qgtb sz 0) (map span_size (rl_spans l)))
              (get (b_lines b) []))
         (p_blocks p))
    doc.

Definition avg_doc_font_size_of (doc : Doc) : Q :=
  match all_doc_font_sizes doc with
  | [] => 12
  | sizes => mean sizes
  end.

(** The loop variables of [extract_text_lines_with_features]. *)
Record Extraction : Type := mkExtraction {
  text_lines_data : list Line;
  next_seq_idx : Z;
  prev_valid_line_bottom_y_per_page : list (Z * Q)   (* defaultdict, 0.0 *)
}.

Definition cap_ratio_of (t : pystr) : Q :=
  round2 (ofnat (count_upper t) / ofZ (Z.max (len t) 1)).

(** [line_data["heading_score"] = score] *)
Definition set_heading_score (l : Line) (score : Q) : Line :=
  {| text := text l; page := page l; font_size := font_size l;
     font_name := font_name l; is_bold := is_bold l; is_italic := is_italic l;
     bbox := bbox l; color := color l; rel_font_size := rel_font_size l;
     x_pos := x_pos l; y_pos := y_pos l;
     whitespace_above := whitespace_above l; seq_idx := seq_idx l;
     word_count := word_count l; cap_ratio := cap_ratio l;
     ends_with_period := ends_with_period l;
     ends_with_colon := ends_with_colon l; has_enum := has_enum l;
     has_cue := has_cue l; heading_score := Some score;
     whitespace_below := whitespace_below l |}.

Definition extract_line (st : State) (avg_doc_font_size : Q) (page_num : Z)
           (acc : Extraction) (line_dict : RawLine) : result Extraction :=
  let line_text := line_text_of line_dict in
  if is_empty line_text then Ok acc else
  let line_bbox := rl_bbox line_dict in
  let y_top := y0 line_bbox in
  let y_bottom := y1 line_bbox in
  if _is_redundant_line st line_text y_top y_bottom page_num then
    Ok (mkExtraction (text_lines_data acc) (next_seq_idx acc)
          (store Z.eqb page_num y_bottom (prev_valid_line_bottom_y_per_page acc)))
  else
    let first_span := hd_error (rl_spans line_dict) in
    let font_size := get (option_map span_size first_span) 0 in
    let font_name := get (option_map span_font first_span) [] in
    let color_int := get (option_map span_color first_span) 0%Z in
    let flags := get (option_map span_flags first_span) 0%Z in
    let rel_font_size :=
      if Qgtb avg_doc_font_size 0
      then round2 (font_size / avg_doc_font_size) else 0 in
    let prev_bottom :=
      get (lookup Z.eqb page_num (prev_valid_line_bottom_y_per_page acc)) 0 in
    let whitespace_above := Qmax 0 (round2 (y_top - prev_bottom)) in
    let current_line_data :=
      {| text := line_text;
         page := (page_num + 1)%Z;
         font_size := font_size;
         font_name := font_name;
         is_bold := _is_bold flags;
         is_italic := _is_italic flags;
         bbox := line_bbox;
         color := color_int;
         rel_font_size := rel_font_size;
         x_pos := x0 line_bbox;
         y_pos := y_top;
         whitespace_above := whitespace_above;
         seq_idx := next_seq_idx acc;
         word_count := Z.of_nat (List.length (split line_text));
         cap_ratio := cap_ratio_of line_text;
         ends_with_period := endswith (strip line_text) ".";
         ends_with_colon := endswith (strip line_text) ":";
         has_enum := pmatch RE_ENUM line_text;
         has_cue := existsb (fun keyword => contains keyword (lower line_text))
                            heading_keywords;
         heading_score := None;
         whitespace_below := None |} in
    score <- calculate_heading_score st current_line_data avg_doc_font_size ;;
    let scored := set_heading_score current_line_data score in
    Ok (mkExtraction (text_lines_data acc ++ [scored])
          (next_seq_idx acc + 1)%Z
          (store Z.eqb page_num y_bottom (prev_valid_line_bottom_y_per_page acc))).

Definition extract_block (st : State) (avg_doc_font_size : Q) (page_num : Z)
           (acc : Extraction) (block_dict : Block) : result Extraction :=
  match b_lines block_dict with
  | None => Ok acc
  | Some ls =>
      let lines_sorted :=
        PySort.sorted (fun a b => bbox_le (rl_bbox a) (rl_bbox b)) ls in
      foldM (extract_line st avg_doc_font_size page_num) lines_sorted acc
  end.

Definition extract_page (st : State) (avg_doc_font_size : Q)
           (acc : Extraction) (ip : Z * Page) : result Extraction :=
  let '(page_num, page) := ip in
  let blocks_sorted :=
    PySort.sorted (fun a b => bbox_le (b_bbox a) (b_bbox b)) (p_blocks page) in
  foldM (extract_block st avg_doc_font_size page_num) blocks_sorted acc.

Definition extract_text_lines_with_features (st : State) (doc : Doc)
  : result (list Line) :=
  let avg_doc_font_size := avg_doc_font_size_of doc in
  acc <- foldM (extract_page st avg_doc_font_size) (enumerate_from 0%Z doc)
               (mkExtraction [] 0%Z []) ;;
  Ok (text_lines_data acc).

(** *** Font statistics *)

Record FontStats : Type := mkFontStats {
  mean_font_size : Q;
  median_font_size : Q;
  body_font_size : Q
}.

(** [Counter(l)]: the distinct values with their counts, in first-seen order. *)
Fixpoint counter (l : list Q) (acc : list (Q * Z)) : list (Q * Z) :=
  match l with
  | [] => acc
  | x :: l' =>
      counter l'
        (match lookup Qeqb x acc with
         | Some n => store Qeqb x (n + 1)%Z acc
         | None => store Qeqb x 1%Z acc
         end)
  end.

(** [most_common(1)[0][0]]: the first value of maximal count. *)
Fixpoint most_common1 (best : Q * Z) (items : list (Q * Z)) : Q :=
  match items with
  | [] => fst best
  | it :: items' =>
      most_common1 (if (snd best <? snd it)%Z then it else best) items'
  end.

(** [statistics.median] of a non-empty list *)
Definition median (l : list Q) : Q :=
  let s := PySort.sorted Qleb l in
  let n := List.length s in
  if Nat.odd n then nth (n / 2) s 0
  else (nth (n / 2 - 1) s 0 + nth (n / 2) s 0) / 2.

(** [None] is the empty dictionary returned when no size is positive. *)
Definition analyze_font_statistics (text_blocks : list Line) : option FontStats :=
  let font_sizes :=
    filter (fun sz => Qgtb sz 0) (map font_size text_blocks) in
  match counter font_sizes [] with
  | [] => None
  | it :: items =>
      Some (mkFontStats (mean font_sizes) (median font_sizes)
                        (most_common1 it items))
  end.

(** *** Heading levels *)

Inductive level : Type := H1 | H2 | H3.

Definition level_eqb (a b : level) : bool :=
  match a, b with
  | H1, H1 | H2, H2 | H3, H3 => true
  | _, _ => false
  end.

(** [list(set(l))] up to order: one representative per value. *)
Fixpoint distinct (l : list Q) : list Q :=
  match l with
  | [] => []
  | x :: l' => if existsb (Qeqb x) l' then distinct l' else x :: distinct l'
  end.

Definition _get_heading_font_sizes (all_headings : list Line) : list Q :=
  PySort.sorted (fun a b => Qleb b a) (distinct (map font_size all_headings)).

Definition build_level_map (unique_heading_sizes : list Q) : list (Q * level) :=
  let level_map := [] in
  let level_map :=
    match nth_error unique_heading_sizes 0 with
    | Some sz => store Qeqb sz H1 level_map | None => level_map end in
  let level_map :=
    match nth_error unique_heading_sizes 1 with
    | Some sz => store Qeqb sz H2 level_map | None => level_map end in
  let level_map :=
    match nth_error unique_heading_sizes 2 with
    | Some sz => store Qeqb sz H3 level_map | None => level_map end in
  fold_left (fun m sz => store Qeqb sz H3 m) (skipn 3 unique_heading_sizes)
            level_map.

(** The level read off the font-size ranking. *)
Definition initial_level (heading : Line) (all_headings_in_order : list Line)
  : level :=
  let unique_heading_sizes := _get_heading_font_sizes all_headings_in_order in
  get (lookup Qeqb (font_size heading) (build_level_map unique_heading_sizes)) H3.

Definition classify_heading_level (st : State) (heading : Line)
           (all_headings_in_order : list Line) (font_stats : option FontStats)
  : level :=
  let t := text heading in
  match all_headings_in_order with
  | [] => H1
  | _ =>
    let current_level_str := initial_level heading all_headings_in_order in
    let body_size := get (option_map body_font_size font_stats) 12 in
    if pmatch RE_LEVEL3 t then H3
    else if pmatch RE_LEVEL2 t then
      (if negb (level_eqb current_level_str H1) then H2 else current_level_str)
    else if pmatch RE_LEVEL1_NUM t || pmatch RE_LEVEL1_ROMAN t then
      (if Qgeb (font_size heading) (body_size * (18 # 10)) &&
          level_eqb current_level_str H1
       then H1 else H2)
    else if pmatch RE_LETTER_PAREN t || pmatch RE_LETTER_DOT t then H3
    else
      let page_width := page_width_of st (page heading - 1) in
      let typical_doc_margin := page_width * (1 # 10) in
      if Qgtb (x_pos heading) (typical_doc_margin + 30) then
        match current_level_str with
        | H1 => H2
        | H2 => H3
        | H3 => current_level_str
        end
      else current_level_str
  end.

(** *** Title *)

Definition page_ypos_le (a b : Line) : bool :=
  (page a <? page b)%Z || ((page a =? page b)%Z && Qleb (y_pos a) (y_pos b)).

Definition document_title : pystr := str "Document".

(** The fallback shared by the two failure paths of [extract_title]. *)
Definition fallback_title (text_lines : list Line) : pystr :=
  match text_lines with
  | [] => document_title
  | _ =>
      let high_score_headings :=
        PySort.sorted page_ypos_le
          (filter (fun b => Qgtb (get (heading_score b) 0)
                                 (HEADING_SCORE_THRESHOLD + 10))
                  text_lines) in
      match high_score_headings with
      | h :: _ => strip (text h)
      | [] => document_title
      end
  end.

Definition center_offset (page_width : Q) (x : Line) : Q :=
  Qabs' ((x0 (bbox x) + x1 (bbox x)) / 2 - page_width / 2).

Definition is_non_content (t : pystr) : bool :=
  existsb (fun p => search p (lower t)) NON_CONTENT_PATTERNS.

(** The loop that appends the lines following the main title candidate. *)
Fixpoint title_follow (page_width : Q) (main_title_candidate : Line)
         (candidates : list Line) (current_main_bottom_y : Q) : list pystr :=
  match candidates with
  | [] => []
  | candidate :: rest =>
      if (page candidate =? page main_title_candidate)%Z &&
         Qltb (Qabs' (font_size candidate - font_size main_title_candidate))
              (15 # 10) &&
         Qltb (y_pos candidate - current_main_bottom_y)
              (font_size main_title_candidate * 2) &&
         Qltb (center_offset page_width candidate) (page_width * (15 # 100)) &&
         negb (is_non_content (text candidate))
      then strip (text candidate)
             :: title_follow page_width main_title_candidate rest
                             (y1 (bbox candidate))
      else []
  end.

Definition max_font_size (ls : list Line) : Q :=
  match ls with
  | [] => 0
  | l :: ls' => fold_left (fun m x => if Qltb m (font_size x) then font_size x else m)
                          ls' (font_size l)
  end.

Definition extract_title (st : State) (text_lines : list Line)
           (font_stats : option FontStats) : pystr :=
  match text_lines with
  | [] => document_title
  | _ =>
    let first_page_relevant_lines :=
      filter (fun line => (page line =? 1)%Z && (3 <? len (strip (text line)))%Z)
             text_lines in
    match first_page_relevant_lines with
    | [] => fallback_title text_lines
    | _ =>
      let max_size := max_font_size first_page_relevant_lines in
      let title_candidates :=
        filter (fun line => Qeqb (font_size line) max_size &&
                            Qltb (y_pos line) 200)
               first_page_relevant_lines in
      let title_candidates :=
        match title_candidates with
        | [] => filter (fun line => Qgeb (font_size line) (max_size * (8 # 10)) &&
                                    Qltb (y_pos line) 200)
                       first_page_relevant_lines
        | _ => title_candidates
        end in
      match title_candidates with
      | [] => document_title
      | _ =>
        let page_width := page_width_of st 0 in
        let title_candidates :=
          PySort.sorted
            (fun a b => lex_le (y_pos a) (center_offset page_width a)
                               (y_pos b) (center_offset page_width b))
            title_candidates in
        let title_lines :=
          match title_candidates with
          | [] => []
          | main_title_candidate :: rest =>
              strip (text main_title_candidate)
                :: title_follow page_width main_title_candidate rest
                                (y1 (bbox main_title_candidate))
          end in
        let title := join (str " ") title_lines in
        let title := strip (Re.sub RE_WS_RUN (str " ") title) in
        if (len title <? 5)%Z || pmatch RE_BARE_NUMBER title ||
           is_non_content title
        then fallback_title text_lines
        else if is_empty title then document_title else title
      end
    end
  end.

(** *** Multi-line merging *)

Definition page_top_le (a b : Line) : bool :=
  (page a <? page b)%Z ||
  ((page a =? page b)%Z && Qleb (y0 (bbox a)) (y0 (bbox b))).

(** The conditions for not merging, in the order the loop tests them. *)

Definition break_page (current_merged next_h : Line) : bool :=
  negb (page current_merged =? page next_h)%Z.

Definition break_gap (current_merged next_h : Line) : bool :=
  let vertical_distance := y0 (bbox next_h) - y1 (bbox current_merged) in
  Qgeb vertical_distance (font_size current_merged * (15 # 10)).

Definition break_font (current_merged next_h : Line) : bool :=
  Qgeb (Qabs' (font_size current_merged - font_size next_h)) 2.

Definition break_period (current_merged next_h : Line) : bool :=
  ends_with_period current_merged &&
  negb (pmatch RE_ENDS_WITH_NUMBER_DOT (strip (text current_merged))).

Definition break_enum (current_merged next_h : Line) : bool :=
  has_enum next_h.

Definition break_long (current_merged next_h : Line) : bool :=
  (MAX_HEADING_WORD_COUNT + 5 <? word_count current_merged)%Z &&
  (MAX_HEADING_WORD_COUNT + 5 <? word_count next_h)%Z.

Definition break_not_bold (current_merged next_h : Line) : bool :=
  negb (is_bold current_merged) && negb (is_bold next_h) &&
  Qltb (font_size current_merged) (font_size current_merged * (15 # 10)).

Definition earlier_break (current_merged next_h : Line) : bool :=
  break_page current_merged next_h ||
  break_gap current_merged next_h ||
  break_font current_merged next_h ||
  break_period current_merged next_h ||
  break_enum current_merged next_h ||
  break_long current_merged next_h.

Definition merged_with (current_merged next_h : Line) : Line :=
  let t := text current_merged ++ str " " ++ strip (text next_h) in
  {| text := t;
     page := page current_merged;
     font_size := Qmax (font_size current_merged) (font_size next_h);
     font_name := font_name current_merged;
     is_bold := is_bold current_merged || is_bold next_h;
     is_italic := is_italic current_merged || is_italic next_h;
     bbox := mkBBox (Qmin (x0 (bbox current_merged)) (x0 (bbox next_h)))
                    (Qmin (y0 (bbox current_merged)) (y0 (bbox next_h)))
                    (Qmax (x1 (bbox current_merged)) (x1 (bbox next_h)))
                    (Qmax (y1 (bbox current_merged)) (y1 (bbox next_h)));
     color := color current_merged;
     rel_font_size := rel_font_size current_merged;
     x_pos := x_pos current_merged;
     y_pos := y_pos current_merged;
     whitespace_above := whitespace_above current_merged;
     seq_idx := seq_idx current_merged;
     word_count := (word_count current_merged + word_count next_h)%Z;
     cap_ratio := cap_ratio_of t;
     ends_with_period := ends_with_period next_h;
     ends_with_colon := ends_with_colon next_h;
     has_enum := has_enum current_merged || has_enum next_h;
     has_cue := has_cue current_merged || has_cue next_h;
     heading_score := Some (Qmax (get (heading_score current_merged) 0)
                                 (get (heading_score next_h) 0));
     whitespace_below := whitespace_below current_merged |}.

(** One iteration of the loop: the emitted headings and the accumulator. *)
Definition merge_step (acc : list Line * Line) (next_h : Line)
  : list Line * Line :=
  let '(merged_headings, current_merged) := acc in
  if earlier_break current_merged next_h then
    (merged_headings ++ [current_merged], next_h)
  else if break_not_bold current_merged next_h then
    (merged_headings ++ [current_merged], next_h)
  else (merged_headings, merged_with current_merged next_h).

Definition merge_multiline_headings (headings : list Line) : list Line :=
  match PySort.sorted page_top_le headings with
  | [] => []
  | first :: others =>
      let '(merged_headings, current_merged) :=
        fold_left merge_step others ([], first) in
      merged_headings ++ [current_merged]
  end.

(** *** Candidate selection (the de-duplication loop of [process_pdf]) *)

Definition MAX_HEADINGS : nat := 150.

Definition norm_text_of (candidate : Line) : pystr :=
  lower (strip (Re.sub RE_WS_RUN (str " ") (text candidate))).

(** The spatial proximity check against the last accepted heading;
    [final_filtered_headings] is not empty when [last_added_bbox] is set. *)
Definition close_duplicate (candidate : Line)
           (final_filtered_headings : list Line)
           (last_added_bbox : option BBox) (last_added_page : Z) : bool :=
  match last_added_bbox with
  | Some lb =>
      (last_added_page =? page candidate)%Z &&
      (let vertical_distance := y_pos candidate - y1 lb in
       let prev := last final_filtered_headings candidate in
       Qltb vertical_distance (font_size candidate * (8 # 10)) &&
       Qltb (Qabs' (font_size candidate - font_size prev)) 1 &&
       Bool.eqb (is_bold candidate) (is_bold prev))
  | None => false
  end.

Fixpoint select_loop (cap : nat) (candidates : list Line)
         (final_filtered_headings : list Line) (seen_norm_texts : list pystr)
         (last_added_bbox : option BBox) (last_added_page : Z) : list Line :=
  match candidates with
  | [] => final_filtered_headings
  | candidate :: rest =>
      let norm_text := norm_text_of candidate in
      if (len norm_text <? 5)%Z || existsb (text_eqb norm_text) seen_norm_texts
      then select_loop cap rest final_filtered_headings seen_norm_texts
                       last_added_bbox last_added_page
      else if close_duplicate candidate final_filtered_headings
                              last_added_bbox last_added_page
      then select_loop cap rest final_filtered_headings seen_norm_texts
                       last_added_bbox last_added_page
      else
        let final_filtered_headings := final_filtered_headings ++ [candidate] in
        if (cap <=? List.length final_filtered_headings)%nat
        then final_filtered_headings
        else select_loop cap rest final_filtered_headings
                         (norm_text :: seen_norm_texts)
                         (Some (bbox candidate)) (page candidate)
  end.

Definition is_candidate (line_data : Line) : bool :=
  Qgeb (get (heading_score line_data) 0) HEADING_SCORE_THRESHOLD.

Definition heading_candidates_of (text_lines : list Line) : list Line :=
  PySort.sorted
    (fun a b => Qleb (get (heading_score b) 0) (get (heading_score a) 0))
    (filter is_candidate text_lines).

Definition select_headings (text_lines : list Line) : list Line :=
  let heading_candidates_spatial_sort :=
    PySort.sorted page_ypos_le (heading_candidates_of text_lines) in
  select_loop MAX_HEADINGS heading_candidates_spatial_sort [] [] None (-1)%Z.

(** *** The result and the pipeline *)

Record OutlineEntry : Type := mkEntry {
  o_level : level;
  o_text : pystr;
  o_page : Z
}.

Record Result : Type := mkResult {
  title : pystr;
  outline : list OutlineEntry
}.

Definition placeholder : Result := mkResult document_title [].

Definition merged_sorted (text_lines : list Line) : list Line :=
  PySort.sorted page_top_le
    (merge_multiline_headings (select_headings text_lines)).

Definition outline_entry (st : State) (merged_headings : list Line)
           (font_stats : option FontStats) (heading : Line) : OutlineEntry :=
  mkEntry (classify_heading_level st heading merged_headings font_stats)
          (strip (text heading))
          (page heading - 1)%Z.

(** What [process_pdf] computes from the extracted lines. *)
Definition assemble (st : State) (text_lines : list Line) : Result :=
  match text_lines with
  | [] => placeholder
  | _ =>
      let font_stats := analyze_font_statistics text_lines in
      let merged_headings := merged_sorted text_lines in
      let outline_entries :=
        map (outline_entry st merged_headings font_stats) merged_headings in
      let title := extract_title st text_lines font_stats in
      mkResult title outline_entries
  end.

(** The body of the [try]: [opened] is the outcome of [fitz.open]; the
    state reached when an exception escapes is kept.  On the documents of
    [Layout] the first pass has nothing that can raise; [Fitz.try_body] is
    the same body on layout data for which that is not given. *)
Definition try_body (st : State) (opened : result Doc)
  : result Result * State :=
  match opened with
  | Raise e => (Raise e, st)
  | Ok doc =>
      let st := _pre_process_for_hf_detection st doc in
      match extract_text_lines_with_features st doc with
      | Raise e => (Raise e, st)
      | Ok text_lines => (Ok (assemble st text_lines), st)
      end
  end.

Definition process_pdf (st : State) (opened : result Doc) : Result * State :=
  let st := _reset_state st in
  match try_body st opened with
  | (Ok r, st') => (r, st')
  | (Raise _, st') => (placeholder, st')
  end.

(** [__init__]: the state of a fresh extractor. *)
Definition initial_state : State := mkState [] 0%Z [].

(** The loop of [main]: one extractor processes the inputs in turn. *)
Fixpoint process_all (st : State) (inputs : list (result Doc))
  : list Result * State :=
  match inputs with
  | [] => ([], st)
  | opened :: rest =>
      let '(r, st') := process_pdf st opened in
      let '(rs, st'') := process_all st' rest in
      (r :: rs, st'')
  end.

(** The selection loop without its cap: the candidates that pass the
    length, seen-text and proximity checks, in the order they are met.  It is
    [select_loop] with the test on the number of accepted headings removed. *)
Fixpoint select_uncapped (candidates : list Line)
         (final_filtered_headings : list Line) (seen_norm_texts : list pystr)
         (last_added_bbox : option BBox) (last_added_page : Z) : list Line :=
  match candidates with
  | [] => final_filtered_headings
  | candidate :: rest =>
      let norm_text := norm_text_of candidate in
      if (len norm_text <? 5)%Z || existsb (text_eqb norm_text) seen_norm_texts
      then select_uncapped rest final_filtered_headings seen_norm_texts
                           last_added_bbox last_added_page
      else if close_duplicate candidate final_filtered_headings
                              last_added_bbox last_added_page
      then select_uncapped rest final_filtered_headings seen_norm_texts
                           last_added_bbox last_added_page
      else select_uncapped rest (final_filtered_headings ++ [candidate])
                           (norm_text :: seen_norm_texts)
                           (Some (bbox candidate)) (page candidate)
  end.

(** The candidates in the order the selection loop walks them. *)
Definition spatial_candidates (text_lines : list Line) : list Line :=
  PySort.sorted page_ypos_le (heading_candidates_of text_lines).

(** *** Relations used to state the properties *)

(** Non-decreasing [(page, top y)]. *)
Definition page_top_order (a b : Line) : Prop :=
  (page a < page b)%Z \/ (page a = page b /\ y0 (bbox a) <= y0 (bbox b)).

(** An outline entry is the projection of a merged heading. *)
Definition corresponds (e : OutlineEntry) (h : Line) : Prop :=
  o_text e = strip (text h) /\ o_page e = (page h - 1)%Z.

(** The lines the run works on: those extracted in the second pass, or none
    when the document could not be opened or the extraction raised. *)
Definition lines_of_run (st : State) (opened : result Doc) : list Line :=
  match opened with
  | Raise _ => []
  | Ok doc =>
      match extract_text_lines_with_features
              (_pre_process_for_hf_detection (_reset_state st) doc) doc with
      | Ok text_lines => text_lines
      | Raise _ => []
      end
  end.

(** What the feature extractor guarantees of a record it builds. *)
Definition extracted_shape (l : Line) : Prop :=
  whitespace_below l = None /\ cap_ratio l = cap_ratio_of (text l).

(** What the whitespace step of the scorer sees on a record without the
    key ["whitespace_below"]. *)
Definition above_only (l : Line) : Prop :=
  whitespace_below l = None /\
  forall body_size : Q,
    score_whitespace l body_size
    = whitespace_tier (whitespace_above l) body_size.

(** *** Notions used to state further properties *)

(** What [extract_text_lines_with_features] guarantees of each record it
    returns, for the state and mean font size it ran with on a document of
    [n_pages] pages. *)
Definition extracted_from (st : State) (avg : Q) (n_pages : Z) (l : Line)
  : Prop :=
  text l <> [] /\
  strip (text l) = text l /\
  (1 <= page l <= n_pages)%Z /\
  _is_redundant_line st (text l) (y0 (bbox l)) (y1 (bbox l)) (page l - 1)
  = false /\
  (0 <= whitespace_above l)%Q /\
  (1 <= word_count l)%Z /\
  exists score,
    heading_score l = Some score /\
    calculate_heading_score st l avg = Ok score.

(** The invariant of the extraction loops. *)
Definition extraction_ok (st : State) (avg : Q) (n : Z) (acc : Extraction)
  : Prop :=
  Forall (extracted_from st avg n) (text_lines_data acc) /\
  next_seq_idx acc = Z.of_nat (List.length (text_lines_data acc)) /\
  map seq_idx (text_lines_data acc)
  = map Z.of_nat (seq 0 (List.length (text_lines_data acc))).

(** Non-decreasing [(page, y_pos)], the order of the selection walk. *)
Definition page_ypos_order (a b : Line) : Prop :=
  (page a < page b)%Z \/ (page a = page b /\ y_pos a <= y_pos b).

(** The sort key [(page, bbox top)] and its order. *)
Definition top_key (h : Line) : Z * Q := (page h, y0 (bbox h)).

Definition key_order (a b : Z * Q) : Prop :=
  (fst a < fst b)%Z \/ (fst a = fst b /\ snd a <= snd b).

(** The words of a list of headings. *)
Definition total_words (hs : list Line) : Z :=
  fold_right (fun h n => (word_count h + n)%Z) 0%Z hs.

(** The census key a line of page [page_num] is counted under, if it is
    counted: the conditions of the innermost loop of the first pass. *)
Definition census_key (page_num pages_to_scan : Z) (page_height : Q)
           (l : RawLine) : option HFKey :=
  let line_text := line_text_of l in
  if is_empty line_text then None else
  let y_pos_top := y0 (rl_bbox l) in
  let y_pos_bottom := y1 (rl_bbox l) in
  let in_top_zone := Qltb y_pos_top (page_height * HF_TOP_ZONE_PERCENTAGE) in
  let in_bottom_zone :=
    Qgtb y_pos_bottom (page_height * (1 - HF_BOTTOM_ZONE_PERCENTAGE)) in
  if (in_top_zone || in_bottom_zone) && (page_num <? pages_to_scan)%Z then
    let normalized_text := _normalize_text_for_hf_comparison line_text in
    if negb (is_empty normalized_text) && (3 <? len normalized_text)%Z then
      Some (normalized_text, y_bucket_of y_pos_top, in_top_zone)
    else None
  else None.

(** The keys counted on one page, in the order of the scan. *)
Definition page_census_keys (pages_to_scan : Z) (ip : Z * Page)
  : list HFKey :=
  flat_map
    (fun b =>
       flat_map
         (fun l =>
            match census_key (fst ip) pages_to_scan (p_height (snd ip)) l with
            | Some k => [k]
            | None => []
            end)
         (get (b_lines b) []))
    (p_blocks (snd ip)).

(** How often a key occurs in a list of keys. *)
Definition key_count (k : HFKey) (ks : list HFKey) : Z :=
  Z.of_nat (List.length (filter (hfkey_eqb k) ks)).

(** No page counts two lines under the same key. *)
Definition one_line_per_key (doc : Doc) : Prop :=
  Forall (fun ip =>
            NoDup (page_census_keys
                     (Z.min (Z.of_nat (List.length doc)) 10) ip))
         (enumerate_from 0%Z doc).

(** How many entries of [l] equal [x] as numbers. *)
Definition count_size (x : Q) (l : list Q) : Z :=
  Z.of_nat (List.length (filter (Qeqb x) l)).

(** The sizes [analyze_font_statistics] works on. *)
Definition positive_sizes (text_blocks : list Line) : list Q :=
  filter (fun sz => Qgtb sz 0) (map font_size text_blocks).

(** The keys of a dictionary are different numbers. *)
Fixpoint keys_distinct {V : Type} (d : list (Q * V)) : Prop :=
  match d with
  | [] => True
  | (k, _) :: d' =>
      (forall e, In e d' -> Qeqb k (fst e) = false) /\ keys_distinct d'
  end.

(** The entries of a list are different numbers. *)
Fixpoint sizes_distinct (l : list Q) : Prop :=
  match l with
  | [] => True
  | x :: l' => Forall (fun y => Qeqb x y = false) l' /\ sizes_distinct l'
  end.

(** The proximity test of the selection, of a candidate against the
    heading accepted before it. *)
Definition rendering_duplicate (prev candidate : Line) : bool :=
  (page prev =? page candidate)%Z &&
  (Qltb (y_pos candidate - y1 (bbox prev)) (font_size candidate * (8 # 10)) &&
   Qltb (Qabs' (font_size candidate - font_size prev)) 1 &&
   Bool.eqb (is_bold candidate) (is_bold prev)).

(** [R] holds between every element of a list and the next one. *)
Fixpoint neighbours {A : Type} (R : A -> A -> Prop) (l : list A) : Prop :=
  match l with
  | a :: (b :: _) as l' => R a b /\ neighbours R l'
  | _ => True
  end.

(** The bookkeeping of the loop: the last accepted bounding box and page
    are those of the last accepted heading. *)
Definition last_added_ok (final : list Line) (lb : option BBox) (lp : Z)
  : Prop :=
  match final with
  | [] => lb = None
  | f :: fs => lb = Some (bbox (last final f)) /\ lp = page (last final f)
  end.

End Extractor.

(** ** The two passes on layout data as the library hands it over

    The definitions of [Extractor] read a document whose pages load and whose
    dictionaries carry every key PyMuPDF gives a text block; on such a
    document nothing after [fitz.open] raises.  The code does not take that
    for granted everywhere: it reads some keys with [d[k]], which raises
    [KeyError] when the key is missing, and others with [d.get(k, default)]
    or after a test [k in d].  This module follows the two passes read by
    read, on dictionaries in which any key may be missing and on pages whose
    layout call may raise.

    The stages after the second pass are those of [Extractor]: they work on
    the line records built in the second pass, whose dictionary literal sets
    every key they read with [d[k]]; their divisions are by a constant or
    by [max(len(...), 1)], and [statistics.mean], [statistics.median],
    [most_common(1)[0]], [max(...)] and [sorted_headings[0]] are reached only
    behind a test that the list is not empty. *)

Module Fitz.
Import PyStr Re Num Layout Extractor.
Open Scope Q_scope.

Record SpanDict : Type := mkSpanDict {
  sp_text : option pystr;
  sp_size : option Q;
  sp_font : option pystr;
  sp_flags : option Z;
  sp_color : option Z
}.

Record LineDict : Type := mkLineDict {
  ln_bbox : option BBox;
  ln_spans : option (list SpanDict)
}.

Record BlockDict : Type := mkBlockDict {
  blk_bbox : option BBox;
  blk_lines : option (list LineDict)
}.

(** [get_text] is the outcome of [page.get_text("dict")["blocks"]]. *)
Record PageObj : Type := mkPageObj {
  rect_width : Q;
  rect_height : Q;
  get_text : result (list BlockDict)
}.

Definition Document : Type := list PageObj.

(** [d[k]] *)
Definition item {A : Type} (k : string) (v : option A) : result A :=
  match v with
  | Some a => Ok a
  | None => Raise (KeyError k)
  end.

(** A loop over [l] whose body updates [s] in place and may raise: the loop
    stops at the first exception, and the updates made until then stay. *)
Fixpoint for_each {S B : Type} (body : S -> B -> result unit * S)
         (l : list B) (s : S) : result unit * S :=
  match l with
  | [] => (Ok tt, s)
  | b :: l' =>
      match body s b with
      | (Ok _, s') => for_each body l' s'
      | (Raise e, s') => (Raise e, s')
      end
  end.

(** [" ".join([s["text"] for s in l["spans"]]).strip()] *)
Definition line_text_of (l : LineDict) : result pystr :=
  spans <- item "spans" (ln_spans l) ;;
  texts <- mapM (fun s => item "text" (sp_text s)) spans ;;
  Ok (strip (join (str " ") texts)).

(** *** First pass *)

(** The body of the innermost loop, for one line: it raises before it
    changes a count, or not at all. *)
Definition hf_scan_line (page_num pages_to_scan : Z) (page_height : Q)
           (hf : list (HFKey * Z)) (l : LineDict)
  : result unit * list (HFKey * Z) :=
  match line_text_of l with
  | Raise e => (Raise e, hf)
  | Ok line_text =>
      if is_empty line_text then (Ok tt, hf) else
      match item "bbox" (ln_bbox l) with
      | Raise e => (Raise e, hf)
      | Ok line_bbox =>
          let top_zone_y_max := page_height * HF_TOP_ZONE_PERCENTAGE in
          let bottom_zone_y_min :=
            page_height * (1 - HF_BOTTOM_ZONE_PERCENTAGE) in
          let y_pos_top := y0 line_bbox in
          let y_pos_bottom := y1 line_bbox in
          let in_top_zone := Qltb y_pos_top top_zone_y_max in
          let in_bottom_zone := Qgtb y_pos_bottom bottom_zone_y_min in
          if (in_top_zone || in_bottom_zone) && (page_num <? pages_to_scan)%Z
          then
            let normalized_text :=
              _normalize_text_for_hf_comparison line_text in
            if negb (is_empty normalized_text) && (3 <? len normalized_text)%Z
            then (Ok tt,
                  bump (normalized_text, y_bucket_of y_pos_top, in_top_zone) hf)
            else (Ok tt, hf)
          else (Ok tt, hf)
      end
  end.

Definition hf_scan_block (page_num pages_to_scan : Z) (page_height : Q)
           (hf : list (HFKey * Z)) (b : BlockDict)
  : result unit * list (HFKey * Z) :=
  match blk_lines b with
  | None => (Ok tt, hf)
  | Some ls =>
      for_each (hf_scan_line page_num pages_to_scan page_height) ls hf
  end.

(** The page dimensions are stored before the layout of the page is asked
    for. *)
Definition hf_scan_page (pages_to_scan : Z) (st : State) (ip : Z * PageObj)
  : result unit * State :=
  let '(page_num, page) := ip in
  let dims := store Z.eqb page_num (rect_width page, rect_height page)
                    (_page_dimensions st) in
  match get_text page with
  | Raise e => (Raise e, mkState (_hf_candidates st) (_total_pages_in_doc st) dims)
  | Ok blocks =>
      let '(r, hf) :=
        for_each (hf_scan_block page_num pages_to_scan (rect_height page))
                 blocks (_hf_candidates st) in
      (r, mkState hf (_total_pages_in_doc st) dims)
  end.

Definition _pre_process_for_hf_detection (st : State) (doc : Document)
  : result unit * State :=
  let total := Z.of_nat (List.length doc) in
  let st := mkState (_hf_candidates st) total (_page_dimensions st) in
  let pages_to_scan := Z.min total 10 in
  for_each (hf_scan_page pages_to_scan) (enumerate_from 0%Z doc) st.

(** *** Second pass *)

(** [if s["size"] > 0: all_doc_font_sizes.append(s["size"])] *)
Definition span_sizes (sizes : list Q) (s : SpanDict) : result (list Q) :=
  size <- item "size" (sp_size s) ;;
  Ok (if Qgtb size 0 then sizes ++ [size] else sizes).

Definition line_sizes (sizes : list Q) (l : LineDict) : result (list Q) :=
  foldM span_sizes (get (ln_spans l) []) sizes.

Definition block_sizes (sizes : list Q) (b : BlockDict) : result (list Q) :=
  foldM line_sizes (get (blk_lines b) []) sizes.

Definition page_sizes (sizes : list Q) (p : PageObj) : result (list Q) :=
  blocks <- get_text p ;;
  foldM block_sizes blocks sizes.

Definition all_doc_font_sizes (doc : Document) : result (list Q) :=
  foldM page_sizes doc [].

(** [sorted(l, key=lambda d: (d['bbox'][1], d['bbox'][0]))]: the key is
    taken of every element, then the elements are sorted by their keys. *)
Definition sorted_by_bbox {A : Type} (bbox_of : A -> option BBox) (l : list A)
  : result (list A) :=
  keys <- mapM (fun d => item "bbox" (bbox_of d)) l ;;
  Ok (map snd
        (PySort.sorted (fun a b => bbox_le (fst a) (fst b)) (combine keys l))).

(** [first_span.get(k, default)], where [first_span] is the first span or
    the empty dictionary. *)
Definition first_span_get {A : Type} (first_span : option SpanDict)
           (field : SpanDict -> option A) (default : A) : A :=
  match first_span with
  | Some s => get (field s) default
  | None => default
  end.

Definition extract_line (st : State) (avg_doc_font_size : Q) (page_num : Z)
           (acc : Extraction) (line_dict : LineDict) : result Extraction :=
  line_text <- line_text_of line_dict ;;
  if is_empty line_text then Ok acc else
  line_bbox <- item "bbox" (ln_bbox line_dict) ;;
  let y_top := y0 line_bbox in
  let y_bottom := y1 line_bbox in
  if _is_redundant_line st line_text y_top y_bottom page_num then
    Ok (mkExtraction (text_lines_data acc) (next_seq_idx acc)
          (store Z.eqb page_num y_bottom (prev_valid_line_bottom_y_per_page acc)))
  else
    spans <- item "spans" (ln_spans line_dict) ;;
    let first_span := hd_error spans in
    let font_size := first_span_get first_span sp_size 0 in
    let font_name := first_span_get first_span sp_font [] in
    let color_int := first_span_get first_span sp_color 0%Z in
    let flags := first_span_get first_span sp_flags 0%Z in
    let rel_font_size :=
      if Qgtb avg_doc_font_size 0
      then round2 (font_size / avg_doc_font_size) else 0 in
    let prev_bottom :=
      get (lookup Z.eqb page_num (prev_valid_line_bottom_y_per_page acc)) 0 in
    let whitespace_above := Qmax 0 (round2 (y_top - prev_bottom)) in
    let current_line_data :=
      {| text := line_text;
         page := (page_num + 1)%Z;
         font_size := font_size;
         font_name := font_name;
         is_bold := _is_bold flags;
         is_italic := _is_italic flags;
         bbox := line_bbox;
         color := color_int;
         rel_font_size := rel_font_size;
         x_pos := x0 line_bbox;
         y_pos := y_top;
         whitespace_above := whitespace_above;
         seq_idx := next_seq_idx acc;
         word_count := Z.of_nat (List.length (split line_text));
         cap_ratio := cap_ratio_of line_text;
         ends_with_period := endswith (strip line_text) ".";
         ends_with_colon := endswith (strip line_text) ":";
         has_enum := pmatch RE_ENUM line_text;
         has_cue := existsb (fun keyword => contains keyword (lower line_text))
                            heading_keywords;
         heading_score := None;
         whitespace_below := None |} in
    score <- calculate_heading_score st current_line_data avg_doc_font_size ;;
    let scored := set_heading_score current_line_data score in
    Ok (mkExtraction (text_lines_data acc ++ [scored])
          (next_seq_idx acc + 1)%Z
          (store Z.eqb page_num y_bottom (prev_valid_line_bottom_y_per_page acc))).

Definition extract_block (st : State) (avg_doc_font_size : Q) (page_num : Z)
           (acc : Extraction) (block_dict : BlockDict) : result Extraction :=
  match blk_lines block_dict with
  | None => Ok acc
  | Some ls =>
      lines_sorted <- sorted_by_bbox ln_bbox ls ;;
      foldM (extract_line st avg_doc_font_size page_num) lines_sorted acc
  end.

Definition extract_page (st : State) (avg_doc_font_size : Q)
           (acc : Extraction) (ip : Z * PageObj) : result Extraction :=
  let '(page_num, page) := ip in
  blocks <- get_text page ;;
  blocks_sorted <- sorted_by_bbox blk_bbox blocks ;;
  foldM (extract_block st avg_doc_font_size page_num) blocks_sorted acc.

Definition extract_text_lines_with_features (st : State) (doc : Document)
  : result (list Line) :=
  all_doc_font_sizes <- all_doc_font_sizes doc ;;
  let avg_doc_font_size :=
    match all_doc_font_sizes with
    | [] => 12
    | sizes => mean sizes
    end in
  acc <- foldM (extract_page st avg_doc_font_size) (enumerate_from 0%Z doc)
               (mkExtraction [] 0%Z []) ;;
  Ok (text_lines_data acc).

(** *** The run *)

(** The body of the [try]; the state reached when an exception escapes is
    kept. *)
Definition try_body (st : State) (opened : result Document)
  : result Result * State :=
  match opened with
  | Raise e => (Raise e, st)
  | Ok doc =>
      match _pre_process_for_hf_detection st doc with
      | (Raise e, st) => (Raise e, st)
      | (Ok _, st) =>
          match extract_text_lines_with_features st doc with
          | Raise e => (Raise e, st)
          | Ok text_lines => (Ok (assemble st text_lines), st)
          end
      end
  end.

(** [except Exception]: whatever was raised, the placeholder is returned. *)
Definition process_pdf (st : State) (opened : result Document)
  : Result * State :=
  let st := _reset_state st in
  match try_body st opened with
  | (Ok r, st') => (r, st')
  | (Raise _, st') => (placeholder, st')
  end.

(** *** Stages *)

(** A stage of the run on [opened], started in state [st], raises [e]. *)
Inductive stage_raises (st : State) : result Document -> exn -> Prop :=
| open_raises (e : exn) :
    stage_raises st (Raise e) e
| first_pass_raises (doc : Document) (e : exn) (st1 : State) :
    _pre_process_for_hf_detection st doc = (Raise e, st1) ->
    stage_raises st (Ok doc) e
| second_pass_raises (doc : Document) (e : exn) (st1 : State) :
    _pre_process_for_hf_detection st doc = (Ok tt, st1) ->
    extract_text_lines_with_features st1 doc = Raise e ->
    stage_raises st (Ok doc) e.

(** Every stage of the run on [opened] returns, and [r] is what the last
    stages make of all the lines the second pass extracted. *)
Definition complete_run (st : State) (opened : result Document) (r : Result)
  : Prop :=
  exists (doc : Document) (st1 : State) (text_lines : list Line),
    opened = Ok doc /\
    _pre_process_for_hf_detection st doc = (Ok tt, st1) /\
    extract_text_lines_with_features st1 doc = Ok text_lines /\
    r = assemble st1 text_lines.

(** *** Documents with every key *)

Definition of_span (s : Span) : SpanDict :=
  mkSpanDict (Some (span_text s)) (Some (span_size s)) (Some (span_font s))
             (Some (span_flags s)) (Some (span_color s)).

Definition of_line (l : RawLine) : LineDict :=
  mkLineDict (Some (rl_bbox l)) (Some (map of_span (rl_spans l))).

Definition of_block (b : Block) : BlockDict :=
  mkBlockDict (Some (b_bbox b)) (option_map (map of_line) (b_lines b)).

Definition of_page (p : Page) : PageObj :=
  mkPageObj (p_width p) (p_height p) (Ok (map of_block (p_blocks p))).

Definition of_doc (doc : Doc) : Document := map of_page doc.

End Fitz.

(** ** Sample documents *)

Module Samples.
Import PyStr Re Num Layout Extractor.
Open Scope Q_scope.

Definition span (s : string) (size : Q) (flags : Z) : Span :=
  mkSpan (str s) size (str "Helvetica") flags 0%Z.

(** A line made of one span. *)
Definition rline (s : string) (x0 y0 x1 y1 size : Q) (flags : Z) : RawLine :=
  mkRawLine (mkBBox x0 y0 x1 y1) [span s size flags].

Definition block_of (l : RawLine) : Block := mkBlock (rl_bbox l) (Some [l]).

(** An A4 page with one block per line. *)
Definition a4 (ls : list RawLine) : Page := mkPage 595 842 (map block_of ls).

Definition text_of_body : pystr :=
  str "the quick brown fox jumps over the lazy dog and keeps running far away.".

Definition body (y : Q) : RawLine :=
  rline "the quick brown fox jumps over the lazy dog and keeps running far away."
        72 y 500 (y + 10) 10 0.

(** Two 40pt lines in regular weight above 10pt body text, one line
    height apart. *)
Definition doc_large_regular : Doc :=
  [a4 [rline "Annual Performance" 72 100 400 140 40 0;
       rline "Review Summary" 72 180 400 220 40 0;
       body 300; body 315; body 330; body 345;
       body 360; body 375; body 390; body 405]].

(** One page whose header repeats the same text in three columns. *)
Definition doc_three_column_header : Doc :=
  [a4 [rline "Quarterly Results Brief" 50 10 150 20 9 0;
       rline "Quarterly Results Brief" 250 10 350 20 9 0;
       rline "Quarterly Results Brief" 450 10 550 20 9 0;
       body 300; body 315]].

(** A bold all-caps line of two words. *)
Definition doc_all_caps : Doc :=
  [a4 [rline "HELLO WORLD" 72 100 300 124 24 1]].

(** 151 pages, each with the same bold heading in mid-page. *)
Definition doc_repeated_heading : Doc :=
  repeat (a4 [rline "Overview" 72 400 200 420 12 1]) 151.

(** A line record, not yet scored, with the features of a plain word. *)
Definition plain_line (s : string) (size : Q) : Line :=
  {| text := str s; page := 1; font_size := size; font_name := str "Helvetica";
     is_bold := false; is_italic := false; bbox := mkBBox 72 100 300 112;
     color := 0; rel_font_size := 1; x_pos := 72; y_pos := 100;
     whitespace_above := 100; seq_idx := 0; word_count := 1;
     cap_ratio := cap_ratio_of (str s);
     ends_with_period := false; ends_with_colon := false;
     has_enum := false; has_cue := false;
     heading_score := None; whitespace_below := None |}.

(** "1. Introduction" indented at the top rank, "1.1 Background" at the
    next rank, over body text. *)
Definition doc_numbered : Doc :=
  [a4 [rline "1. Introduction" 200 100 500 124 24 1;
       rline "1.1 Background" 72 200 400 218 18 1;
       body 300; body 315; body 330; body 345]].

(** A heading record with the given text, font size and left edge. *)
Definition numbered_line (s : string) (size x : Q) : Line :=
  {| text := str s; page := 1; font_size := size; font_name := str "Helvetica";
     is_bold := true; is_italic := false; bbox := mkBBox x 100 (x + 200) 124;
     color := 0; rel_font_size := 2; x_pos := x; y_pos := 100;
     whitespace_above := 100; seq_idx := 0; word_count := 2;
     cap_ratio := cap_ratio_of (str s);
     ends_with_period := false; ends_with_colon := false;
     has_enum := true; has_cue := false;
     heading_score := Some 150; whitespace_below := None |}.

(** Two pages with the same header line at the top of each. *)
Definition doc_running_header : Doc :=
  [a4 [rline "Quarterly Results Brief" 50 10 150 20 9 0; body 300];
   a4 [rline "Quarterly Results Brief" 50 10 150 20 9 0; body 300]].

(** A line record for a sentence that ends with a period. *)
Definition sentence_line (s : string) (size : Q) : Line :=
  {| text := str s; page := 2; font_size := size; font_name := str "Helvetica";
     is_bold := false; is_italic := false; bbox := mkBBox 72 300 500 312;
     color := 0; rel_font_size := 1; x_pos := 72; y_pos := 300;
     whitespace_above := 2; seq_idx := 7;
     word_count := Z.of_nat (List.length (split (str s)));
     cap_ratio := cap_ratio_of (str s);
     ends_with_period := true; ends_with_colon := false;
     has_enum := false; has_cue := false;
     heading_score := None; whitespace_below := None |}.

(** [doc_numbered] with "1 Introduction" for "1. Introduction". *)
Definition doc_numbered_plain : Doc :=
  [a4 [rline "1 Introduction" 200 100 500 124 24 1;
       rline "1.1 Background" 72 200 400 218 18 1;
       body 300; body 315; body 330; body 345]].

(** [doc_large_regular] followed by a page whose layout call fails. *)
Definition doc_unreadable_page : Fitz.Document :=
  Fitz.of_doc doc_large_regular ++ [Fitz.mkPageObj 595 842 (Raise RuntimeError)].

(** A line of one span that has a text but no size. *)
Definition line_without_size (s : string) (x0 y0 x1 y1 : Q) : Fitz.LineDict :=
  Fitz.mkLineDict (Some (mkBBox x0 y0 x1 y1))
    (Some [Fitz.mkSpanDict (Some (str s)) None (Some (str "Helvetica"))
                           (Some 0%Z) (Some 0%Z)]).

(** The page of [doc_large_regular] with one more block, whose only line
    has a span without size. *)
Definition doc_span_without_size : Fitz.Document :=
  [Fitz.mkPageObj 595 842
     (Ok (map Fitz.of_block (flat_map p_blocks doc_large_regular)
          ++ [Fitz.mkBlockDict (Some (mkBBox 72 500 300 512))
                (Some [line_without_size "Closing remarks" 72 500 300 512])]))].

End Samples.

(** * Properties *)

Unset Implicit Arguments.

Import PyStr Re Num Layout Extractor.

(** Closed goals are decided by evaluation, one conjunct at a time. *)
Ltac crunch := vm_compute; reflexivity.
Ltac conj_crunch :=
  cbv zeta; repeat (match goal with |- _ /\ _ => split end); crunch.

(** ** Sorting *)

Section SortFacts.
Variable A : Type.
Variable le : A -> A -> bool.

Lemma insert_perm (x : A) (l : list A) :
  Permutation (PySort.insert le x l) (x :: l).
Proof.
  induction l as [|y l IH]; simpl.
  - apply Permutation_refl.
  - destruct (le x y).
    + apply Permutation_refl.
    + eapply Permutation_trans.
      * apply perm_skip, IH.
      * apply perm_swap.
Qed.

Lemma sorted_perm (l : list A) : Permutation (PySort.sorted le l) l.
Proof.
  induction l as [|x l IH]; simpl.
  - constructor.
  - eapply Permutation_trans; [apply insert_perm|].
    now apply perm_skip.
Qed.

Lemma sorted_length (l : list A) :
  List.length (PySort.sorted le l) = List.length l.
Proof. apply Permutation_length, sorted_perm. Qed.

Hypothesis le_total : forall a b, le a b = true \/ le b a = true.

Lemma insert_sorted (x : A) (l : list A) :
  Sorted (fun a b => le a b = true) l ->
  Sorted (fun a b => le a b = true) (PySort.insert le x l).
Proof.
  induction l as [|y l IH]; simpl; intros Hs.
  - repeat constructor.
  - destruct (le x y) eqn:Hxy.
    + constructor; [assumption|]. now constructor.
    + inversion Hs as [|? ? Hl Hhd]; subst.
      constructor; [now apply IH|].
      destruct l as [|z l]; simpl.
      * constructor. destruct (le_total x y); congruence.
      * destruct (le x z).
        -- constructor. destruct (le_total x y); congruence.
        -- inversion Hhd; subst. now constructor.
Qed.

Lemma sorted_Sorted (l : list A) :
  Sorted (fun a b => le a b = true) (PySort.sorted le l).
Proof.
  induction l as [|x l IH]; simpl.
  - constructor.
  - now apply insert_sorted.
Qed.

End SortFacts.

(** ** Comparisons on rationals *)

Lemma Qleb_true (a b : Q) : Qleb a b = true <-> (a <= b)%Q.
Proof. apply Qle_bool_iff. Qed.

Lemma Qltb_true (a b : Q) : Qltb a b = true <-> (a < b)%Q.
Proof.
  unfold Qltb. rewrite negb_true_iff.
  split; intros H.
  - apply Qnot_le_lt. intros Hle. apply Qle_bool_iff in Hle. congruence.
  - destruct (Qle_bool b a) eqn:E; [|reflexivity].
    apply Qle_bool_iff in E. exfalso. now apply (Qlt_not_le a b).
Qed.

Lemma Qeqb_true (a b : Q) : Qeqb a b = true <-> (a == b)%Q.
Proof. apply Qeq_bool_iff. Qed.

Lemma page_top_le_order (a b : Line) :
  page_top_le a b = true <-> page_top_order a b.
Proof.
  unfold page_top_le, page_top_order.
  rewrite orb_true_iff, andb_true_iff, Z.ltb_lt, Z.eqb_eq, Qleb_true.
  reflexivity.
Qed.

Lemma page_top_le_total (a b : Line) :
  page_top_le a b = true \/ page_top_le b a = true.
Proof.
  rewrite !page_top_le_order. unfold page_top_order.
  destruct (Z.lt_trichotomy (page a) (page b)) as [H|[H|H]]; auto.
  destruct (Qlt_le_dec (y0 (bbox b)) (y0 (bbox a))) as [Hlt|Hle].
  - right. right. split; [now symmetry|]. now apply Qlt_le_weak.
  - left. right. now split.
Qed.

Lemma page_top_order_trans (a b c : Line) :
  page_top_order a b -> page_top_order b c -> page_top_order a c.
Proof.
  unfold page_top_order.
  intros [H1|[H1 H1']] [H2|[H2 H2']].
  - left. lia.
  - left. lia.
  - left. lia.
  - right. split; [congruence|]. eapply Qle_trans; eassumption.
Qed.

Lemma Sorted_weaken (A : Type) (R1 R2 : A -> A -> Prop) (l : list A) :
  (forall a b, R1 a b -> R2 a b) -> Sorted R1 l -> Sorted R2 l.
Proof.
  intros Himp Hs. induction Hs as [|a l Hs IH Hhd].
  - constructor.
  - constructor; [assumption|].
    destruct Hhd; constructor. now apply Himp.
Qed.

Lemma merged_sorted_strongly (text_lines : list Line) :
  StronglySorted page_top_order (merged_sorted text_lines).
Proof.
  unfold merged_sorted.
  apply Sorted_StronglySorted.
  - intros a b c. apply page_top_order_trans.
  - apply Sorted_weaken with (R1 := fun a b => page_top_le a b = true).
    + intros a b. apply page_top_le_order.
    + apply sorted_Sorted. apply page_top_le_total.
Qed.

(** ** The pipeline: failure, ordering, state *)

Lemma outline_corresponds (st : State) (all : list Line)
      (fs : option FontStats) (hs : list Line) :
  Forall2 corresponds (map (outline_entry st all fs) hs) hs.
Proof.
  induction hs as [|h hs IH]; simpl; constructor.
  - split; reflexivity.
  - assumption.
Qed.

Lemma assemble_outline (st : State) (text_lines : list Line) :
  Forall2 corresponds (outline (assemble st text_lines))
          (merged_sorted text_lines).
Proof.
  destruct text_lines as [|l ls].
  - simpl. constructor.
  - unfold assemble. cbv zeta. cbn [outline]. apply outline_corresponds.
Qed.

Lemma process_pdf_outline (st : State) (opened : result Doc) :
  outline (fst (process_pdf st opened)) =
  outline (assemble (_pre_process_for_hf_detection (_reset_state st)
                       (match opened with Ok doc => doc | Raise _ => [] end))
                    (lines_of_run st opened)).
Proof.
  unfold process_pdf, try_body, lines_of_run.
  destruct opened as [doc|e]; [|reflexivity].
  destruct (extract_text_lines_with_features _ doc); reflexivity.
Qed.

(** C8. The outline entries are the projections, in order, of the merged
    headings of the run sorted by non-decreasing (page, top y). *)
Theorem C8_outline_sorted (st : State) (opened : result Doc) :
  exists merged : list Line,
    Permutation merged
      (merge_multiline_headings (select_headings (lines_of_run st opened))) /\
    StronglySorted page_top_order merged /\
    Forall2 corresponds (outline (fst (process_pdf st opened))) merged.
Proof.
  exists (merged_sorted (lines_of_run st opened)).
  split; [apply sorted_perm|].
  split; [apply merged_sorted_strongly|].
  rewrite process_pdf_outline. apply assemble_outline.
Qed.

(** C9. The result of [process_pdf] does not depend on the state the
    extractor is in when the run starts: after any batch of earlier
    documents the result is the one a fresh extractor gives. *)
Theorem C9_runs_are_independent (st : State) (prior : list (result Doc))
        (opened : result Doc) :
  (forall st' : State, process_pdf st opened = process_pdf st' opened) /\
  fst (process_pdf (snd (process_all st prior)) opened)
  = fst (process_pdf initial_state opened).
Proof.
  split; [intros st'|]; reflexivity.
Qed.

(** The first pass adds to the state it is given: without the reset the
    census of a document would depend on the documents before it. *)
Remark census_depends_on_incoming_state :
  let used := snd (process_pdf initial_state
                     (Ok Samples.doc_three_column_header)) in
  _hf_candidates
    (_pre_process_for_hf_detection used Samples.doc_three_column_header)
  <> _hf_candidates
       (_pre_process_for_hf_detection initial_state
          Samples.doc_three_column_header).
Proof.
  cbv zeta. vm_compute. discriminate.
Qed.

(** ** Layout data with every key *)

Lemma mapM_map_ok (A B C : Type) (f : B -> result C) (h : A -> B) (g : A -> C)
      (l : list A) :
  (forall a, f (h a) = Ok (g a)) -> mapM f (map h l) = Ok (map g l).
Proof.
  intros Hf. induction l as [|a l IH]; simpl; [reflexivity|].
  now rewrite Hf, IH.
Qed.

Lemma foldM_map (A B C : Type) (f : A -> C -> result A) (g : A -> B -> result A)
      (h : B -> C) (l : list B) :
  (forall a b, f a (h b) = g a b) ->
  forall a, foldM f (map h l) a = foldM g l a.
Proof.
  intros Hf. induction l as [|b l IH]; simpl; intros a; [reflexivity|].
  rewrite Hf. destruct (g a b); simpl; [apply IH|reflexivity].
Qed.

Lemma for_each_map_ok (S A B : Type) (body : S -> B -> result unit * S)
      (f : S -> A -> S) (h : A -> B) (l : list A) :
  (forall s a, body s (h a) = (Ok tt, f s a)) ->
  forall s, Fitz.for_each body (map h l) s = (Ok tt, fold_left f l s).
Proof.
  intros Hb. induction l as [|a l IH]; simpl; intros s; [reflexivity|].
  rewrite Hb. apply IH.
Qed.

Lemma insert_map (A B : Type) (le : A -> A -> bool) (le' : B -> B -> bool)
      (p : A -> B) (x : A) (l : list A) :
  (forall a b, le' (p a) (p b) = le a b) ->
  PySort.insert le' (p x) (map p l) = map p (PySort.insert le x l).
Proof.
  intros Hp. induction l as [|y l IH]; simpl; [reflexivity|].
  rewrite Hp. destruct (le x y); simpl; [reflexivity|]. now rewrite IH.
Qed.

Lemma sorted_map (A B : Type) (le : A -> A -> bool) (le' : B -> B -> bool)
      (p : A -> B) (l : list A) :
  (forall a b, le' (p a) (p b) = le a b) ->
  PySort.sorted le' (map p l) = map p (PySort.sorted le l).
Proof.
  intros Hp. induction l as [|x l IH]; simpl; [reflexivity|].
  rewrite IH. now apply insert_map.
Qed.

Lemma combine_map_map (A B C : Type) (f : A -> B) (g : A -> C) (l : list A) :
  combine (map f l) (map g l) = map (fun a => (f a, g a)) l.
Proof.
  induction l as [|a l IH]; simpl; [reflexivity|]. now rewrite IH.
Qed.

(** Sorting dictionaries that all have a bounding box is sorting by it. *)
Lemma sorted_by_bbox_map (A B : Type) (h : A -> B) (key : A -> BBox)
      (bbox_of : B -> option BBox) (l : list A) :
  (forall a, bbox_of (h a) = Some (key a)) ->
  Fitz.sorted_by_bbox bbox_of (map h l)
  = Ok (map h (PySort.sorted (fun a b => bbox_le (key a) (key b)) l)).
Proof.
  intros Hk. unfold Fitz.sorted_by_bbox.
  rewrite (mapM_map_ok _ _ _ (fun d => Fitz.item "bbox" (bbox_of d)) h key).
  - simpl. rewrite combine_map_map.
    rewrite (sorted_map _ _ (fun a b => bbox_le (key a) (key b))
                        (fun a b : BBox * B => bbox_le (fst a) (fst b))
                        (fun a => (key a, h a))).
    + now rewrite map_map.
    + reflexivity.
  - intros a. now rewrite Hk.
Qed.

Lemma line_text_of_line (l : RawLine) :
  Fitz.line_text_of (Fitz.of_line l) = Ok (line_text_of l).
Proof.
  unfold Fitz.line_text_of, line_text_of. simpl.
  rewrite (mapM_map_ok _ _ _ _ Fitz.of_span span_text); reflexivity.
Qed.

Lemma hf_scan_line_of_line (pn pts : Z) (ph : Q) (hf : list (HFKey * Z))
      (l : RawLine) :
  Fitz.hf_scan_line pn pts ph hf (Fitz.of_line l)
  = (Ok tt, hf_scan_line pn pts ph hf l).
Proof.
  unfold Fitz.hf_scan_line, hf_scan_line. rewrite line_text_of_line.
  destruct (is_empty (line_text_of l)); [reflexivity|].
  cbn [Fitz.item Fitz.ln_bbox Fitz.of_line]. cbv zeta.
  repeat match goal with
         | |- context [if ?c then _ else _] => destruct c
         end; reflexivity.
Qed.

Lemma hf_scan_block_of_block (pn pts : Z) (ph : Q) (hf : list (HFKey * Z))
      (b : Block) :
  Fitz.hf_scan_block pn pts ph hf (Fitz.of_block b)
  = (Ok tt, hf_scan_block pn pts ph hf b).
Proof.
  unfold Fitz.hf_scan_block, hf_scan_block. simpl.
  destruct (b_lines b) as [ls|]; simpl; [|reflexivity].
  apply for_each_map_ok. intros s a. apply hf_scan_line_of_line.
Qed.

Lemma hf_scan_page_of_page (pts : Z) (st : State) (pn : Z) (p : Page) :
  Fitz.hf_scan_page pts st (pn, Fitz.of_page p)
  = (Ok tt, hf_scan_page pts st (pn, p)).
Proof.
  unfold Fitz.hf_scan_page, hf_scan_page.
  cbn [Fitz.get_text Fitz.of_page Fitz.rect_width Fitz.rect_height].
  rewrite (for_each_map_ok _ _ _ _ (hf_scan_block pn pts (p_height p))).
  - reflexivity.
  - intros s a. apply hf_scan_block_of_block.
Qed.

Lemma first_pass_pages_of_doc (pts : Z) (doc : Doc) :
  forall (i : Z) (st : State),
    Fitz.for_each (Fitz.hf_scan_page pts)
                  (enumerate_from i (Fitz.of_doc doc)) st
    = (Ok tt, fold_left (hf_scan_page pts) (enumerate_from i doc) st).
Proof.
  induction doc as [|p doc IH]; intros i st; [reflexivity|].
  cbn [Fitz.of_doc map enumerate_from Fitz.for_each fold_left].
  rewrite hf_scan_page_of_page. apply IH.
Qed.

(** On a document with every key the first pass returns, with the state of
    [Extractor]. *)
Lemma first_pass_of_doc (st : State) (doc : Doc) :
  Fitz._pre_process_for_hf_detection st (Fitz.of_doc doc)
  = (Ok tt, _pre_process_for_hf_detection st doc).
Proof.
  unfold Fitz._pre_process_for_hf_detection, _pre_process_for_hf_detection.
  cbv zeta.
  assert (E : List.length (Fitz.of_doc doc) = List.length doc)
    by apply length_map.
  rewrite E. apply first_pass_pages_of_doc.
Qed.

Lemma span_sizes_of_spans (spans : list Span) :
  forall sizes,
    foldM Fitz.span_sizes (map Fitz.of_span spans) sizes
    = Ok (sizes ++ filter (fun sz => Qgtb sz 0) (map span_size spans)).
Proof.
  induction spans as [|s spans IH]; simpl; intros sizes.
  - now rewrite app_nil_r.
  - unfold Fitz.span_sizes at 1. simpl.
    destruct (Qgtb (span_size s) 0); rewrite IH; [|reflexivity].
    now rewrite <- app_assoc.
Qed.

Lemma foldM_flat_map (A B : Type) (f : list Q -> B -> result (list Q))
      (g : A -> list Q) (h : A -> B) (l : list A) :
  (forall sizes a, f sizes (h a) = Ok (sizes ++ g a)) ->
  forall sizes, foldM f (map h l) sizes = Ok (sizes ++ flat_map g l).
Proof.
  intros Hf. induction l as [|a l IH]; simpl; intros sizes.
  - now rewrite app_nil_r.
  - rewrite Hf. simpl. rewrite IH. now rewrite <- app_assoc.
Qed.

Lemma all_doc_font_sizes_of_doc (doc : Doc) :
  Fitz.all_doc_font_sizes (Fitz.of_doc doc) = Ok (all_doc_font_sizes doc).
Proof.
  unfold Fitz.all_doc_font_sizes, all_doc_font_sizes, Fitz.of_doc.
  rewrite (foldM_flat_map _ _ Fitz.page_sizes
             (fun p =>
                flat_map
                  (fun b =>
                     flat_map
                       (fun l =>
                          filter (fun sz => Qgtb sz 0)
                                 (map span_size (rl_spans l)))
                       (get (b_lines b) []))
                  (p_blocks p))
             Fitz.of_page); [reflexivity|].
  intros sizes p. unfold Fitz.page_sizes. simpl.
  apply foldM_flat_map. intros sizes1 b. unfold Fitz.block_sizes. simpl.
  destruct (b_lines b) as [ls|]; simpl; [|now rewrite app_nil_r].
  apply foldM_flat_map. intros sizes2 l. unfold Fitz.line_sizes. simpl.
  apply span_sizes_of_spans.
Qed.

Lemma extract_line_of_line (st : State) (avg : Q) (pn : Z) (acc : Extraction)
      (l : RawLine) :
  Fitz.extract_line st avg pn acc (Fitz.of_line l)
  = extract_line st avg pn acc l.
Proof.
  unfold Fitz.extract_line, extract_line. rewrite line_text_of_line.
  cbn [bind]. destruct (is_empty (line_text_of l)); [reflexivity|].
  cbn [Fitz.item Fitz.ln_bbox Fitz.ln_spans Fitz.of_line bind].
  destruct (_is_redundant_line _ _ _ _ _); [reflexivity|].
  destruct (rl_spans l) as [|s spans]; reflexivity.
Qed.

Lemma extract_block_of_block (st : State) (avg : Q) (pn : Z)
      (acc : Extraction) (b : Block) :
  Fitz.extract_block st avg pn acc (Fitz.of_block b)
  = extract_block st avg pn acc b.
Proof.
  unfold Fitz.extract_block, extract_block. simpl.
  destruct (b_lines b) as [ls|]; simpl; [|reflexivity].
  rewrite (sorted_by_bbox_map _ _ Fitz.of_line rl_bbox); [|reflexivity].
  simpl. apply foldM_map. intros a l. apply extract_line_of_line.
Qed.

Lemma extract_page_of_page (st : State) (avg : Q) (acc : Extraction)
      (pn : Z) (p : Page) :
  Fitz.extract_page st avg acc (pn, Fitz.of_page p)
  = extract_page st avg acc (pn, p).
Proof.
  unfold Fitz.extract_page, extract_page. simpl.
  rewrite (sorted_by_bbox_map _ _ Fitz.of_block b_bbox); [|reflexivity].
  simpl. apply foldM_map. intros a b. apply extract_block_of_block.
Qed.

Lemma second_pass_pages_of_doc (st : State) (avg : Q) (doc : Doc) :
  forall (i : Z) (acc : Extraction),
    foldM (Fitz.extract_page st avg) (enumerate_from i (Fitz.of_doc doc)) acc
    = foldM (extract_page st avg) (enumerate_from i doc) acc.
Proof.
  induction doc as [|p doc IH]; intros i acc; [reflexivity|].
  cbn [Fitz.of_doc map enumerate_from foldM].
  rewrite extract_page_of_page.
  destruct (extract_page st avg acc (i, p)); simpl; [apply IH|reflexivity].
Qed.

(** On a document with every key the second pass is that of [Extractor]. *)
Lemma second_pass_of_doc (st : State) (doc : Doc) :
  Fitz.extract_text_lines_with_features st (Fitz.of_doc doc)
  = extract_text_lines_with_features st doc.
Proof.
  unfold Fitz.extract_text_lines_with_features,
    extract_text_lines_with_features.
  rewrite all_doc_font_sizes_of_doc. cbn [bind]. cbv zeta.
  unfold avg_doc_font_size_of.
  rewrite second_pass_pages_of_doc.
  destruct (all_doc_font_sizes doc); reflexivity.
Qed.

(** The run on a document with every key is the run of [Extractor]. *)
Lemma process_pdf_of_doc (st : State) (doc : Doc) :
  Fitz.process_pdf st (Ok (Fitz.of_doc doc)) = process_pdf st (Ok doc).
Proof.
  unfold Fitz.process_pdf, process_pdf, Fitz.try_body, try_body. cbv zeta.
  rewrite first_pass_of_doc, second_pass_of_doc. reflexivity.
Qed.

(** ** Where the passes raise *)

Lemma for_each_raises (S B : Type) (body : S -> B -> result unit * S)
      (b : B) (l : list B) :
  In b l ->
  (forall s, exists e s', body s b = (Raise e, s')) ->
  forall s, exists e s', Fitz.for_each body l s = (Raise e, s').
Proof.
  intros Hin Hb. induction l as [|a l IH]; [contradiction|].
  intros s. simpl.
  destruct Hin as [->|Hin].
  - destruct (Hb s) as [e [s' E]]. rewrite E. now exists e, s'.
  - destruct (body s a) as [[[]|e] s'].
    + now apply IH.
    + now exists e, s'.
Qed.

Lemma foldM_raises (A B : Type) (f : A -> B -> result A) (b : B)
      (l : list B) :
  In b l ->
  (forall a, exists e, f a b = Raise e) ->
  forall a, exists e, foldM f l a = Raise e.
Proof.
  intros Hin Hb. induction l as [|x l IH]; [contradiction|].
  intros a. simpl.
  destruct Hin as [->|Hin].
  - destruct (Hb a) as [e E]. rewrite E. now exists e.
  - destruct (f a x) as [a'|e]; simpl.
    + now apply IH.
    + now exists e.
Qed.

Lemma in_enumerate_from (A : Type) (a : A) (l : list A) :
  In a l -> forall i, exists j, In (j, a) (enumerate_from i l).
Proof.
  induction l as [|x l IH]; [contradiction|].
  intros [->|Hin] i; simpl.
  - exists i. now left.
  - destruct (IH Hin (i + 1)%Z) as [j Hj]. exists j. now right.
Qed.

(** A page whose layout call raises stops the first pass, whatever the
    other pages hold. *)
Lemma unreadable_page_stops_first_pass (st : State) (doc : Fitz.Document)
      (p : Fitz.PageObj) (e : exn) :
  In p doc -> Fitz.get_text p = Raise e ->
  exists e' st1,
    Fitz._pre_process_for_hf_detection st doc = (Raise e', st1).
Proof.
  intros Hin He. unfold Fitz._pre_process_for_hf_detection. cbv zeta.
  destruct (in_enumerate_from _ p doc Hin 0%Z) as [j Hj].
  apply (for_each_raises _ _ _ (j, p)); [assumption|].
  intros s. unfold Fitz.hf_scan_page. rewrite He. now eexists _, _.
Qed.

(** A span without the key ["size"], in any line of any block, stops the
    second pass: the mean font size is taken over every span of the
    document before a line is looked at. *)
Lemma span_without_size_stops_second_pass
      (st : State) (doc : Fitz.Document) (p : Fitz.PageObj)
      (b : Fitz.BlockDict) (l : Fitz.LineDict) (s : Fitz.SpanDict)
      (blocks : list Fitz.BlockDict) (ls : list Fitz.LineDict)
      (spans : list Fitz.SpanDict) :
  In p doc -> Fitz.get_text p = Ok blocks ->
  In b blocks -> Fitz.blk_lines b = Some ls ->
  In l ls -> Fitz.ln_spans l = Some spans ->
  In s spans -> Fitz.sp_size s = None ->
  exists e, Fitz.extract_text_lines_with_features st doc = Raise e.
Proof.
  intros Hp Hblocks Hb Hls Hl Hspans Hs Hsize.
  unfold Fitz.extract_text_lines_with_features.
  destruct (foldM_raises _ _ Fitz.page_sizes p doc Hp) with (a := @nil Q)
    as [e E].
  - intros a. unfold Fitz.page_sizes. rewrite Hblocks. simpl.
    apply (foldM_raises _ _ _ b); [assumption|].
    intros a1. unfold Fitz.block_sizes. rewrite Hls. simpl.
    apply (foldM_raises _ _ _ l); [assumption|].
    intros a2. unfold Fitz.line_sizes. rewrite Hspans. simpl.
    apply (foldM_raises _ _ _ s); [assumption|].
    intros a3. unfold Fitz.span_sizes. rewrite Hsize. simpl. now eexists.
  - unfold Fitz.all_doc_font_sizes. rewrite E. simpl. now exists e.
Qed.

(** C7. Whichever stage of a run raises -- [fitz.open], the first pass or
    the second -- [process_pdf] returns exactly the placeholder
    [{title: "Document", outline: []}]; in particular it does so when the
    layout call fails on any one page, whatever the pages before it hold.
    What a run returns is always either that placeholder or the title and
    outline made from all the lines of a run in which every stage
    returned. *)
Theorem C7_failure_yields_placeholder
        (st : State) (opened : result Fitz.Document) :
  (forall e : exn,
      Fitz.stage_raises (_reset_state st) opened e ->
      fst (Fitz.process_pdf st opened) = mkResult (str "Document") []) /\
  (forall (doc : Fitz.Document) (p : Fitz.PageObj) (e : exn),
      opened = Ok doc -> In p doc -> Fitz.get_text p = Raise e ->
      fst (Fitz.process_pdf st opened) = mkResult (str "Document") []) /\
  (fst (Fitz.process_pdf st opened) = mkResult (str "Document") [] \/
   Fitz.complete_run (_reset_state st) opened
                     (fst (Fitz.process_pdf st opened))).
Proof.
  assert (Hstage :
    forall e : exn,
      Fitz.stage_raises (_reset_state st) opened e ->
      fst (Fitz.process_pdf st opened) = mkResult (str "Document") []).
  { intros e H. unfold Fitz.process_pdf, Fitz.try_body. cbv zeta.
    inversion H as [e0 E0|doc e0 st1 H1 E0|doc e0 st1 H1 H2 E0]; subst.
    - reflexivity.
    - now rewrite H1.
    - now rewrite H1, H2. }
  split; [exact Hstage|]. split.
  - intros doc p e -> Hin He.
    destruct (unreadable_page_stops_first_pass (_reset_state st) doc p e
                Hin He) as [e' [st1 H1]].
    apply (Hstage e'). now apply Fitz.first_pass_raises with (st1 := st1).
  - unfold Fitz.process_pdf, Fitz.try_body, Fitz.complete_run. cbv zeta.
    destruct opened as [doc|e]; [|now left].
    destruct (Fitz._pre_process_for_hf_detection (_reset_state st) doc)
      as [[[]|e] st1] eqn:E1; [|now left].
    destruct (Fitz.extract_text_lines_with_features st1 doc)
      as [text_lines|e] eqn:E2; [|now left].
    right. now exists doc, st1, text_lines.
Qed.

Lemma C7_failure_yields_placeholder_witness :
  fst (Fitz.process_pdf initial_state (Raise FileDataError))
  = mkResult (str "Document") [] /\
  fst (Fitz.process_pdf initial_state (Ok Samples.doc_unreadable_page))
  = mkResult (str "Document") [] /\
  fst (Fitz.process_pdf initial_state (Ok Samples.doc_span_without_size))
  = mkResult (str "Document") [].
Proof.
  split; [|split].
  - apply (proj1 (C7_failure_yields_placeholder initial_state
                    (Raise FileDataError)) FileDataError).
    constructor.
  - apply (proj1 (C7_failure_yields_placeholder initial_state
                    (Ok Samples.doc_unreadable_page)) RuntimeError).
    apply Fitz.first_pass_raises with
      (st1 := snd (Fitz._pre_process_for_hf_detection
                     (_reset_state initial_state) Samples.doc_unreadable_page)).
    vm_compute. reflexivity.
  - apply (proj1 (C7_failure_yields_placeholder initial_state
                    (Ok Samples.doc_span_without_size)) (KeyError "size")).
    apply Fitz.second_pass_raises with
      (st1 := snd (Fitz._pre_process_for_hf_detection
                     (_reset_state initial_state) Samples.doc_span_without_size)).
    + vm_compute. reflexivity.
    + vm_compute. reflexivity.
Defined.

(** The pages that load do carry headings: without the page that fails,
    and with a size on every span, the same lines give an outline. *)
Remark readable_part_has_headings :
  List.length
    (outline (fst (Fitz.process_pdf initial_state
                     (Ok (Fitz.of_doc Samples.doc_large_regular))))) = 2%nat.
Proof. vm_compute. reflexivity. Qed.

(** ** Scoring *)

Lemma Qgtb_plus_0 (a b : Q) : Qgtb (a + 0) b = Qgtb a b.
Proof.
  unfold Qgtb. f_equal.
  destruct (Qle_bool a b) eqn:E.
  - apply Qle_bool_iff. apply Qle_bool_iff in E.
    now rewrite Qplus_0_r.
  - destruct (Qle_bool (a + 0) b) eqn:E'; [|reflexivity].
    apply Qle_bool_iff in E'. rewrite Qplus_0_r in E'.
    apply Qle_bool_iff in E'. congruence.
Qed.

Lemma whitespace_tier_plus_0 (a body_size : Q) :
  whitespace_tier (a + 0) body_size = whitespace_tier a body_size.
Proof. unfold whitespace_tier. now rewrite !Qgtb_plus_0. Qed.

Lemma above_only_intro (l : Line) : whitespace_below l = None -> above_only l.
Proof.
  intros H. split; [assumption|]. intros b.
  unfold score_whitespace, combined_whitespace. rewrite H. simpl.
  apply whitespace_tier_plus_0.
Qed.

Lemma foldM_inv (A B : Type) (f : A -> B -> result A) (I : A -> Prop) :
  (forall a b a', I a -> f a b = Ok a' -> I a') ->
  forall l a a', I a -> foldM f l a = Ok a' -> I a'.
Proof.
  intros Hstep l. induction l as [|b l IH]; simpl; intros a a' Ha H.
  - now inversion H; subst.
  - destruct (f a b) as [a1|e] eqn:E; simpl in H; [|discriminate].
    eapply IH; [|eassumption]. eapply Hstep; eassumption.
Qed.

Lemma extract_line_inv (P : Line -> Prop) (st : State) (avg : Q) (pn : Z)
      (acc acc' : Extraction) (l : RawLine) :
  (forall x, extracted_shape x -> P x) ->
  Forall P (text_lines_data acc) ->
  extract_line st avg pn acc l = Ok acc' ->
  Forall P (text_lines_data acc').
Proof.
  intros HP Hacc. unfold extract_line.
  destruct (is_empty (line_text_of l)).
  - intros H; inversion H; subst; assumption.
  - destruct (_is_redundant_line _ _ _ _ _).
    + intros H; inversion H; subst; assumption.
    + match goal with
      | |- context [calculate_heading_score ?s ?c ?a] =>
          destruct (calculate_heading_score s c a) as [sc|e]
      end; simpl; intros H; [|discriminate].
      inversion H; subst; simpl.
      apply Forall_app. split; [assumption|].
      constructor; [|constructor]. apply HP. split; reflexivity.
Qed.

Lemma extract_inv (P : Line -> Prop) (st : State) (doc : Doc)
      (lines : list Line) :
  (forall x, extracted_shape x -> P x) ->
  extract_text_lines_with_features st doc = Ok lines ->
  Forall P lines.
Proof.
  intros HP. unfold extract_text_lines_with_features.
  destruct (foldM _ _ _) as [acc|e] eqn:E; simpl; intros H; [|discriminate].
  inversion H; subst; clear H.
  revert E.
  apply foldM_inv with (I := fun a => Forall P (text_lines_data a));
    [|constructor].
  intros a [pn pg] a' Ha. unfold extract_page.
  apply foldM_inv with (I := fun a => Forall P (text_lines_data a));
    [|assumption].
  intros a1 b a1' Ha1. unfold extract_block.
  destruct (b_lines b) as [ls|].
  - apply foldM_inv with (I := fun a => Forall P (text_lines_data a));
      [|assumption].
    intros a2 l a2' Ha2. now apply extract_line_inv.
  - intros H; inversion H; subst; assumption.
Qed.

Lemma Forall_sorted (A : Type) (P : A -> Prop) (le : A -> A -> bool)
      (l : list A) :
  Forall P l -> Forall P (PySort.sorted le l).
Proof.
  apply Permutation_Forall, Permutation_sym, sorted_perm.
Qed.

Lemma Forall_filter (A : Type) (P : A -> Prop) (f : A -> bool) (l : list A) :
  Forall P l -> Forall P (filter f l).
Proof.
  induction 1 as [|x l Hx Hl IH]; simpl; [constructor|].
  destruct (f x); [constructor|]; assumption.
Qed.

Lemma select_loop_Forall (P : Line -> Prop) (cap : nat) (cands : list Line) :
  forall final seen lb lp,
    Forall P cands -> Forall P final ->
    Forall P (select_loop cap cands final seen lb lp).
Proof.
  induction cands as [|c cands IH]; simpl; intros final seen lb lp Hc Hf.
  - assumption.
  - inversion Hc as [|? ? Hc1 Hc2]; subst.
    assert (Hf' : Forall P (final ++ [c])).
    { apply Forall_app. split; [assumption|]. now constructor. }
    destruct (_ || _); [now apply IH|].
    destruct (close_duplicate _ _ _ _); [now apply IH|].
    destruct (_ <=? _)%nat; [assumption|now apply IH].
Qed.

Lemma select_headings_Forall (P : Line -> Prop) (text_lines : list Line) :
  Forall P text_lines -> Forall P (select_headings text_lines).
Proof.
  intros H. unfold select_headings.
  apply select_loop_Forall; [|constructor].
  apply Forall_sorted. unfold heading_candidates_of.
  apply Forall_sorted. now apply Forall_filter.
Qed.

Lemma merge_fold_Forall (P : Line -> Prop) :
  (forall a b, P a -> P (merged_with a b)) ->
  forall others emitted cur,
    Forall P others -> Forall P emitted -> P cur ->
    Forall P (fst (fold_left merge_step others (emitted, cur))) /\
    P (snd (fold_left merge_step others (emitted, cur))).
Proof.
  intros Hm others.
  induction others as [|n others IH]; simpl; intros emitted cur Ho He Hc.
  - now split.
  - inversion Ho as [|? ? Hn Ho']; subst.
    assert (He' : Forall P (emitted ++ [cur])).
    { apply Forall_app. split; [assumption|]. now constructor. }
    destruct (earlier_break cur n); [now apply IH|].
    destruct (break_not_bold cur n); [now apply IH|].
    apply IH; auto.
Qed.

Lemma merge_Forall (P : Line -> Prop) (hs : list Line) :
  (forall a b, P a -> P (merged_with a b)) ->
  Forall P hs -> Forall P (merge_multiline_headings hs).
Proof.
  intros Hm H. unfold merge_multiline_headings.
  pose proof (Forall_sorted _ P page_top_le hs H) as Hs.
  destruct (PySort.sorted page_top_le hs) as [|first others]; [constructor|].
  inversion Hs as [|? ? Hf Ho]; subst.
  destruct (merge_fold_Forall P Hm others [] first Ho (Forall_nil _) Hf)
    as [H1 H2].
  destruct (fold_left merge_step others ([], first)) as [emitted cur].
  simpl in *. apply Forall_app. split; [assumption|]. now constructor.
Qed.

(** C10. Every line record produced by the feature extraction, and every
    heading that selection and merging make of them, carries no
    whitespace-below value, so the whitespace step of the scorer is the
    tier of [whitespace_above] alone. *)
Theorem C10_whitespace_above_only (st : State) (doc : Doc)
        (lines : list Line) :
  extract_text_lines_with_features st doc = Ok lines ->
  Forall above_only lines /\
  Forall above_only (merge_multiline_headings (select_headings lines)).
Proof.
  intros H.
  assert (Hn : Forall (fun l => whitespace_below l = None) lines).
  { eapply extract_inv; [|eassumption]. now intros x [Hx _]. }
  split.
  - eapply Forall_impl; [|exact Hn]. apply above_only_intro.
  - eapply Forall_impl; [apply above_only_intro|].
    apply merge_Forall; [intros a b Ha; exact Ha|].
    now apply select_headings_Forall.
Qed.

Lemma C10_whitespace_above_only_witness :
  exists lines,
    extract_text_lines_with_features initial_state Samples.doc_all_caps
    = Ok lines /\
    Forall above_only lines /\
    Forall above_only (merge_multiline_headings (select_headings lines)).
Proof.
  eexists. split.
  - vm_compute. reflexivity.
  - apply (C10_whitespace_above_only initial_state Samples.doc_all_caps).
    vm_compute. reflexivity.
Defined.

(** ** The scorer is partial *)


Lemma calculate_heading_score_returns (st : State) (l : Line) (avg : Q) :
  (0 < avg)%Q -> exists score, calculate_heading_score st l avg = Ok score.
Proof.
  intros Havg. unfold calculate_heading_score, size_ratio_of.
  destruct (is_empty (text l)); [now eexists|].
  assert (E : Qgtb avg 0 = true).
  { unfold Qgtb. apply negb_true_iff.
    destruct (Qle_bool avg 0) eqn:E; [|reflexivity].
    apply Qle_bool_iff in E. exfalso. now apply (Qlt_not_le 0 avg). }
  rewrite E. simpl. now eexists.
Qed.


(** ** The mean font size the pipeline passes to the scorer *)

Lemma Qgtb_true (a b : Q) : Qgtb a b = true <-> (b < a)%Q.
Proof. apply (Qltb_true b a). Qed.

Lemma Qsum_from_pos (l : list Q) :
  forall a, (0 < a)%Q -> Forall (fun x => (0 < x)%Q) l ->
            (0 < fold_left Qplus l a)%Q.
Proof.
  induction l as [|x l IH]; simpl; intros a Ha Hl; [assumption|].
  inversion Hl; subst. apply IH; [|assumption].
  apply Qlt_trans with (y := a); [assumption|].
  rewrite <- (Qplus_0_r a) at 1. now apply Qplus_lt_r.
Qed.

Lemma mean_pos (l : list Q) :
  l <> [] -> Forall (fun x => (0 < x)%Q) l -> (0 < mean l)%Q.
Proof.
  intros Hne Hl. unfold mean. rewrite Qred_correct. unfold Qsum.
  destruct l as [|x l]; [congruence|]. inversion Hl; subst.
  apply Qlt_shift_div_l.
  - unfold ofnat. change 0%Q with (inject_Z 0). rewrite <- Zlt_Qlt.
    simpl. lia.
  - rewrite Qmult_0_l. simpl. apply Qsum_from_pos; [|assumption].
    now rewrite Qplus_0_l.
Qed.

Lemma all_doc_font_sizes_pos (doc : Doc) :
  Forall (fun x => (0 < x)%Q) (all_doc_font_sizes doc).
Proof.
  unfold all_doc_font_sizes.
  apply Forall_flat_map, Forall_forall. intros p _.
  apply Forall_flat_map, Forall_forall. intros b _.
  apply Forall_flat_map, Forall_forall. intros l _.
  apply Forall_forall. intros x Hx.
  apply filter_In in Hx. destruct Hx as [_ Hx]. now apply Qgtb_true.
Qed.

Lemma avg_doc_font_size_pos (doc : Doc) : (0 < avg_doc_font_size_of doc)%Q.
Proof.
  unfold avg_doc_font_size_of.
  pose proof (all_doc_font_sizes_pos doc) as H.
  destruct (all_doc_font_sizes doc) as [|x l] eqn:E; [reflexivity|].
  apply mean_pos; [discriminate|assumption].
Qed.

Lemma foldM_returns (A B : Type) (f : A -> B -> result A) :
  (forall a b, exists a', f a b = Ok a') ->
  forall l a, exists a', foldM f l a = Ok a'.
Proof.
  intros Hf l. induction l as [|b l IH]; simpl; intros a.
  - now exists a.
  - destruct (Hf a b) as [a1 E]. rewrite E. simpl. apply IH.
Qed.

(** With the mean the pipeline computes, the feature extraction, and the
    scoring it calls, always return. *)
Lemma extract_returns (st : State) (doc : Doc) :
  exists lines, extract_text_lines_with_features st doc = Ok lines.
Proof.
  unfold extract_text_lines_with_features.
  pose proof (avg_doc_font_size_pos doc) as Hpos.
  destruct (foldM_returns _ _
              (extract_page st (avg_doc_font_size_of doc))) with
    (l := enumerate_from 0%Z doc) (a := mkExtraction [] 0%Z []) as [acc E].
  - intros a [pn pg]. unfold extract_page. apply foldM_returns.
    intros a1 b. unfold extract_block.
    destruct (b_lines b) as [ls|]; [|now eexists].
    apply foldM_returns. intros a2 l. unfold extract_line.
    destruct (is_empty (line_text_of l)); [now eexists|].
    destruct (_is_redundant_line _ _ _ _ _); [now eexists|].
    match goal with
    | |- context [calculate_heading_score ?s ?c ?a] =>
        destruct (calculate_heading_score_returns s c a Hpos) as [sc Hsc];
        rewrite Hsc
    end.
    simpl. now eexists.
  - rewrite E. simpl. now eexists.
Qed.

(** Once the document is open, a run does not end in the exception path. *)
Lemma opened_run_is_assembled (st : State) (doc : Doc) :
  exists lines,
    extract_text_lines_with_features
      (_pre_process_for_hf_detection (_reset_state st) doc) doc = Ok lines /\
    fst (process_pdf st (Ok doc))
    = assemble (_pre_process_for_hf_detection (_reset_state st) doc) lines.
Proof.
  destruct (extract_returns
              (_pre_process_for_hf_detection (_reset_state st) doc) doc)
    as [lines E].
  exists lines. split; [assumption|].
  unfold process_pdf, try_body. rewrite E. reflexivity.
Qed.



(** ** Capitalisation *)

(** The capital ratio of a text that is not made of capitals only. *)

Lemma count_upper_le (t : pystr) : (count_upper t <= List.length t)%nat.
Proof. unfold count_upper. apply filter_length_le. Qed.

Lemma count_upper_lt (t : pystr) (c : ascii) :
  In c t -> is_upper c = false -> (count_upper t < List.length t)%nat.
Proof.
  unfold count_upper. induction t as [|x t IH]; simpl; intros Hin Hc.
  - contradiction.
  - destruct Hin as [->|Hin].
    + rewrite Hc. pose proof (filter_length_le is_upper t). lia.
    + specialize (IH Hin Hc). destruct (is_upper x); simpl; lia.
Qed.

Lemma round_half_even_below (u L : Z) :
  (0 <= u < L)%Z -> (L < 200)%Z ->
  (round_half_even (inject_Z u / inject_Z L * 100) < 100)%Z.
Proof.
  intros Hu HL.
  destruct L as [|p|p]; try lia.
  unfold round_half_even, Qdiv, Qinv, Qmult, inject_Z. simpl Qnum. simpl Qden.
  rewrite ?Pos.mul_1_l, ?Pos.mul_1_r, ?Z.mul_1_r.
  replace (u * 100)%Z with (100 * u)%Z by lia.
  pose proof (Z.div_mod (100 * u) (Z.pos p) ltac:(lia)) as Hdm.
  pose proof (Z.mod_pos_bound (100 * u) (Z.pos p) ltac:(lia)) as Hr.
  set (f := (100 * u / Z.pos p)%Z) in *.
  set (r := ((100 * u) mod Z.pos p)%Z) in *.
  assert (Hf : (f <= 99)%Z) by nia.
  destruct (2 * r ?= Z.pos p)%Z eqn:C.
  - apply Z.compare_eq in C. destruct (Z.even f); nia.
  - lia.
  - apply Z.compare_gt_iff in C. nia.
Qed.

(** A text of fewer than 200 characters with a character that is not a
    capital (a space, a digit, a lowercase letter) never has the ratio 1.0. *)
Lemma cap_ratio_not_one (t : pystr) (c : ascii) :
  In c t -> is_upper c = false -> (List.length t < 200)%nat ->
  Qeqb (cap_ratio_of t) 1 = false.
Proof.
  intros Hin Hc Hlen.
  pose proof (count_upper_lt t c Hin Hc) as Hu.
  apply not_true_is_false. intros E. apply Qeqb_true in E.
  unfold cap_ratio_of, round2, Qeq in E. simpl in E.
  pose proof (round_half_even_below (Z.of_nat (count_upper t))
                (Z.max (len t) 1)) as Hb.
  unfold len, ofnat, ofZ in *.
  assert (Hmax : Z.max (Z.of_nat (List.length t)) 1 = Z.of_nat (List.length t))
    by lia.
  rewrite Hmax in *.
  specialize (Hb ltac:(lia) ltac:(lia)). lia.
Qed.

Lemma score_capitalization_of_mixed (l : Line) (c : ascii) :
  cap_ratio l = cap_ratio_of (text l) ->
  In c (text l) -> is_upper c = false ->
  (List.length (text l) < 200)%nat ->
  score_capitalization l <> 12%Q.
Proof.
  intros Hr Hin Hc Hlen. unfold score_capitalization.
  rewrite Hr, (cap_ratio_not_one (text l) c Hin Hc Hlen). simpl.
  destruct (_ && _); discriminate.
Qed.

(** No extracted line of fewer than 200 characters that has a character
    other than a capital gets the all-caps bonus. *)
Lemma extracted_mixed_never_all_caps (st : State) (doc : Doc)
      (lines : list Line) :
  extract_text_lines_with_features st doc = Ok lines ->
  Forall (fun l => forall c,
              In c (text l) -> is_upper c = false ->
              (List.length (text l) < 200)%nat ->
              score_capitalization l <> 12%Q) lines.
Proof.
  apply extract_inv. intros x [_ Hx] c Hin Hc Hlen.
  now apply (score_capitalization_of_mixed x c).
Qed.


(** C5. The line "HELLO WORLD" is extracted with two words and a capital
    ratio of 0.91 (the space counts in the length), and the capitalisation
    step of the scorer gives it 0, not 12. *)
Theorem C5_all_caps_two_words_scores_zero :
  exists l : Line,
    extract_text_lines_with_features
      (_pre_process_for_hf_detection initial_state Samples.doc_all_caps)
      Samples.doc_all_caps = Ok [l] /\
    text l = str "HELLO WORLD" /\
    word_count l = 2%Z /\
    (cap_ratio l == 91 # 100)%Q /\
    istitle (text l) = false /\
    score_capitalization l = 0%Q.
Proof.
  eexists. split; [vm_compute; reflexivity|].
  conj_crunch.
Qed.

(** ** Merging of lines in regular weight *)

Lemma break_not_bold_fires (cur next : Line) :
  is_bold cur = false -> is_bold next = false -> (0 < font_size cur)%Q ->
  break_not_bold cur next = true.
Proof.
  intros Hc Hn Hpos. unfold break_not_bold. rewrite Hc, Hn. simpl.
  apply Qltb_true.
  setoid_replace (font_size cur) with (font_size cur * 1)%Q at 1 by ring.
  apply Qmult_lt_l; [assumption|reflexivity].
Qed.

(** C1. In a document with 10pt body text, two adjacent 40pt lines in
    regular weight are both selected; no break condition before the
    "neither bold" one holds between them, yet they are emitted as two
    headings and the outline has two entries. *)
Theorem C1_large_regular_lines_not_merged :
  exists l1 l2 : Line,
    select_headings (lines_of_run initial_state (Ok Samples.doc_large_regular))
    = [l1; l2] /\
    is_bold l1 = false /\ is_bold l2 = false /\
    (font_size l1 == 40)%Q /\ (font_size l2 == 40)%Q /\
    option_map body_font_size
      (analyze_font_statistics
         (lines_of_run initial_state (Ok Samples.doc_large_regular)))
    = Some 10%Q /\
    earlier_break l1 l2 = false /\
    merge_multiline_headings [l1; l2] = [l1; l2] /\
    map o_text
      (outline (fst (process_pdf initial_state (Ok Samples.doc_large_regular))))
    = [str "Annual Performance"; str "Review Summary"].
Proof.
  do 2 eexists. split; [vm_compute; reflexivity|].
  conj_crunch.
Qed.

(** ** Header/footer repetition on short documents *)

(** C3. On a one-page document whose header repeats one text in three
    columns, the census counts 3 for that key, the repetition rule classifies
    the header lines as redundant although no fixed pattern matches them,
    and only the body lines are extracted. *)
Theorem C3_repetition_rule_fires_on_one_page :
  let st := _pre_process_for_hf_detection initial_state
              Samples.doc_three_column_header in
  _total_pages_in_doc st = 1%Z /\
  lookup hfkey_eqb (str "quarterly results brief", 10%Z, true)
         (_hf_candidates st) = Some 3%Z /\
  is_non_content (str "Quarterly Results Brief") = false /\
  repetition_rule st (str "Quarterly Results Brief") 10 true = true /\
  _is_redundant_line st (str "Quarterly Results Brief") 10 20 0 = true /\
  map text (lines_of_run initial_state (Ok Samples.doc_three_column_header))
  = [Samples.text_of_body; Samples.text_of_body].
Proof.
  conj_crunch.
Qed.

(** ** The cap of the selection *)

Lemma select_uncapped_prefix (cands : list Line) :
  forall final seen lb lp,
  exists more, select_uncapped cands final seen lb lp = final ++ more.
Proof.
  induction cands as [|c cands IH]; simpl; intros final seen lb lp.
  - exists []. now rewrite app_nil_r.
  - destruct (_ || _); [apply IH|].
    destruct (close_duplicate _ _ _ _); [apply IH|].
    destruct (IH (final ++ [c]) (norm_text_of c :: seen)
                 (Some (bbox c)) (page c)) as [more Hm].
    exists (c :: more). rewrite Hm, <- app_assoc. reflexivity.
Qed.

Lemma select_loop_firstn (cap : nat) (cands : list Line) :
  forall final seen lb lp,
    (List.length final < cap)%nat ->
    select_loop cap cands final seen lb lp
    = firstn cap (select_uncapped cands final seen lb lp).
Proof.
  induction cands as [|c cands IH]; simpl; intros final seen lb lp Hlen.
  - symmetry. apply firstn_all2. lia.
  - destruct (_ || _); [now apply IH|].
    destruct (close_duplicate _ _ _ _); [now apply IH|].
    destruct (cap <=? List.length (final ++ [c]))%nat eqn:E.
    + apply Nat.leb_le in E. rewrite length_app in E. simpl in E.
      destruct (select_uncapped_prefix cands (final ++ [c])
                  (norm_text_of c :: seen) (Some (bbox c)) (page c))
        as [more Hm].
      rewrite Hm.
      assert (Hcap : cap = List.length (final ++ [c])).
      { rewrite length_app. simpl. lia. }
      rewrite Hcap, firstn_app, firstn_all, Nat.sub_diag. simpl.
      now rewrite app_nil_r.
    + apply Nat.leb_gt in E. now apply IH.
Qed.

Lemma select_headings_firstn (text_lines : list Line) :
  select_headings text_lines
  = firstn MAX_HEADINGS
      (select_uncapped (spatial_candidates text_lines) [] [] None (-1)%Z).
Proof.
  unfold select_headings, spatial_candidates.
  apply select_loop_firstn. unfold MAX_HEADINGS. simpl. lia.
Qed.

Lemma merge_fold_length (others : list Line) :
  forall emitted cur,
    (List.length (fst (fold_left merge_step others (emitted, cur)))
     <= List.length emitted + List.length others)%nat.
Proof.
  induction others as [|n others IH]; simpl; intros emitted cur.
  - lia.
  - destruct (earlier_break cur n).
    + etransitivity; [apply IH|]. rewrite length_app. simpl. lia.
    + destruct (break_not_bold cur n).
      * etransitivity; [apply IH|]. rewrite length_app. simpl. lia.
      * etransitivity; [apply IH|]. lia.
Qed.

Lemma merge_length (hs : list Line) :
  (List.length (merge_multiline_headings hs) <= List.length hs)%nat.
Proof.
  unfold merge_multiline_headings.
  rewrite <- (sorted_length _ page_top_le hs).
  destruct (PySort.sorted page_top_le hs) as [|first others]; [simpl; lia|].
  pose proof (merge_fold_length others [] first) as H.
  destruct (fold_left merge_step others ([], first)) as [emitted cur].
  simpl in *. rewrite length_app. simpl. lia.
Qed.

Lemma outline_length (st : State) (text_lines : list Line) :
  (List.length (outline (assemble st text_lines))
   <= List.length (select_headings text_lines))%nat.
Proof.
  pose proof (Forall2_length (assemble_outline st text_lines)) as H.
  rewrite H. unfold merged_sorted. rewrite sorted_length.
  apply merge_length.
Qed.

(** C2 (as amended). The selector accepts the candidates that pass the
    length, seen-text and proximity checks, in (page, top y) order, up to
    150 of them: never more than 150, and exactly 150 when at least 150
    pass.  The outline has one entry per merged heading, so at most as many
    entries as accepted headings, in (page, top y) order of the merged
    headings. *)
Theorem C2_cap_is_an_upper_bound (st : State) (opened : result Doc) :
  let text_lines := lines_of_run st opened in
  let passing :=
    select_uncapped (spatial_candidates text_lines) [] [] None (-1)%Z in
  let accepted := select_headings text_lines in
  let outline_entries := outline (fst (process_pdf st opened)) in
  accepted = firstn 150 passing /\
  (List.length accepted <= 150)%nat /\
  ((150 <= List.length passing)%nat -> List.length accepted = 150%nat) /\
  (List.length outline_entries <= List.length accepted)%nat /\
  StronglySorted page_top_order (merged_sorted text_lines) /\
  Forall2 corresponds outline_entries (merged_sorted text_lines).
Proof.
  cbv zeta.
  pose proof (select_headings_firstn (lines_of_run st opened)) as Hf.
  unfold MAX_HEADINGS in Hf.
  split; [exact Hf|].
  split; [rewrite Hf; apply firstn_le_length|].
  split; [intros Hge; rewrite Hf; now apply firstn_length_le|].
  rewrite process_pdf_outline.
  split; [apply outline_length|].
  split; [apply merged_sorted_strongly|apply assemble_outline].
Qed.

(** C2 (as stated) fails on 151 pages that each carry the same bold
    heading: all 151 lines score above the threshold, one is accepted, and
    the outline has one entry. *)
Lemma C2_exactly_150_counterexample :
  ~ (let text_lines :=
       lines_of_run initial_state (Ok Samples.doc_repeated_heading) in
     (150 < List.length (heading_candidates_of text_lines))%nat ->
     List.length (select_headings text_lines) = 150%nat /\
     List.length
       (outline
          (fst (process_pdf initial_state (Ok Samples.doc_repeated_heading))))
     = 150%nat).
Proof.
  cbv zeta. intros H.
  assert (Hraw : (150 < List.length
                         (heading_candidates_of
                            (lines_of_run initial_state
                               (Ok Samples.doc_repeated_heading))))%nat).
  { apply Nat.ltb_lt. crunch. }
  destruct (H Hraw) as [_ Hout].
  assert (Hone : List.length
                   (outline
                      (fst (process_pdf initial_state
                              (Ok Samples.doc_repeated_heading)))) = 1%nat)
    by crunch.
  rewrite Hone in Hout. clear - Hout. discriminate Hout.
Qed.

(** ** Regular expressions: the matcher against its specification *)

Lemma flat_map_eq (A B : Type) (f g : A -> list B) (l : list A) :
  (forall a, In a l -> f a = g a) -> flat_map f l = flat_map g l.
Proof.
  induction l as [|a l IH]; simpl; intros H; [reflexivity|].
  rewrite (H a) by now left. f_equal. apply IH. intros; apply H; now right.
Qed.

Lemma star_from_fuel (body : cursor -> list cursor) (g : bool) :
  forall f1 f2 cur,
    (List.length (rest cur) < f1)%nat -> (List.length (rest cur) < f2)%nat ->
    star_from body g f1 cur = star_from body g f2 cur.
Proof.
  induction f1 as [|f1 IH]; intros f2 cur H1 H2; [lia|].
  destruct f2 as [|f2]; [lia|]. simpl.
  assert (E : flat_map
            (fun c' => if (List.length (rest c') <? List.length (rest cur))%nat
                       then star_from body g f1 c' else []) (body cur)
           = flat_map
            (fun c' => if (List.length (rest c') <? List.length (rest cur))%nat
                       then star_from body g f2 c' else []) (body cur)).
  { apply flat_map_eq. intros c' _.
    destruct (List.length (rest c') <? List.length (rest cur))%nat eqn:E;
      [|reflexivity].
    apply Nat.ltb_lt in E. apply IH; lia. }
  now rewrite E.
Qed.

Lemma star_from_In (body : cursor -> list cursor) (g : bool) (n : nat)
      (cur c' : cursor) :
  In c' (star_from body g (S n) cur) <->
  c' = cur \/
  exists c1, In c1 (body cur) /\
             (List.length (rest c1) < List.length (rest cur))%nat /\
             In c' (star_from body g n c1).
Proof.
  simpl.
  assert (Hmore : forall l,
    In c' (flat_map
             (fun c1 => if (List.length (rest c1) <? List.length (rest cur))%nat
                        then star_from body g n c1 else []) l) <->
    exists c1, In c1 l /\
               (List.length (rest c1) < List.length (rest cur))%nat /\
               In c' (star_from body g n c1)).
  { intros l. rewrite in_flat_map. split.
    - intros [c1 [Hin H]]. exists c1. split; [assumption|].
      destruct (List.length (rest c1) <? List.length (rest cur))%nat eqn:E;
        [|contradiction].
      apply Nat.ltb_lt in E. now split.
    - intros [c1 [Hin [Hlt H]]]. exists c1. split; [assumption|].
      apply Nat.ltb_lt in Hlt. now rewrite Hlt. }
  destruct g.
  - rewrite in_app_iff, Hmore. simpl. intuition (subst; auto).
  - simpl. rewrite Hmore. intuition (subst; auto).
Qed.

Lemma step_In (ok : ascii -> bool) (cur c' : cursor) :
  In c' (step ok cur) <->
  exists x s, rest cur = x :: s /\ ok x = true /\ c' = (Some x, s).
Proof.
  unfold step. destruct (rest cur) as [|x s] eqn:E; simpl.
  - split; [contradiction|]. intros [x [s [H _]]]. discriminate.
  - destruct (ok x) eqn:Hx; simpl.
    + split.
      * intros [<-|[]]. now exists x, s.
      * intros [x' [s' [H [_ ->]]]]. inversion H; subst. now left.
    + split; [contradiction|].
      intros [x' [s' [H [Hok _]]]]. inversion H; subst. congruence.
Qed.

Lemma ends_sound (ic : bool) (r : regex) :
  forall cur c', In c' (ends ic r cur) -> Matches ic r cur c'.
Proof.
  induction r as [|c|p| |a IHa b IHb|a IHa b IHb|g a IHa| | |c];
    intros cur c' H; [simpl in H ..| |simpl in H|simpl in H|simpl in H].
  - destruct H as [<-|[]]. constructor.
  - apply step_In in H. destruct H as [x [s [Hr [Hok ->]]]].
    destruct cur as [prev t]. simpl in Hr. subst. now constructor.
  - apply step_In in H. destruct H as [x [s [Hr [Hok ->]]]].
    destruct cur as [prev t]. simpl in Hr. subst. now constructor.
  - apply step_In in H. destruct H as [x [s [Hr [Hok ->]]]].
    destruct cur as [prev t]. simpl in Hr. subst. constructor.
    now apply negb_true_iff in Hok.
  - apply in_flat_map in H. destruct H as [c2 [H1 H2]].
    econstructor; eauto.
  - apply in_app_iff in H. destruct H as [H|H].
    + apply MAltL; auto.
    + apply MAltR; auto.
  - change (In c' (star_from (ends ic a) g (S (List.length (rest cur))) cur))
      in H.
    remember (S (List.length (rest cur))) as fuel eqn:Hf. clear Hf.
    revert cur c' H. induction fuel as [|n IHn]; intros cur c' H.
    + simpl in H. destruct H as [<-|[]]. constructor.
    + apply star_from_In in H. destruct H as [->|[c1 [H1 [Hlt H2]]]].
      * constructor.
      * eapply MStarStep; eauto.
  - destruct cur as [[x|] s]; simpl in H; [contradiction|].
    destruct H as [<-|[]]. constructor.
  - destruct cur as [prev s]. simpl in H.
    destruct s as [|x [|y s]]; simpl in H.
    + destruct H as [<-|[]]. constructor.
    + destruct (char_eqb x newline) eqn:E; [|contradiction].
      destruct H as [<-|[]]. apply Ascii.eqb_eq in E. subst. constructor.
    + contradiction.
  - destruct cur as [[x|] s]; simpl in H.
    + destruct (char_eqb x c) eqn:E; [contradiction|].
      destruct H as [<-|[]]. now constructor.
    + destruct H as [<-|[]]. constructor.
Qed.

Lemma ends_complete (ic : bool) (r : regex) (cur c' : cursor) :
  Matches ic r cur c' -> In c' (ends ic r cur).
Proof.
  induction 1; simpl.
  - now left.
  - unfold step. simpl. rewrite H. now left.
  - unfold step. simpl. rewrite H. now left.
  - unfold step. simpl. rewrite H. now left.
  - apply in_flat_map. eauto.
  - apply in_app_iff. now left.
  - apply in_app_iff. now right.
  - destruct g; [apply in_app_iff; right|]; now left.
  - change (In c3 (star_from (ends ic a) g (S (List.length (rest c1))) c1)).
    apply star_from_In. right. exists c2. split; [assumption|].
    split; [assumption|].
    simpl in IHMatches2.
    rewrite (star_from_fuel (ends ic a) g (List.length (rest c1))
               (S (List.length (rest c2))) c2); [assumption|lia|lia].
  - now left.
  - now left.
  - vm_compute. now left.
  - now left.
  - rewrite H. now left.
Qed.

Theorem pmatch_spec (r : regex) (ic : bool) (s : pystr) :
  pmatch (compile r ic) s = true <-> exists c', Matches ic r (None, s) c'.
Proof.
  unfold pmatch, match_at, compile. simpl. split.
  - destruct (ends ic r (None, s)) as [|c' l] eqn:E; [discriminate|].
    intros _. exists c'. apply ends_sound. rewrite E. now left.
  - intros [c' H]. apply ends_complete in H.
    destruct (ends ic r (None, s)); [contradiction|reflexivity].
Qed.

(** ** Runs of one character class *)

Lemma cls_ok_exact (p : ascii -> bool) (x : ascii) : cls_ok false p x = p x.
Proof. unfold cls_ok. simpl. apply orb_false_r. Qed.

Lemma lit_ok_exact (c x : ascii) : lit_ok false c x = true <-> c = x.
Proof.
  unfold lit_ok, char_eqb. simpl. rewrite orb_false_r. apply Ascii.eqb_eq.
Qed.

Lemma matches_many_run (p : ascii -> bool) (run : pystr) :
  forall prev tail,
    all_in p run ->
    exists prev', Matches false (Many (Cls p)) (prev, run ++ tail) (prev', tail).
Proof.
  induction run as [|x run IH]; intros prev tail Hrun.
  - exists prev. apply MStarStop.
  - inversion Hrun as [|? ? Hx Hrun']; subst.
    destruct (IH (Some x) tail Hrun') as [prev' Hm].
    exists prev'. simpl.
    apply MStarStep with (c2 := (Some x, run ++ tail)).
    + constructor. now rewrite cls_ok_exact.
    + simpl. lia.
    + exact Hm.
Qed.

Lemma matches_plus_run (p : ascii -> bool) (run : pystr) (prev : option ascii)
      (tail : pystr) :
  run <> [] -> all_in p run ->
  exists prev', Matches false (Plus (Cls p)) (prev, run ++ tail) (prev', tail).
Proof.
  intros Hne Hrun. destruct run as [|x run]; [congruence|].
  inversion Hrun as [|? ? Hx Hrun']; subst.
  destruct (matches_many_run p run (Some x) tail Hrun') as [prev' Hm].
  exists prev'. simpl. eapply MCat; [|exact Hm].
  constructor. now rewrite cls_ok_exact.
Qed.

Lemma star_run_inv (p : ascii -> bool) (g : bool) (c1 c2 : cursor) :
  Matches false (Star g (Cls p)) c1 c2 ->
  exists run, all_in p run /\ rest c1 = run ++ rest c2.
Proof.
  intros H. remember (Star g (Cls p)) as r eqn:Hr.
  induction H; try discriminate.
  - exists []. split; [constructor|reflexivity].
  - inversion Hr; subst. clear IHMatches1.
    destruct (IHMatches2 eq_refl) as [run [Hrun Heq]].
    inversion H; subst. simpl in *.
    exists (x :: run). split.
    + constructor; [now rewrite <- cls_ok_exact|assumption].
    + now rewrite Heq.
Qed.

Lemma plus_run_inv (p : ascii -> bool) (c1 c2 : cursor) :
  Matches false (Plus (Cls p)) c1 c2 ->
  exists run, run <> [] /\ all_in p run /\ rest c1 = run ++ rest c2.
Proof.
  intros H. inversion H as [| | | |? ? ? cm ? Ha Hb| | | | | | | | |]; subst.
  inversion Ha; subst.
  destruct (star_run_inv p true _ _ Hb) as [run [Hrun Heq]].
  simpl in *. exists (x :: run). split; [discriminate|]. split.
  - constructor; [now rewrite <- cls_ok_exact|assumption].
  - now rewrite Heq.
Qed.

Lemma lit_inv (c : ascii) (c1 c2 : cursor) :
  Matches false (Lit c) c1 c2 -> rest c1 = c :: rest c2.
Proof.
  intros H. inversion H as [|c0 prev x s Hok| | | | | | | | | | | |]; subst.
  simpl. apply lit_ok_exact in Hok. now subst.
Qed.

Lemma run_split_unique (p : ascii -> bool) (r1 : pystr) :
  forall r2 a b t1 t2,
    all_in p r1 -> all_in p r2 -> p a = false -> p b = false ->
    r1 ++ a :: t1 = r2 ++ b :: t2 ->
    r1 = r2 /\ a = b /\ t1 = t2.
Proof.
  induction r1 as [|x r1 IH]; intros r2 a b t1 t2 H1 H2 Ha Hb E.
  - destruct r2 as [|y r2]; simpl in E.
    + injection E as -> ->. auto.
    + injection E as -> _. inversion H2; subst. congruence.
  - inversion H1 as [|? ? Hx H1']; subst.
    destruct r2 as [|y r2]; simpl in E.
    + injection E as -> _. congruence.
    + injection E as -> E'. inversion H2 as [|? ? Hy H2']; subst.
      destruct (IH r2 a b t1 t2 H1' H2' Ha Hb E') as [-> [-> ->]]. auto.
Qed.

Lemma digit_not_space (c : ascii) : is_digit c = true -> is_space c = false.
Proof.
  destruct c as [[] [] [] [] [] [] [] []]; vm_compute; congruence.
Qed.

Lemma space_not_digit (c : ascii) : is_space c = true -> is_digit c = false.
Proof.
  intros H. destruct (is_digit c) eqn:E; [|reflexivity].
  apply digit_not_space in E. congruence.
Qed.

(** ** Enumerations at the head of a heading *)

(** The common head [^\s*\d+\.] of the patterns for multi-level numbers:
    what the input must look like for it to match. *)
Lemma numbered_dot_inv (r : regex) (s : pystr) (c' : cursor) :
  Matches false
    (Cat Bol (Cat (Many ws) (Cat (Plus dig) (Cat (Lit ".") r)))) (None, s) c' ->
  exists lead ds t prev,
    all_in is_space lead /\ ds <> [] /\ all_in is_digit ds /\
    s = lead ++ ds ++ "."%char :: t /\
    Matches false r (prev, t) c'.
Proof.
  intros H.
  inversion H as [| | | |? ? ? ca ? H1 H2| | | | | | | | |]; subst.
  inversion H1; subst.
  inversion H2 as [| | | |? ? ? cb ? H3 H4| | | | | | | | |]; subst.
  inversion H4 as [| | | |? ? ? cc ? H5 H6| | | | | | | | |]; subst.
  inversion H6 as [| | | |? ? ? cd ? H7 H8| | | | | | | | |]; subst.
  destruct (star_run_inv _ _ _ _ H3) as [lead [Hlead E1]].
  destruct (plus_run_inv _ _ _ H5) as [ds [Hne [Hds E2]]].
  apply lit_inv in H7.
  destruct cd as [prev t]. simpl in *.
  exists lead, ds, t, prev.
  repeat (split; [assumption|]). split; [|assumption].
  now rewrite E1, E2, H7.
Qed.

(** An input that starts with a digit has no leading whitespace. *)
Lemma no_lead_before_digit (lead ds rest1 : pystr) (d : ascii) (rest2 : pystr) :
  all_in is_space lead -> is_digit d = true ->
  d :: rest2 = lead ++ rest1 -> lead = [].
Proof.
  intros Hlead Hd E. destruct lead as [|x lead]; [reflexivity|].
  inversion E; subst. inversion Hlead; subst.
  apply digit_not_space in Hd. congruence.
Qed.

Section Enumerations.

Variables (ds : pystr) (w : ascii) (tail : pystr).
Hypothesis ds_nonempty : ds <> [].
Hypothesis ds_digits : all_in is_digit ds.
Hypothesis w_space : is_space w = true.

(** A number followed by whitespace does not start like [\d+\.]. *)
Lemma number_space_no_dot (r : regex) :
  pmatch (compile (Cat Bol (Cat (Many ws) (Cat (Plus dig) (Cat (Lit ".") r))))
                  false)
         (ds ++ w :: tail) = false.
Proof.
  apply not_true_is_false. intros H.
  apply pmatch_spec in H. destruct H as [c' H].
  apply numbered_dot_inv in H.
  destruct H as [lead [ds' [t [prev [Hlead [Hne [Hds' [E _]]]]]]]].
  destruct ds as [|d ds0] eqn:Eds; [congruence|].
  inversion ds_digits as [|? ? Hd Hds0]; subst.
  simpl in E.
  assert (lead = []) by (eapply no_lead_before_digit; eauto).
  subst lead. simpl in E.
  change (d :: ds0 ++ w :: tail) with ((d :: ds0) ++ w :: tail) in E.
  destruct (run_split_unique is_digit (d :: ds0) ds' w "."%char tail t)
    as [_ [Hw _]]; auto.
  - now apply space_not_digit.
  - subst w. vm_compute in w_space. discriminate.
Qed.

Lemma number_space_level1 :
  pmatch RE_LEVEL1_NUM (ds ++ w :: tail) = true.
Proof.
  apply pmatch_spec. simpl.
  destruct (matches_plus_run is_digit ds None (w :: tail) ds_nonempty ds_digits)
    as [prev Hd].
  exists (Some w, tail).
  eapply MCat; [apply MBol|].
  eapply MCat; [apply MStarStop|].
  eapply MCat; [exact Hd|].
  eapply MCat; [|apply MStarStop].
  constructor. now rewrite cls_ok_exact.
Qed.

Variables (ds0 : pystr).
Hypothesis ds0_nonempty : ds0 <> [].
Hypothesis ds0_digits : all_in is_digit ds0.

(** [n.n] followed by whitespace matches the two-level pattern ... *)
Lemma number_dot_number_level2 :
  pmatch RE_LEVEL2 (ds0 ++ "."%char :: ds ++ w :: tail) = true.
Proof.
  apply pmatch_spec. simpl.
  destruct (matches_plus_run is_digit ds0 None ("."%char :: ds ++ w :: tail)
              ds0_nonempty ds0_digits) as [p0 H0].
  destruct (matches_plus_run is_digit ds (Some "."%char) (w :: tail)
              ds_nonempty ds_digits) as [p1 H1].
  exists (Some w, tail).
  eapply MCat; [apply MBol|].
  eapply MCat; [apply MStarStop|].
  eapply MCat; [exact H0|].
  eapply MCat; [constructor; now apply lit_ok_exact|].
  eapply MCat; [exact H1|].
  eapply MCat; [|apply MStarStop].
  constructor. now rewrite cls_ok_exact.
Qed.

(** ... and not the pattern for three or more levels. *)
Lemma number_dot_number_not_level3 :
  pmatch RE_LEVEL3 (ds0 ++ "."%char :: ds ++ w :: tail) = false.
Proof.
  apply not_true_is_false. intros H.
  apply pmatch_spec in H. destruct H as [c' H]. simpl in H.
  apply numbered_dot_inv in H.
  destruct H as [lead [ds' [t [prev [Hlead [Hne [Hds' [E H]]]]]]]].
  destruct ds0 as [|d ds1] eqn:Eds; [congruence|].
  inversion ds0_digits as [|? ? Hd Hds1]; subst.
  simpl in E.
  assert (lead = []) by (eapply no_lead_before_digit; eauto).
  subst lead. simpl in E.
  change (d :: ds1 ++ "."%char :: ds ++ w :: tail)
    with ((d :: ds1) ++ "."%char :: ds ++ w :: tail) in E.
  destruct (run_split_unique is_digit (d :: ds1) ds' "."%char "."%char
              (ds ++ w :: tail) t) as [_ [_ Ht]]; auto.
  subst t.
  inversion H as [| | | |? ? ? ca ? H1 H2| | | | | | | | |]; subst.
  inversion H2 as [| | | |? ? ? cb ? H3 H4| | | | | | | | |]; subst.
  destruct (plus_run_inv _ _ _ H1) as [run [_ [Hrun E1]]].
  apply lit_inv in H3. simpl in E1. rewrite H3 in E1.
  destruct (run_split_unique is_digit ds run w "."%char tail (rest cb))
    as [_ [Hw _]]; auto.
  - now apply space_not_digit.
  - subst w. vm_compute in w_space. discriminate.
Qed.

End Enumerations.

(** Where the enumeration branches do fire: a heading whose text is a
    number followed by whitespace, whose font size has the top rank and is
    at least 1.8 times the body size, is classified H1, and a heading whose
    text is a two-level number [n.n] followed by whitespace, at the next
    rank, is classified H2, whatever their horizontal positions. *)
Lemma number_then_whitespace_overrides
        (st : State) (h1 h2 : Line) (all_headings : list Line)
        (font_stats : option FontStats)
        (n1 : pystr) (w1 : ascii) (tail1 : pystr)
        (na nb : pystr) (w2 : ascii) (tail2 : pystr) :
  In h1 all_headings ->
  n1 <> [] -> all_in is_digit n1 -> is_space w1 = true ->
  text h1 = n1 ++ w1 :: tail1 ->
  na <> [] -> all_in is_digit na -> nb <> [] -> all_in is_digit nb ->
  is_space w2 = true ->
  text h2 = na ++ "."%char :: nb ++ w2 :: tail2 ->
  initial_level h1 all_headings = H1 ->
  initial_level h2 all_headings = H2 ->
  (get (option_map body_font_size font_stats) 12 * (18 # 10)
   <= font_size h1)%Q ->
  classify_heading_level st h1 all_headings font_stats = H1 /\
  classify_heading_level st h2 all_headings font_stats = H2.
Proof.
  intros Hin Hn1 Hd1 Hw1 Ht1 Hna Hda Hnb Hdb Hw2 Ht2 Hl1 Hl2 Hsize.
  unfold classify_heading_level.
  destruct all_headings as [|h0 hs]; [contradiction|].
  split.
  - assert (E3 : pmatch RE_LEVEL3 (n1 ++ w1 :: tail1) = false)
      by (apply number_space_no_dot; assumption).
    assert (E2 : pmatch RE_LEVEL2 (n1 ++ w1 :: tail1) = false)
      by (apply number_space_no_dot; assumption).
    assert (E1 : pmatch RE_LEVEL1_NUM (n1 ++ w1 :: tail1) = true)
      by (apply number_space_level1; assumption).
    rewrite Ht1, Hl1, E3, E2, E1.
    apply Qleb_true in Hsize. unfold Qgeb, Qleb in *. rewrite Hsize.
    reflexivity.
  - assert (E3 : pmatch RE_LEVEL3 (na ++ "."%char :: nb ++ w2 :: tail2) = false)
      by (apply number_dot_number_not_level3; assumption).
    assert (E2 : pmatch RE_LEVEL2 (na ++ "."%char :: nb ++ w2 :: tail2) = true)
      by (apply number_dot_number_level2; assumption).
    rewrite Ht2, Hl2, E3, E2.
    reflexivity.
Qed.

Lemma number_then_whitespace_overrides_witness :
  let h1 := Samples.numbered_line "1 Introduction" 24 200 in
  let h2 := Samples.numbered_line "1.1 Background" 18 300 in
  classify_heading_level initial_state h1 [h1; h2] None = H1 /\
  classify_heading_level initial_state h2 [h1; h2] None = H2.
Proof.
  cbv zeta.
  apply (number_then_whitespace_overrides initial_state
           (Samples.numbered_line "1 Introduction" 24 200)
           (Samples.numbered_line "1.1 Background" 18 300)
           _ None
           (str "1") " "%char (str "Introduction")
           (str "1") (str "1") " "%char (str "Background")).
  - left. reflexivity.
  - discriminate.
  - repeat constructor.
  - reflexivity.
  - reflexivity.
  - discriminate.
  - repeat constructor.
  - discriminate.
  - repeat constructor.
  - reflexivity.
  - reflexivity.
  - vm_compute. reflexivity.
  - vm_compute. reflexivity.
  - vm_compute. discriminate.
Defined.

(** ** A number followed by a dot *)

Lemma digit_not_alpha (c : ascii) : is_digit c = true -> is_alpha c = false.
Proof.
  destruct c as [[] [] [] [] [] [] [] []]; vm_compute; congruence.
Qed.

Lemma digit_not_roman (c : ascii) :
  is_digit c = true -> one_of "IVXLCDM" c = false.
Proof.
  destruct c as [[] [] [] [] [] [] [] []]; vm_compute; congruence.
Qed.

Lemma cls_inv (p : ascii -> bool) (c1 c2 : cursor) :
  Matches false (Cls p) c1 c2 -> exists x, p x = true /\ rest c1 = x :: rest c2.
Proof.
  intros H. inversion H; subst. simpl.
  eexists. split; [|reflexivity]. now rewrite <- cls_ok_exact.
Qed.

Section DottedNumber.

Variables (ds : pystr) (w : ascii) (tail : pystr).
Hypothesis ds_nonempty : ds <> [].
Hypothesis ds_digits : all_in is_digit ds.
Hypothesis w_space : is_space w = true.

(** After [n.] the patterns for numbers of several levels want a digit. *)
Lemma dotted_number_not_multilevel (r : regex) :
  pmatch (compile (Cat Bol (Cat (Many ws) (Cat (Plus dig)
                     (Cat (Lit ".") (Cat (Plus dig) r))))) false)
         (ds ++ "."%char :: w :: tail) = false.
Proof.
  apply not_true_is_false. intros H.
  apply pmatch_spec in H. destruct H as [c' H].
  apply numbered_dot_inv in H.
  destruct H as [lead [ds' [t [prev [Hlead [Hne [Hds' [E H]]]]]]]].
  destruct ds as [|d ds0] eqn:Eds; [congruence|].
  inversion ds_digits as [|? ? Hd Hds0]; subst.
  simpl in E.
  assert (lead = []) by (eapply no_lead_before_digit; eauto).
  subst lead. simpl in E.
  change (d :: ds0 ++ "."%char :: w :: tail)
    with ((d :: ds0) ++ "."%char :: w :: tail) in E.
  destruct (run_split_unique is_digit (d :: ds0) ds' "."%char "."%char
              (w :: tail) t) as [_ [_ Ht]]; auto.
  subst t.
  inversion H as [| | | |? ? ? ca ? H1 H2| | | | | | | | |]; subst.
  destruct (plus_run_inv _ _ _ H1) as [run [Hrun [Hall E1]]].
  simpl in E1. destruct run as [|x run]; [congruence|].
  inversion Hall as [|? ? Hx _]; subst.
  simpl in E1. injection E1 as -> _.
  apply space_not_digit in w_space. congruence.
Qed.

(** After [n] the pattern for a single number wants whitespace. *)
Lemma dotted_number_not_level1 :
  pmatch RE_LEVEL1_NUM (ds ++ "."%char :: w :: tail) = false.
Proof.
  apply not_true_is_false. intros H.
  apply pmatch_spec in H. destruct H as [c' H]. simpl in H.
  inversion H as [| | | |? ? ? ca ? H1 H2| | | | | | | | |]; subst.
  inversion H1; subst.
  inversion H2 as [| | | |? ? ? cb ? H3 H4| | | | | | | | |]; subst.
  inversion H4 as [| | | |? ? ? cc ? H5 H6| | | | | | | | |]; subst.
  destruct (star_run_inv _ _ _ _ H3) as [lead [Hlead E1]].
  destruct (plus_run_inv _ _ _ H5) as [ds' [Hne [Hds' E2]]].
  destruct (plus_run_inv _ _ _ H6) as [sp [Hsp [Hspall E3]]].
  simpl in E1. rewrite E2, E3 in E1.
  destruct ds as [|d ds0] eqn:Eds; [congruence|].
  inversion ds_digits as [|? ? Hd Hds0]; subst.
  simpl in E1.
  assert (lead = []) by (eapply no_lead_before_digit; eauto).
  subst lead. simpl in E1.
  destruct sp as [|s0 sp]; [congruence|].
  inversion Hspall as [|? ? Hs0 _]; subst.
  change (d :: ds0 ++ "."%char :: w :: tail)
    with ((d :: ds0) ++ "."%char :: w :: tail) in E1.
  simpl in E1.
  destruct (run_split_unique is_digit (d :: ds0) ds' "."%char s0
              (w :: tail) (sp ++ rest c')) as [_ [Hdot _]]; auto.
  - now apply space_not_digit.
  - subst s0. vm_compute in Hs0. discriminate.
Qed.

(** The patterns that start with a letter class do not start with a
    digit. *)
Lemma dotted_number_not_class (p : ascii -> bool) (r : regex) :
  (forall c, is_digit c = true -> p c = false) ->
  pmatch (compile (Cat Bol (Cat (Many ws) (Cat (Cls p) r))) false)
         (ds ++ "."%char :: w :: tail) = false.
Proof.
  intros Hp. apply not_true_is_false. intros H.
  apply pmatch_spec in H. destruct H as [c' H].
  inversion H as [| | | |? ? ? ca ? H1 H2| | | | | | | | |]; subst.
  inversion H1; subst.
  inversion H2 as [| | | |? ? ? cb ? H3 H4| | | | | | | | |]; subst.
  inversion H4 as [| | | |? ? ? cc ? H5 H6| | | | | | | | |]; subst.
  destruct (star_run_inv _ _ _ _ H3) as [lead [Hlead E1]].
  destruct (cls_inv _ _ _ H5) as [x [Hx E2]].
  simpl in E1. rewrite E2 in E1.
  destruct ds as [|d ds0] eqn:Eds; [congruence|].
  inversion ds_digits as [|? ? Hd Hds0]; subst.
  simpl in E1.
  assert (lead = []) by (eapply no_lead_before_digit; eauto).
  subst lead. simpl in E1. injection E1 as -> _.
  rewrite (Hp _ Hd) in Hx. discriminate.
Qed.

Lemma dotted_number_not_roman :
  pmatch RE_LEVEL1_ROMAN (ds ++ "."%char :: w :: tail) = false.
Proof.
  apply not_true_is_false. intros H.
  apply pmatch_spec in H. destruct H as [c' H]. simpl in H.
  inversion H as [| | | |? ? ? ca ? H1 H2| | | | | | | | |]; subst.
  inversion H1; subst.
  inversion H2 as [| | | |? ? ? cb ? H3 H4| | | | | | | | |]; subst.
  inversion H4 as [| | | |? ? ? cc ? H5 H6| | | | | | | | |]; subst.
  destruct (star_run_inv _ _ _ _ H3) as [lead [Hlead E1]].
  destruct (plus_run_inv _ _ _ H5) as [run [Hne [Hrun E2]]].
  simpl in E1. rewrite E2 in E1.
  destruct ds as [|d ds0] eqn:Eds; [congruence|].
  inversion ds_digits as [|? ? Hd Hds0]; subst.
  simpl in E1.
  assert (lead = []) by (eapply no_lead_before_digit; eauto).
  subst lead. simpl in E1.
  destruct run as [|x run]; [congruence|].
  inversion Hrun as [|? ? Hx _]; subst.
  simpl in E1. injection E1 as -> _.
  rewrite (digit_not_roman _ Hd) in Hx. discriminate.
Qed.

(** A heading "n. Title" meets none of the enumeration branches of the
    level classifier: its level is the one of its font-size rank, lowered
    by one when the heading is indented. *)
Lemma dotted_number_gets_no_override (st : State) (h : Line)
      (all_headings : list Line) (font_stats : option FontStats) :
  In h all_headings ->
  text h = ds ++ "."%char :: w :: tail ->
  classify_heading_level st h all_headings font_stats
  = if Qgtb (x_pos h) (page_width_of st (page h - 1) * (1 # 10) + 30)
    then match initial_level h all_headings with
         | H1 => H2
         | H2 => H3
         | H3 => H3
         end
    else initial_level h all_headings.
Proof.
  intros Hin Ht. unfold classify_heading_level.
  destruct all_headings as [|h0 hs]; [contradiction|].
  cbv zeta. rewrite Ht.
  rewrite (dotted_number_not_multilevel _ : pmatch RE_LEVEL3 _ = false).
  rewrite (dotted_number_not_multilevel _ : pmatch RE_LEVEL2 _ = false).
  rewrite dotted_number_not_level1, dotted_number_not_roman.
  rewrite (dotted_number_not_class is_alpha _ digit_not_alpha
           : pmatch RE_LETTER_PAREN _ = false).
  rewrite (dotted_number_not_class is_alpha _ digit_not_alpha
           : pmatch RE_LETTER_DOT _ = false).
  simpl. destruct (Qgtb _ _); [|reflexivity].
  destruct (initial_level h (h0 :: hs)); reflexivity.
Qed.

End DottedNumber.

(** C4. On a page whose headings are "1. Introduction" (24pt, the top
    rank, 2.4 times the body size, indented) and "1.1 Background" (18pt, the
    next rank) over 10pt body text, no enumeration branch fires for
    "1. Introduction": the pattern for a single number wants whitespace right
    after the digits.  The indentation then lowers the heading, and the
    outline has the levels H2, H2.  With "1 Introduction" in its place the
    levels are H1, H2. *)
Theorem C4_dotted_number_is_demoted :
  exists h1 h2 : Line,
    merged_sorted (lines_of_run initial_state (Ok Samples.doc_numbered))
    = [h1; h2] /\
    starts_with (str "1.") (text h1) = true /\
    starts_with (str "1.1") (text h2) = true /\
    page h1 = page h2 /\
    x_pos h1 <> x_pos h2 /\
    initial_level h1 [h1; h2] = H1 /\
    initial_level h2 [h1; h2] = H2 /\
    option_map
      (fun fs => Qgeb (font_size h1) (body_font_size fs * (18 # 10)))
      (analyze_font_statistics
         (lines_of_run initial_state (Ok Samples.doc_numbered))) = Some true /\
    pmatch RE_LEVEL1_NUM (text h1) = false /\
    map o_level
      (outline (fst (process_pdf initial_state (Ok Samples.doc_numbered))))
    = [H2; H2] /\
    map o_level
      (outline (fst (process_pdf initial_state (Ok Samples.doc_numbered_plain))))
    = [H1; H2].
Proof.
  do 2 eexists. split; [crunch|].
  repeat (match goal with |- _ /\ _ => split end); try crunch.
  vm_compute. discriminate.
Qed.

(** * Further properties of the code *)

(** ** Strings *)

Lemma lstrip_head (s : pystr) :
  match lstrip s with
  | [] => True
  | c :: _ => is_space c = false
  end.
Proof.
  induction s as [|c s IH]; simpl; [exact I|].
  destruct (is_space c) eqn:E; [exact IH|exact E].
Qed.

Lemma lstrip_fixed (s : pystr) :
  match s with [] => True | c :: _ => is_space c = false end ->
  lstrip s = s.
Proof.
  destruct s as [|c s]; simpl; [reflexivity|]. now intros ->.
Qed.

Lemma lstrip_app_keep (s t : pystr) (c : ascii) :
  is_space c = false -> lstrip (s ++ c :: t) = lstrip s ++ c :: t
  \/ lstrip s = [].
Proof.
  intros Hc. induction s as [|x s IH]; simpl.
  - right. reflexivity.
  - destruct (is_space x); [exact IH|]. left. reflexivity.
Qed.

Lemma lstrip_app_nonspace (s t : pystr) (c : ascii) :
  is_space c = false ->
  exists u, lstrip (s ++ c :: t) = u ++ c :: t.
Proof.
  intros Hc. induction s as [|x s IH]; simpl.
  - rewrite Hc. now exists [].
  - destruct (is_space x); [exact IH|]. now exists (x :: s).
Qed.

(** Stripping the right end keeps the first character when it is not
    whitespace. *)
Lemma rstrip_head (c : ascii) (s : pystr) :
  is_space c = false -> exists u, rstrip (c :: s) = c :: u.
Proof.
  intros Hc. unfold rstrip. simpl.
  destruct (lstrip_app_nonspace (rev s) [] c Hc) as [u Hu].
  rewrite Hu, rev_app_distr. simpl. now exists (rev u).
Qed.

Lemma strip_head (s : pystr) :
  match strip s with
  | [] => True
  | c :: _ => is_space c = false
  end.
Proof.
  unfold strip. pose proof (lstrip_head s) as H.
  destruct (lstrip s) as [|c t]; [exact I|].
  destruct (rstrip_head c t H) as [u ->]. exact H.
Qed.

Lemma lstrip_idem (s : pystr) : lstrip (lstrip s) = lstrip s.
Proof. apply lstrip_fixed, lstrip_head. Qed.

Lemma strip_idem (s : pystr) : strip (strip s) = strip s.
Proof.
  unfold strip at 1. rewrite (lstrip_fixed (strip s) (strip_head s)).
  unfold strip, rstrip. rewrite rev_involutive, lstrip_idem. reflexivity.
Qed.

Lemma split_go_nonempty_cur (s cur : pystr) :
  cur <> [] -> split_go s cur <> [].
Proof.
  revert cur. induction s as [|c s IH]; simpl; intros cur Hcur.
  - destruct cur; [congruence|discriminate].
  - destruct (is_space c).
    + destruct cur; [congruence|discriminate].
    + apply IH. discriminate.
Qed.

(** A text that starts with a character other than whitespace has at least
    one word. *)
Lemma split_nonempty (c : ascii) (s : pystr) :
  is_space c = false -> split (c :: s) <> [].
Proof.
  intros Hc. unfold split. simpl. rewrite Hc.
  apply split_go_nonempty_cur. discriminate.
Qed.

(** ** What the feature extraction returns *)

Lemma Qmax_0_nonneg (q : Q) : (0 <= Qmax 0 q)%Q.
Proof.
  unfold Qmax. destruct (Qltb 0 q) eqn:E.
  - apply Qltb_true in E. now apply Qlt_le_weak.
  - apply Qle_refl.
Qed.

(** The scorer does not read the score already stored in the record. *)
Lemma score_ignores_stored_score (st : State) (l : Line) (s avg : Q) :
  calculate_heading_score st (set_heading_score l s) avg
  = calculate_heading_score st l avg.
Proof. reflexivity. Qed.

(** One iteration of the innermost loop either leaves the list as it is or
    appends one record with the next sequence index. *)
Lemma extract_line_step (st : State) (avg : Q) (pn : Z)
      (acc acc' : Extraction) (ld : RawLine) :
  (0 <= pn)%Z ->
  extract_line st avg pn acc ld = Ok acc' ->
  (text_lines_data acc' = text_lines_data acc /\
   next_seq_idx acc' = next_seq_idx acc) \/
  (exists r,
      text_lines_data acc' = text_lines_data acc ++ [r] /\
      next_seq_idx acc' = (next_seq_idx acc + 1)%Z /\
      seq_idx r = next_seq_idx acc /\
      page r = (pn + 1)%Z /\
      extracted_from st avg (pn + 1) r).
Proof.
  intros Hpn0. unfold extract_line.
  destruct (is_empty (line_text_of ld)) eqn:Hemp.
  { intros H; inversion H; subst. now left. }
  destruct (_is_redundant_line st (line_text_of ld) (y0 (rl_bbox ld))
              (y1 (rl_bbox ld)) pn) eqn:Hred.
  { intros H; inversion H; subst. now left. }
  match goal with
  | |- context [calculate_heading_score ?s ?c ?a] =>
      destruct (calculate_heading_score s c a) as [sc|e] eqn:Hsc
  end; simpl; intros H; [|discriminate].
  inversion H; subst; clear H. right.
  eexists. split; [reflexivity|]. split; [reflexivity|].
  split; [reflexivity|]. split; [reflexivity|].
  assert (Hstrip : strip (line_text_of ld) = line_text_of ld)
    by apply strip_idem.
  pose proof (strip_head (join (str " ") (map span_text (rl_spans ld))))
    as Hhead.
  fold (line_text_of ld) in Hhead.
  destruct (line_text_of ld) as [|c t] eqn:Ht; [discriminate|].
  unfold extracted_from. cbn [text page bbox whitespace_above word_count
                                   heading_score set_heading_score].
  split; [discriminate|]. split; [exact Hstrip|].
  split; [lia|].
  split; [replace (pn + 1 - 1)%Z with pn by lia; exact Hred|].
  split; [apply Qmax_0_nonneg|].
  split.
  - pose proof (split_nonempty c t Hhead) as Hw.
    destruct (split (c :: t)); [congruence|]. simpl. lia.
  - exists sc. split; [reflexivity|exact Hsc].
Qed.

Lemma extracted_from_pages (st : State) (avg : Q) (n m : Z) (l : Line) :
  (n <= m)%Z -> extracted_from st avg n l -> extracted_from st avg m l.
Proof.
  unfold extracted_from. intros Hnm [H1 [H2 [H3 H4]]].
  split; [assumption|]. split; [assumption|]. split; [lia|assumption].
Qed.

Lemma enumerate_from_index (A : Type) (l : list A) :
  forall i j (a : A),
    In (j, a) (enumerate_from i l) ->
    (i <= j < i + Z.of_nat (List.length l))%Z.
Proof.
  induction l as [|x l IH]; simpl; intros i j a H; [contradiction|].
  destruct H as [H|H].
  - inversion H; subst. lia.
  - apply IH in H. lia.
Qed.

Lemma foldM_inv_in (A B : Type) (f : A -> B -> result A) (I : A -> Prop)
      (l : list B) :
  (forall a b a', In b l -> I a -> f a b = Ok a' -> I a') ->
  forall a a', I a -> foldM f l a = Ok a' -> I a'.
Proof.
  induction l as [|b l IH]; simpl; intros Hstep a a' Ha H.
  - now inversion H; subst.
  - destruct (f a b) as [a1|e] eqn:E; simpl in H; [|discriminate].
    eapply IH; [| |eassumption].
    + intros; eapply Hstep; eauto.
    + eapply Hstep; eauto.
Qed.

Lemma extraction_ok_line (st : State) (avg : Q) (n pn : Z)
      (acc acc' : Extraction) (ld : RawLine) :
  (0 <= pn)%Z -> (pn + 1 <= n)%Z ->
  extraction_ok st avg n acc ->
  extract_line st avg pn acc ld = Ok acc' ->
  extraction_ok st avg n acc'.
Proof.
  intros Hpn0 Hpn [Hall [Hnext Hseq]] H.
  apply extract_line_step in H; [|assumption].
  destruct H as [[Hd Hn]|[r [Hd [Hn [Hi [Hp Hr]]]]]].
  - unfold extraction_ok. rewrite Hd, Hn. auto.
  - unfold extraction_ok. rewrite Hd, Hn. split; [|split].
    + apply Forall_app. split; [assumption|].
      constructor; [|constructor].
      now apply (extracted_from_pages st avg (pn + 1) n).
    + rewrite length_app. simpl. lia.
    + rewrite length_app, map_app, seq_app, map_app. simpl.
      rewrite Hseq, Hi, Hnext. reflexivity.
Qed.

Lemma extraction_ok_run (st : State) (doc : Doc) (acc : Extraction) :
  foldM (extract_page st (avg_doc_font_size_of doc))
        (enumerate_from 0%Z doc) (mkExtraction [] 0%Z []) = Ok acc ->
  extraction_ok st (avg_doc_font_size_of doc)
                (Z.of_nat (List.length doc)) acc.
Proof.
  apply foldM_inv_in.
  - intros a [pn pg] a' Hin Ha. apply enumerate_from_index in Hin.
    unfold extract_page.
    apply foldM_inv; [|assumption].
    intros a1 b a1' Ha1. unfold extract_block.
    destruct (b_lines b) as [ls|].
    + apply foldM_inv; [|assumption].
      intros a2 l a2' Ha2. apply extraction_ok_line; [lia|lia|assumption].
    + intros H; inversion H; subst; assumption.
  - repeat split. constructor.
Qed.

Lemma extracted_ok (st : State) (doc : Doc) (lines : list Line) :
  extract_text_lines_with_features st doc = Ok lines ->
  Forall (extracted_from st (avg_doc_font_size_of doc)
                         (Z.of_nat (List.length doc))) lines /\
  map seq_idx lines = map Z.of_nat (seq 0 (List.length lines)).
Proof.
  unfold extract_text_lines_with_features.
  destruct (foldM _ _ _) as [acc|e] eqn:E; simpl; intros H; [|discriminate].
  inversion H; subst. apply extraction_ok_run in E.
  destruct E as [H1 [_ H3]]. now split.
Qed.

Lemma extracted_all (st : State) (doc : Doc) (lines : list Line) :
  extract_text_lines_with_features st doc = Ok lines ->
  Forall (extracted_from st (avg_doc_font_size_of doc)
                         (Z.of_nat (List.length doc))) lines.
Proof. intros H. apply (extracted_ok st doc lines H). Qed.

(** X1. The feature extraction returns its lines with the sequence indices
    0, 1, 2, ... in the order of the list. *)
Theorem extracted_seq_idx (st : State) (doc : Doc) :
  exists lines,
    extract_text_lines_with_features st doc = Ok lines /\
    map seq_idx lines = map Z.of_nat (seq 0 (List.length lines)).
Proof.
  destruct (extract_returns st doc) as [lines E]. exists lines.
  split; [exact E|]. apply (extracted_ok st doc lines E).
Qed.

(** X2. No line that [_is_redundant_line] classifies as redundant, for the
    state the extraction runs with, is among the lines it returns. *)
Theorem extracted_not_redundant (st : State) (doc : Doc) :
  exists lines,
    extract_text_lines_with_features st doc = Ok lines /\
    Forall (fun l =>
              _is_redundant_line st (text l) (y0 (bbox l)) (y1 (bbox l))
                                 (page l - 1) = false) lines.
Proof.
  destruct (extract_returns st doc) as [lines E]. exists lines.
  split; [exact E|].
  eapply Forall_impl; [|exact (extracted_all st doc lines E)].
  intros l Hl. apply Hl.
Qed.

(** X3. The score stored in every extracted line is the one the scorer
    gives again for that record and the document's mean font size. *)
Theorem extracted_score_reproducible (st : State) (doc : Doc) :
  exists lines,
    extract_text_lines_with_features st doc = Ok lines /\
    Forall (fun l =>
              exists score,
                heading_score l = Some score /\
                calculate_heading_score st l (avg_doc_font_size_of doc)
                = Ok score) lines.
Proof.
  destruct (extract_returns st doc) as [lines E]. exists lines.
  split; [exact E|].
  eapply Forall_impl; [|exact (extracted_all st doc lines E)].
  intros l Hl. apply Hl.
Qed.

(** X4. Every extracted line has a non-empty text without surrounding
    whitespace, at least one word, a whitespace-above that is not negative,
    and a 1-based page number of the document. *)
Theorem extracted_well_formed (st : State) (doc : Doc) :
  exists lines,
    extract_text_lines_with_features st doc = Ok lines /\
    Forall (fun l =>
              text l <> [] /\ strip (text l) = text l /\
              (1 <= word_count l)%Z /\ (0 <= whitespace_above l)%Q /\
              (1 <= page l <= Z.of_nat (List.length doc))%Z) lines.
Proof.
  destruct (extract_returns st doc) as [lines E]. exists lines.
  split; [exact E|].
  eapply Forall_impl; [|exact (extracted_all st doc lines E)].
  intros l [H1 [H2 [H3 [_ [H5 [H6 _]]]]]]. auto.
Qed.

(** ** What the selection accepts *)

Lemma existsb_text_eqb (n : pystr) (seen : list pystr) :
  existsb (text_eqb n) seen = true <-> In n seen.
Proof.
  rewrite existsb_exists. unfold text_eqb. split.
  - intros [x [Hin H]]. destruct (list_eq_dec ascii_dec n x); [now subst|].
    discriminate.
  - intros H. exists n. split; [assumption|].
    destruct (list_eq_dec ascii_dec n n); [reflexivity|congruence].
Qed.

Lemma select_loop_NoDup (cap : nat) (cands : list Line) :
  forall final seen lb lp,
    NoDup (map norm_text_of final) ->
    (forall x, In x final -> In (norm_text_of x) seen) ->
    NoDup (map norm_text_of (select_loop cap cands final seen lb lp)).
Proof.
  induction cands as [|c cands IH]; simpl; intros final seen lb lp Hnd Hseen.
  - assumption.
  - destruct (len (norm_text_of c) <? 5)%Z; simpl; [now apply IH|].
    destruct (existsb (text_eqb (norm_text_of c)) seen) eqn:Eseen;
      [now apply IH|].
    assert (Hnew : ~ In (norm_text_of c) (map norm_text_of final)).
    { intros Hin. apply in_map_iff in Hin. destruct Hin as [x [Hx Hin]].
      apply Hseen in Hin. rewrite Hx in Hin.
      apply existsb_text_eqb in Hin. congruence. }
    assert (Hnd' : NoDup (map norm_text_of (final ++ [c]))).
    { rewrite map_app. simpl. apply Permutation_NoDup with
        (l := norm_text_of c :: map norm_text_of final).
      - apply Permutation_cons_append.
      - now constructor. }
    destruct (close_duplicate _ _ _ _); [now apply IH|].
    destruct (_ <=? _)%nat; [assumption|].
    apply IH; [assumption|].
    intros x Hx. apply in_app_iff in Hx. destruct Hx as [Hx|[<-|[]]].
    + right. now apply Hseen.
    + now left.
Qed.

(** X5. No two accepted headings have the same text once whitespace runs
    are collapsed and case is folded. *)
Theorem accepted_texts_distinct (text_lines : list Line) :
  NoDup (map norm_text_of (select_headings text_lines)).
Proof.
  unfold select_headings. apply select_loop_NoDup.
  - constructor.
  - intros x [].
Qed.

Lemma select_loop_accepts (P : Line -> Prop) (cap : nat) (cands : list Line) :
  forall final seen lb lp,
    Forall P cands ->
    Forall (fun h => P h /\ (5 <= len (norm_text_of h))%Z) final ->
    Forall (fun h => P h /\ (5 <= len (norm_text_of h))%Z)
           (select_loop cap cands final seen lb lp).
Proof.
  induction cands as [|c cands IH]; simpl; intros final seen lb lp Hc Hf.
  - assumption.
  - inversion Hc as [|? ? Hc1 Hc2]; subst.
    destruct (len (norm_text_of c) <? 5)%Z eqn:Elen; simpl; [now apply IH|].
    apply Z.ltb_ge in Elen.
    assert (Hf' : Forall (fun h => P h /\ (5 <= len (norm_text_of h))%Z)
                         (final ++ [c])).
    { apply Forall_app. split; [assumption|]. constructor; [now split|].
      constructor. }
    destruct (existsb _ seen); [now apply IH|].
    destruct (close_duplicate _ _ _ _); [now apply IH|].
    destruct (_ <=? _)%nat; [assumption|now apply IH].
Qed.

Lemma select_headings_accepts (text_lines : list Line) :
  Forall (fun h =>
            (In h text_lines /\
             (HEADING_SCORE_THRESHOLD <= get (heading_score h) 0)%Q) /\
            (5 <= len (norm_text_of h))%Z)
         (select_headings text_lines).
Proof.
  unfold select_headings. apply select_loop_accepts; [|constructor].
  apply Forall_sorted. unfold heading_candidates_of. apply Forall_sorted.
  apply Forall_forall. intros h Hh. apply filter_In in Hh.
  destruct Hh as [Hin Hc]. split; [assumption|].
  unfold is_candidate, Qgeb in Hc. now apply Qle_bool_iff.
Qed.

(** X6. Every accepted heading is one of the extracted lines, has a score
    of at least 75, and a normalised text of at least 5 characters. *)
Theorem accepted_are_candidates (text_lines : list Line) :
  Forall (fun h =>
            (In h text_lines /\
             (HEADING_SCORE_THRESHOLD <= get (heading_score h) 0)%Q) /\
            (5 <= len (norm_text_of h))%Z)
         (select_headings text_lines).
Proof. apply select_headings_accepts. Qed.

Lemma page_ypos_le_order (a b : Line) :
  page_ypos_le a b = true <-> page_ypos_order a b.
Proof.
  unfold page_ypos_le, page_ypos_order.
  rewrite orb_true_iff, andb_true_iff, Z.ltb_lt, Z.eqb_eq, Qleb_true.
  reflexivity.
Qed.

Lemma page_ypos_le_total (a b : Line) :
  page_ypos_le a b = true \/ page_ypos_le b a = true.
Proof.
  rewrite !page_ypos_le_order. unfold page_ypos_order.
  destruct (Z.lt_trichotomy (page a) (page b)) as [H|[H|H]]; auto.
  destruct (Qlt_le_dec (y_pos b) (y_pos a)) as [Hlt|Hle].
  - right. right. split; [now symmetry|]. now apply Qlt_le_weak.
  - left. right. now split.
Qed.

Lemma page_ypos_order_trans (a b c : Line) :
  page_ypos_order a b -> page_ypos_order b c -> page_ypos_order a c.
Proof.
  unfold page_ypos_order.
  intros [H1|[H1 H1']] [H2|[H2 H2']].
  - left. lia.
  - left. lia.
  - left. lia.
  - right. split; [congruence|]. eapply Qle_trans; eassumption.
Qed.

Lemma StronglySorted_drop (A : Type) (R : A -> A -> Prop) (l1 : list A) :
  forall x l2,
    StronglySorted R (l1 ++ x :: l2) -> StronglySorted R (l1 ++ l2).
Proof.
  induction l1 as [|a l1 IH]; simpl; intros x l2 H.
  - now inversion H.
  - inversion H as [|? ? Hs Hall]; subst. constructor; [now apply IH with x|].
    apply Forall_app in Hall. destruct Hall as [H1 H2].
    apply Forall_app. split; [assumption|]. now inversion H2.
Qed.

Lemma StronglySorted_prefix (A : Type) (R : A -> A -> Prop) (l1 : list A) :
  forall l2, StronglySorted R (l1 ++ l2) -> StronglySorted R l1.
Proof.
  induction l1 as [|a l1 IH]; simpl; intros l2 H; [constructor|].
  inversion H as [|? ? Hs Hall]; subst. constructor; [now apply IH with l2|].
  apply Forall_app in Hall. apply Hall.
Qed.

Lemma select_loop_sorted (R : Line -> Line -> Prop) (cap : nat)
      (cands : list Line) :
  forall final seen lb lp,
    StronglySorted R (final ++ cands) ->
    StronglySorted R (select_loop cap cands final seen lb lp).
Proof.
  induction cands as [|c cands IH]; simpl; intros final seen lb lp H.
  - now rewrite app_nil_r in H.
  - pose proof (StronglySorted_drop _ R final c cands H) as Hskip.
    assert (Htake : StronglySorted R ((final ++ [c]) ++ cands))
      by now rewrite <- app_assoc.
    destruct (_ || _); [now apply IH|].
    destruct (close_duplicate _ _ _ _); [now apply IH|].
    destruct (_ <=? _)%nat; [|now apply IH].
    now apply StronglySorted_prefix with cands.
Qed.

(** X7. The accepted headings are in non-decreasing (page, y) order. *)
Theorem accepted_in_spatial_order (text_lines : list Line) :
  StronglySorted page_ypos_order (select_headings text_lines).
Proof.
  unfold select_headings. apply select_loop_sorted. simpl.
  apply Sorted_StronglySorted.
  - intros a b c. apply page_ypos_order_trans.
  - apply Sorted_weaken with (R1 := fun a b => page_ypos_le a b = true).
    + intros a b. apply page_ypos_le_order.
    + apply sorted_Sorted. apply page_ypos_le_total.
Qed.

(** ** What the merge keeps *)

Lemma total_words_app (a b : list Line) :
  total_words (a ++ b) = (total_words a + total_words b)%Z.
Proof.
  induction a as [|h a IH]; simpl; [reflexivity|]. rewrite IH. lia.
Qed.

Lemma total_words_perm (a b : list Line) :
  Permutation a b -> total_words a = total_words b.
Proof.
  induction 1; simpl; lia.
Qed.

Lemma merge_fold_words (others : list Line) :
  forall emitted cur,
    let r := fold_left merge_step others (emitted, cur) in
    (total_words (fst r) + word_count (snd r)
     = total_words emitted + word_count cur + total_words others)%Z.
Proof.
  induction others as [|n others IH]; simpl; intros emitted cur.
  - lia.
  - destruct (earlier_break cur n).
    + rewrite IH, total_words_app. simpl. lia.
    + destruct (break_not_bold cur n).
      * rewrite IH, total_words_app. simpl. lia.
      * rewrite IH. simpl. lia.
Qed.

(** X8. Merging neither loses nor invents words: the word counts of the
    merged headings add up to those of the headings given. *)
Theorem merge_keeps_words (hs : list Line) :
  total_words (merge_multiline_headings hs) = total_words hs.
Proof.
  unfold merge_multiline_headings.
  rewrite <- (total_words_perm _ _ (sorted_perm _ page_top_le hs)).
  destruct (PySort.sorted page_top_le hs) as [|first others]; [reflexivity|].
  pose proof (merge_fold_words others [] first) as H. cbv zeta in H.
  destruct (fold_left merge_step others ([], first)) as [emitted cur].
  simpl in *. rewrite total_words_app. simpl. lia.
Qed.

Lemma merged_with_candidate (a b : Line) :
  is_candidate a = true -> is_candidate (merged_with a b) = true.
Proof.
  unfold is_candidate, Qgeb. simpl. intros Ha.
  apply Qle_bool_iff in Ha. apply Qle_bool_iff.
  unfold Qmax. destruct (Qltb _ _) eqn:E; [|assumption].
  apply Qltb_true in E. eapply Qle_trans; [eassumption|].
  now apply Qlt_le_weak.
Qed.

(** X9. Every merged heading of a run still has a score of at least 75:
    merging keeps the larger score of the parts. *)
Theorem merged_clear_threshold (text_lines : list Line) :
  Forall (fun h => (HEADING_SCORE_THRESHOLD <= get (heading_score h) 0)%Q)
         (merged_sorted text_lines).
Proof.
  unfold merged_sorted. apply Forall_sorted.
  eapply Forall_impl with (P := fun h => is_candidate h = true).
  - intros h Hh. unfold is_candidate, Qgeb in Hh. now apply Qle_bool_iff.
  - apply merge_Forall; [apply merged_with_candidate|].
    eapply Forall_impl; [|apply select_headings_accepts].
    intros h [[_ Hh] _]. unfold is_candidate, Qgeb. now apply Qle_bool_iff.
Qed.

(** ** The order of the merged headings *)

Lemma key_order_trans (a b c : Z * Q) :
  key_order a b -> key_order b c -> key_order a c.
Proof.
  unfold key_order.
  intros [H1|[H1 H1']] [H2|[H2 H2']].
  - left. lia.
  - left. lia.
  - left. lia.
  - right. split; [congruence|]. eapply Qle_trans; eassumption.
Qed.

Lemma page_top_order_keys (a b : Line) :
  page_top_order a b <-> key_order (top_key a) (top_key b).
Proof. reflexivity. Qed.

(** A line merged into the accumulator leaves the accumulator's key as it
    was, when the line does not precede it. *)
Lemma merged_with_key (cur n : Line) :
  break_page cur n = false ->
  key_order (top_key cur) (top_key n) ->
  top_key (merged_with cur n) = top_key cur.
Proof.
  unfold break_page, key_order, top_key. simpl. intros Hp Hk.
  apply negb_false_iff, Z.eqb_eq in Hp.
  destruct Hk as [Hk|[_ Hk]]; [lia|].
  unfold Qmin.
  assert (E : Qltb (y0 (bbox n)) (y0 (bbox cur)) = false).
  { destruct (Qltb (y0 (bbox n)) (y0 (bbox cur))) eqn:E; [|reflexivity].
    apply Qltb_true in E. exfalso. now apply (Qlt_not_le _ _ E). }
  now rewrite E.
Qed.

Lemma StronglySorted_suffix (A : Type) (R : A -> A -> Prop) (l1 : list A) :
  forall l2, StronglySorted R (l1 ++ l2) -> StronglySorted R l2.
Proof.
  induction l1 as [|a l1 IH]; simpl; intros l2 H; [assumption|].
  inversion H; subst. now apply IH.
Qed.

Lemma merge_fold_keys (others : list Line) :
  forall emitted cur,
    StronglySorted key_order (map top_key (emitted ++ cur :: others)) ->
    let r := fold_left merge_step others (emitted, cur) in
    StronglySorted key_order (map top_key (fst r ++ [snd r])).
Proof.
  induction others as [|n others IH]; simpl; intros emitted cur H.
  - assumption.
  - assert (Hbreak : StronglySorted key_order
                       (map top_key ((emitted ++ [cur]) ++ n :: others)))
      by now rewrite <- app_assoc.
    destruct (earlier_break cur n) eqn:Eb; [now apply IH|].
    destruct (break_not_bold cur n); [now apply IH|].
    rewrite map_app in H. simpl in H.
    assert (Hcn : key_order (top_key cur) (top_key n)).
    { apply StronglySorted_suffix in H.
      inversion H as [|? ? _ Hall]; subst. now inversion Hall. }
    assert (Hp : break_page cur n = false).
    { unfold earlier_break in Eb.
      destruct (break_page cur n); [discriminate|reflexivity]. }
    apply IH. rewrite map_app. simpl.
    rewrite (merged_with_key cur n Hp Hcn).
    pose proof (StronglySorted_drop _ key_order
                  (map top_key emitted ++ [top_key cur]) (top_key n)
                  (map top_key others)) as Hd.
    rewrite <- !app_assoc in Hd. simpl in Hd. now apply Hd.
Qed.

Lemma sorted_fixed (A : Type) (le : A -> A -> bool) (l : list A) :
  Sorted (fun a b => le a b = true) l -> PySort.sorted le l = l.
Proof.
  induction 1 as [|x l Hs IH Hhd]; simpl; [reflexivity|].
  rewrite IH. destruct Hhd as [|y l' Hxy]; simpl; [reflexivity|].
  now rewrite Hxy.
Qed.

(** X11. The headings leave the merge in (page, top) order already: sorting
    them again, as [process_pdf] does, changes nothing. *)
Theorem resort_after_merge_is_identity (hs : list Line) :
  PySort.sorted page_top_le (merge_multiline_headings hs)
  = merge_multiline_headings hs.
Proof.
  apply sorted_fixed. unfold merge_multiline_headings.
  assert (Hs : StronglySorted key_order
                 (map top_key (PySort.sorted page_top_le hs))).
  { assert (H0 : StronglySorted page_top_order (PySort.sorted page_top_le hs)).
    { apply Sorted_StronglySorted.
      - intros a b c. apply page_top_order_trans.
      - apply Sorted_weaken with (R1 := fun a b => page_top_le a b = true).
        + intros a b. apply page_top_le_order.
        + apply sorted_Sorted. apply page_top_le_total. }
    induction H0 as [|a l _ IH Hall]; simpl; constructor; [assumption|].
    apply Forall_map. eapply Forall_impl; [|exact Hall].
    intros b Hb. exact Hb. }
  destruct (PySort.sorted page_top_le hs) as [|first others]; [constructor|].
  pose proof (merge_fold_keys others [] first Hs) as H. cbv zeta in H.
  destruct (fold_left merge_step others ([], first)) as [emitted cur].
  simpl in H.
  apply StronglySorted_Sorted in H.
  remember (emitted ++ [cur]) as l eqn:El. clear El.
  induction l as [|a l IH]; [constructor|].
  simpl in H. inversion H as [|? ? Hs' Hhd]; subst.
  constructor; [now apply IH|].
  destruct l as [|b l]; constructor.
  inversion Hhd; subst. now apply page_top_le_order.
Qed.

(** ** Where a merged heading starts *)

(** Headings already emitted are not touched by the rest of the loop. *)
Lemma merge_fold_prefix (others : list Line) :
  forall done emitted cur,
    fold_left merge_step others (done ++ emitted, cur)
    = (done ++ fst (fold_left merge_step others (emitted, cur)),
       snd (fold_left merge_step others (emitted, cur))).
Proof.
  induction others as [|n others IH]; simpl; intros done emitted cur.
  - reflexivity.
  - destruct (earlier_break cur n).
    + rewrite <- app_assoc. apply IH.
    + destruct (break_not_bold cur n).
      * rewrite <- app_assoc. apply IH.
      * apply IH.
Qed.

(** The first heading the loop gives is its first accumulator with lines
    appended: it keeps the sequence index and the top of that line, and
    its text begins with the text of that line. *)
Lemma merge_fold_head (others : list Line) :
  forall cur,
    exists m rest tail,
      fst (fold_left merge_step others ([], cur))
      ++ [snd (fold_left merge_step others ([], cur))] = m :: rest /\
      seq_idx m = seq_idx cur /\ y_pos m = y_pos cur /\
      text m = text cur ++ tail.
Proof.
  induction others as [|n others IH]; simpl; intros cur.
  - exists cur, [], []. now rewrite app_nil_r.
  - assert (Hbreak :
      exists m rest tail,
        fst (fold_left merge_step others ([cur], n))
        ++ [snd (fold_left merge_step others ([cur], n))] = m :: rest /\
        seq_idx m = seq_idx cur /\ y_pos m = y_pos cur /\
        text m = text cur ++ tail).
    { pose proof (merge_fold_prefix others [cur] [] n) as P. simpl in P.
      rewrite P. simpl.
      eexists cur, _, []. rewrite app_nil_r. now repeat split. }
    destruct (earlier_break cur n); [exact Hbreak|].
    destruct (break_not_bold cur n); [exact Hbreak|].
    destruct (IH (merged_with cur n)) as [m [rest [tail [E [Hs [Hy Ht]]]]]].
    exists m, rest, (str " " ++ strip (text n) ++ tail).
    split; [exact E|]. split; [exact Hs|]. split; [exact Hy|].
    rewrite Ht. simpl. now rewrite <- !app_assoc.
Qed.

(** At a line that starts with an enumeration the loop closes the heading
    it was building and starts the next one with that line. *)
Lemma merge_fold_split (pre post : list Line) (h : Line) :
  has_enum h = true ->
  forall emitted cur,
    fold_left merge_step (pre ++ h :: post) (emitted, cur)
    = fold_left merge_step post
        (fst (fold_left merge_step pre (emitted, cur))
         ++ [snd (fold_left merge_step pre (emitted, cur))], h).
Proof.
  intros Henum emitted cur. rewrite fold_left_app. simpl.
  destruct (fold_left merge_step pre (emitted, cur)) as [e1 c1]. simpl.
  assert (Hb : earlier_break c1 h = true).
  { unfold earlier_break, break_enum. rewrite Henum.
    now rewrite !orb_true_r. }
  now rewrite Hb.
Qed.

Lemma Sorted_app_inv (A : Type) (R : A -> A -> Prop) (l1 l2 : list A) :
  Sorted R (l1 ++ l2) -> Sorted R l1 /\ Sorted R l2.
Proof.
  induction l1 as [|a l1 IH]; simpl; intros H.
  - split; [constructor|assumption].
  - inversion H as [|? ? Hs Hhd]; subst.
    destruct (IH Hs) as [H1 H2]. split; [|assumption].
    constructor; [assumption|].
    destruct l1 as [|b l1]; constructor. now inversion Hhd.
Qed.

(** X10. A line that starts with an enumeration is never appended to the
    heading before it.  Where such a line [h] stands in the sorted input,
    the merge splits: the lines before [h] give the headings they give
    alone, and [h] opens the heading that follows them, which keeps the
    sequence index and the top of [h] and whose text begins with the text
    of [h]. *)
Theorem enumerated_line_starts_heading (hs pre post : list Line) (h : Line) :
  PySort.sorted page_top_le hs = pre ++ h :: post ->
  has_enum h = true ->
  exists m rest tail,
    merge_multiline_headings (h :: post) = m :: rest /\
    merge_multiline_headings hs = merge_multiline_headings pre ++ m :: rest /\
    seq_idx m = seq_idx h /\ y_pos m = y_pos h /\
    text m = text h ++ tail.
Proof.
  intros Hs Henum.
  assert (Hsorted : Sorted (fun a b => page_top_le a b = true)
                           (pre ++ h :: post)).
  { rewrite <- Hs. apply sorted_Sorted. apply page_top_le_total. }
  destruct (Sorted_app_inv _ _ _ _ Hsorted) as [Hpre Hpost].
  apply sorted_fixed in Hpre. apply sorted_fixed in Hpost.
  destruct (merge_fold_head post h) as [m [rest [tail [E [Hi [Hy Ht]]]]]].
  exists m, rest, tail.
  assert (Eh : merge_multiline_headings (h :: post) = m :: rest).
  { unfold merge_multiline_headings. rewrite Hpost.
    destruct (fold_left merge_step post ([], h)) as [e2 c2]. exact E. }
  split; [exact Eh|]. split; [|now repeat split].
  rewrite <- Eh.
  unfold merge_multiline_headings at 1 2. rewrite Hs, Hpre.
  destruct pre as [|first pre'].
  - simpl. unfold merge_multiline_headings. now rewrite Hpost.
  - simpl. rewrite (merge_fold_split pre' post h Henum).
    destruct (fold_left merge_step pre' ([], first)) as [e1 c1]. simpl.
    pose proof (merge_fold_prefix post (e1 ++ [c1]) [] h) as P.
    rewrite app_nil_r in P. rewrite P.
    unfold merge_multiline_headings. rewrite Hpost.
    destruct (fold_left merge_step post ([], h)) as [e2 c2]. simpl.
    now rewrite <- !app_assoc.
Qed.

(** ** Batches *)

(** X12. A batch is processed document by document: each result is the one
    a fresh extractor gives for that document alone, whatever came before
    it and whether or not earlier documents failed. *)
Theorem batch_results_are_independent (inputs : list (result Doc)) :
  forall st,
    fst (process_all st inputs)
    = map (fun opened => fst (process_pdf initial_state opened)) inputs.
Proof.
  induction inputs as [|opened rest IH]; simpl; intros st; [reflexivity|].
  destruct (process_pdf st opened) as [r st'] eqn:E.
  specialize (IH st').
  destruct (process_all st' rest) as [rs st'']. simpl in *.
  rewrite <- IH. f_equal.
  change r with (fst (r, st')). rewrite <- E. reflexivity.
Qed.

(** ** The first pass *)

Lemma lookup_store_same (V : Type) (k : Z) (v : V) (d : list (Z * V)) :
  lookup Z.eqb k (store Z.eqb k v d) = Some v.
Proof.
  induction d as [|[k' v'] d IH]; simpl.
  - now rewrite Z.eqb_refl.
  - destruct (k =? k')%Z eqn:E; simpl.
    + now rewrite Z.eqb_refl.
    + now rewrite E.
Qed.

Lemma lookup_store_other (V : Type) (k j : Z) (v : V) (d : list (Z * V)) :
  j <> k -> lookup Z.eqb j (store Z.eqb k v d) = lookup Z.eqb j d.
Proof.
  intros Hjk. induction d as [|[k' v'] d IH]; simpl.
  - apply Z.eqb_neq in Hjk. now rewrite Hjk.
  - destruct (k =? k')%Z eqn:E; simpl.
    + apply Z.eqb_eq in E. subst k'.
      apply Z.eqb_neq in Hjk. now rewrite Hjk.
    + destruct (j =? k')%Z; [reflexivity|exact IH].
Qed.

Lemma hf_scan_page_dims (pts : Z) (st : State) (ip : Z * Page) :
  _page_dimensions (hf_scan_page pts st ip)
  = store Z.eqb (fst ip) (p_width (snd ip), p_height (snd ip))
          (_page_dimensions st).
Proof. destruct ip as [pn pg]. reflexivity. Qed.

Lemma hf_scan_page_total (pts : Z) (st : State) (ip : Z * Page) :
  _total_pages_in_doc (hf_scan_page pts st ip) = _total_pages_in_doc st.
Proof. destruct ip as [pn pg]. reflexivity. Qed.

Lemma scan_total (pts : Z) (l : list (Z * Page)) :
  forall st,
    _total_pages_in_doc (fold_left (hf_scan_page pts) l st)
    = _total_pages_in_doc st.
Proof.
  induction l as [|ip l IH]; simpl; intros st; [reflexivity|].
  now rewrite IH, hf_scan_page_total.
Qed.

Lemma scan_dims_other (pts : Z) (l : list (Z * Page)) (j : Z) :
  forall st,
    (forall ip, In ip l -> fst ip <> j) ->
    lookup Z.eqb j (_page_dimensions (fold_left (hf_scan_page pts) l st))
    = lookup Z.eqb j (_page_dimensions st).
Proof.
  induction l as [|ip l IH]; simpl; intros st H; [reflexivity|].
  rewrite IH by (intros; apply H; now right).
  rewrite hf_scan_page_dims. apply lookup_store_other.
  intros E. apply (H ip); [now left|now symmetry].
Qed.

Lemma scan_dims (pts : Z) (pages : list Page) :
  forall (i : Z) st n p,
    nth_error pages n = Some p ->
    lookup Z.eqb (i + Z.of_nat n)%Z
      (_page_dimensions
         (fold_left (hf_scan_page pts) (enumerate_from i pages) st))
    = Some (p_width p, p_height p).
Proof.
  induction pages as [|pg pages IH]; intros i st n p Hn.
  - destruct n; discriminate.
  - destruct n as [|n]; simpl in Hn.
    + inversion Hn; subst. cbn [enumerate_from fold_left].
      rewrite scan_dims_other.
      * rewrite hf_scan_page_dims. cbn [fst snd Z.of_nat].
        replace (i + 0)%Z with i by lia. apply lookup_store_same.
      * intros [j q] Hin. apply enumerate_from_index in Hin. simpl. lia.
    + cbn [enumerate_from fold_left].
      replace (i + Z.of_nat (S n))%Z with ((i + 1) + Z.of_nat n)%Z by lia.
      now apply IH.
Qed.

(** X13. After the first pass the state holds the page count of the
    document and, for every page, its width and height under its index,
    whatever the state held before. *)
Theorem first_pass_records_pages (st : State) (doc : Doc) :
  let st' := _pre_process_for_hf_detection st doc in
  _total_pages_in_doc st' = Z.of_nat (List.length doc) /\
  forall n p,
    nth_error doc n = Some p ->
    lookup Z.eqb (Z.of_nat n) (_page_dimensions st')
    = Some (p_width p, p_height p).
Proof.
  cbv zeta. unfold _pre_process_for_hf_detection. split.
  - now rewrite scan_total.
  - intros n p Hn.
    change (Z.of_nat n) with (0 + Z.of_nat n)%Z. now apply scan_dims.
Qed.

(** The census is a sequence of [+= 1] on the keys of the pages. *)

Lemma hf_scan_line_key (pn pts : Z) (h : Q) (hf : list (HFKey * Z))
      (l : RawLine) :
  hf_scan_line pn pts h hf l
  = match census_key pn pts h l with
    | Some k => bump k hf
    | None => hf
    end.
Proof.
  unfold hf_scan_line, census_key.
  destruct (is_empty (line_text_of l)); [reflexivity|].
  destruct (_ && _); [|reflexivity].
  destruct (_ && _); reflexivity.
Qed.

Lemma fold_bump_app (a b : list HFKey) (hf : list (HFKey * Z)) :
  fold_left (fun d k => bump k d) (a ++ b) hf
  = fold_left (fun d k => bump k d) b (fold_left (fun d k => bump k d) a hf).
Proof. apply fold_left_app. Qed.

Lemma scan_lines_keys (pn pts : Z) (h : Q) (ls : list RawLine) :
  forall hf,
    fold_left (hf_scan_line pn pts h) ls hf
    = fold_left (fun d k => bump k d)
        (flat_map (fun l => match census_key pn pts h l with
                            | Some k => [k] | None => [] end) ls) hf.
Proof.
  induction ls as [|l ls IH]; simpl; intros hf; [reflexivity|].
  rewrite fold_bump_app, <- IH, hf_scan_line_key.
  destruct (census_key pn pts h l); reflexivity.
Qed.

Lemma scan_page_keys (pts : Z) (st : State) (ip : Z * Page) :
  _hf_candidates (hf_scan_page pts st ip)
  = fold_left (fun d k => bump k d) (page_census_keys pts ip)
              (_hf_candidates st).
Proof.
  destruct ip as [pn pg]. unfold hf_scan_page, page_census_keys. simpl.
  generalize (_hf_candidates st).
  induction (p_blocks pg) as [|b bs IH]; simpl; intros hf; [reflexivity|].
  rewrite fold_bump_app, <- IH. f_equal.
  unfold hf_scan_block. destruct (b_lines b) as [ls|]; simpl.
  - apply scan_lines_keys.
  - reflexivity.
Qed.

Lemma scan_keys (pts : Z) (l : list (Z * Page)) :
  forall st,
    _hf_candidates (fold_left (hf_scan_page pts) l st)
    = fold_left (fun d k => bump k d) (flat_map (page_census_keys pts) l)
                (_hf_candidates st).
Proof.
  induction l as [|ip l IH]; simpl; intros st; [reflexivity|].
  now rewrite fold_bump_app, IH, scan_page_keys.
Qed.

Lemma census_key_late (pn pts : Z) (h : Q) (l : RawLine) :
  (pts <= pn)%Z -> census_key pn pts h l = None.
Proof.
  intros H. unfold census_key.
  destruct (is_empty (line_text_of l)); [reflexivity|].
  assert (E : (pn <? pts)%Z = false) by now apply Z.ltb_ge.
  rewrite E, andb_false_r. reflexivity.
Qed.

Lemma page_census_keys_late (pts : Z) (ip : Z * Page) :
  (pts <= fst ip)%Z -> page_census_keys pts ip = [].
Proof.
  intros H. unfold page_census_keys.
  induction (p_blocks (snd ip)) as [|b bs IH]; simpl; [reflexivity|].
  rewrite IH, app_nil_r.
  induction (get (b_lines b) []) as [|l ls IHl]; simpl; [reflexivity|].
  now rewrite IHl, census_key_late.
Qed.

Lemma enumerate_from_app (A : Type) (a b : list A) :
  forall i : Z,
    enumerate_from i (a ++ b)
    = enumerate_from i a ++ enumerate_from (i + Z.of_nat (List.length a))%Z b.
Proof.
  induction a as [|x a IH]; simpl; intros i.
  - now replace (i + 0)%Z with i by lia.
  - rewrite IH. do 3 f_equal. lia.
Qed.

Lemma late_pages_no_keys (pts : Z) (pages : list Page) :
  forall i : Z, (pts <= i)%Z ->
            flat_map (page_census_keys pts) (enumerate_from i pages) = [].
Proof.
  induction pages as [|p pages IH]; simpl; intros i Hi; [reflexivity|].
  rewrite page_census_keys_late by (simpl; lia).
  apply IH. lia.
Qed.

(** X14. Only the first ten pages feed the census: the counts after the
    first pass are those of the document cut after its tenth page. *)
Theorem census_reads_first_ten_pages (st : State) (doc : Doc) :
  _hf_candidates (_pre_process_for_hf_detection st doc)
  = _hf_candidates (_pre_process_for_hf_detection st (firstn 10 doc)).
Proof.
  unfold _pre_process_for_hf_detection. rewrite !scan_keys.
  cbn [_hf_candidates].
  assert (Hpts : Z.min (Z.of_nat (List.length (firstn 10 doc))) 10
                 = Z.min (Z.of_nat (List.length doc)) 10).
  { rewrite length_firstn. lia. }
  rewrite Hpts. set (pts := Z.min (Z.of_nat (List.length doc)) 10).
  f_equal.
  assert (E : enumerate_from 0%Z doc
              = enumerate_from 0%Z (firstn 10 doc)
                ++ enumerate_from (0 + Z.of_nat (List.length (firstn 10 doc)))%Z
                                  (skipn 10 doc)).
  { now rewrite <- enumerate_from_app, firstn_skipn. }
  rewrite E, flat_map_app.
  rewrite (late_pages_no_keys pts (skipn 10 doc)); [now rewrite app_nil_r|].
  rewrite length_firstn. unfold pts. lia.
Qed.

(** ** Counting in the census *)

Lemma text_eqb_eq (a b : pystr) : text_eqb a b = true <-> a = b.
Proof.
  unfold text_eqb. destruct (list_eq_dec ascii_dec a b); split;
    intros; congruence.
Qed.

Lemma hfkey_eqb_eq (a b : HFKey) : hfkey_eqb a b = true <-> a = b.
Proof.
  destruct a as [[ta ya] za], b as [[tb yb] zb]. unfold hfkey_eqb.
  rewrite !andb_true_iff, text_eqb_eq, Z.eqb_eq, Bool.eqb_true_iff.
  split.
  - intros [[-> ->] ->]. reflexivity.
  - intros H. inversion H. auto.
Qed.

Lemma hfkey_eqb_refl (a : HFKey) : hfkey_eqb a a = true.
Proof. now apply hfkey_eqb_eq. Qed.

Lemma hf_lookup_store_same (k : HFKey) (v : Z) (d : list (HFKey * Z)) :
  lookup hfkey_eqb k (store hfkey_eqb k v d) = Some v.
Proof.
  induction d as [|[k' v'] d IH]; simpl.
  - now rewrite hfkey_eqb_refl.
  - destruct (hfkey_eqb k k') eqn:E; simpl.
    + now rewrite hfkey_eqb_refl.
    + now rewrite E.
Qed.

Lemma hf_lookup_store_other (k j : HFKey) (v : Z) (d : list (HFKey * Z)) :
  hfkey_eqb j k = false ->
  lookup hfkey_eqb j (store hfkey_eqb k v d) = lookup hfkey_eqb j d.
Proof.
  intros Hjk. induction d as [|[k' v'] d IH]; simpl.
  - now rewrite Hjk.
  - destruct (hfkey_eqb k k') eqn:E; simpl.
    + apply hfkey_eqb_eq in E. subst k'. now rewrite Hjk.
    + destruct (hfkey_eqb j k'); [reflexivity|exact IH].
Qed.

(** [d[k] += 1] adds one to the count of [k], absent keys counting 0, and
    leaves the other keys alone. *)
Lemma bump_same (k : HFKey) (d : list (HFKey * Z)) :
  lookup hfkey_eqb k (bump k d)
  = Some (get (lookup hfkey_eqb k d) 0 + 1)%Z.
Proof.
  unfold bump. destruct (lookup hfkey_eqb k d) as [n|]; simpl;
    apply hf_lookup_store_same.
Qed.

Lemma bump_other (k j : HFKey) (d : list (HFKey * Z)) :
  hfkey_eqb j k = false ->
  lookup hfkey_eqb j (bump k d) = lookup hfkey_eqb j d.
Proof.
  intros H. unfold bump.
  destruct (lookup hfkey_eqb k d); now apply hf_lookup_store_other.
Qed.

Lemma fold_bump_count (ks : list HFKey) (j : HFKey) :
  forall d,
    get (lookup hfkey_eqb j (fold_left (fun d k => bump k d) ks d)) 0%Z
    = (get (lookup hfkey_eqb j d) 0 + key_count j ks)%Z.
Proof.
  unfold key_count.
  induction ks as [|k ks IH]; intros d; cbn [fold_left filter].
  - simpl. lia.
  - rewrite IH. destruct (hfkey_eqb j k) eqn:E.
    + apply hfkey_eqb_eq in E. subst k. rewrite bump_same.
      cbn [get List.length]. lia.
    + rewrite (bump_other k j d E). lia.
Qed.

Lemma key_count_app (j : HFKey) (a b : list HFKey) :
  key_count j (a ++ b) = (key_count j a + key_count j b)%Z.
Proof. unfold key_count. rewrite filter_app, length_app. lia. Qed.

Lemma key_count_NoDup (j : HFKey) (ks : list HFKey) :
  NoDup ks -> (key_count j ks <= 1)%Z.
Proof.
  unfold key_count. induction 1 as [|k ks Hnin Hnd IH]; cbn [filter];
    [simpl; lia|].
  destruct (hfkey_eqb j k) eqn:E; [|exact IH].
  apply hfkey_eqb_eq in E. subst k.
  assert (Hz : filter (hfkey_eqb j) ks = []).
  { clear IH Hnd. induction ks as [|x ks IHk]; simpl; [reflexivity|].
    destruct (hfkey_eqb j x) eqn:Ex.
    - apply hfkey_eqb_eq in Ex. subst x. exfalso. apply Hnin. now left.
    - apply IHk. intros Hin. apply Hnin. now right. }
  rewrite Hz. simpl. lia.
Qed.

Lemma census_count_pages (pts : Z) (j : HFKey) (l : list (Z * Page)) :
  Forall (fun ip => NoDup (page_census_keys pts ip)) l ->
  (key_count j (flat_map (page_census_keys pts) l)
   <= Z.of_nat (List.length l))%Z.
Proof.
  induction 1 as [|ip l Hip Hl IH]; simpl; [unfold key_count; simpl; lia|].
  rewrite key_count_app. pose proof (key_count_NoDup j _ Hip). lia.
Qed.

Lemma enumerate_from_length (A : Type) (l : list A) :
  forall i : Z, List.length (enumerate_from i l) = List.length l.
Proof.
  induction l as [|a l IH]; simpl; intros i; [reflexivity|]. now rewrite IH.
Qed.

(** When no page counts two lines under one key, no count of a run's
    census exceeds the number of pages. *)
Lemma census_count_bound (st : State) (doc : Doc) (k : HFKey) (c : Z) :
  one_line_per_key doc ->
  lookup hfkey_eqb k
    (_hf_candidates (_pre_process_for_hf_detection (_reset_state st) doc))
  = Some c ->
  (c <= Z.of_nat (List.length doc))%Z.
Proof.
  intros Hone Hk. unfold _pre_process_for_hf_detection in Hk.
  rewrite scan_keys in Hk. cbn [_hf_candidates _reset_state] in Hk.
  pose proof (fold_bump_count
                (flat_map
                   (page_census_keys (Z.min (Z.of_nat (List.length doc)) 10))
                   (enumerate_from 0%Z doc)) k []) as Hc.
  rewrite Hk in Hc. simpl in Hc.
  pose proof (census_count_pages _ k _ Hone) as Hb.
  rewrite enumerate_from_length in Hb. lia.
Qed.

(** X15. On a document of fewer than 3 pages in which no page has two
    counted lines with the same key, the repetition rule classifies no
    line as redundant. *)
Theorem short_document_not_repetitive (st : State) (doc : Doc) (t : pystr)
        (y_top : Q) (in_top_zone : bool) :
  (List.length doc < 3)%nat -> one_line_per_key doc ->
  repetition_rule
    (_pre_process_for_hf_detection (_reset_state st) doc) t y_top in_top_zone
  = false.
Proof.
  intros Hlen Hone. unfold repetition_rule.
  destruct (0 <? _)%Z; [|reflexivity].
  destruct (_ && _); [|reflexivity].
  destruct (lookup hfkey_eqb _ _) as [c|] eqn:E; [|reflexivity].
  apply census_count_bound in E; [|assumption].
  assert (Hc : (HF_MIN_PAGES_FOR_REPETITION <=? c)%Z = false).
  { apply Z.leb_gt. unfold HF_MIN_PAGES_FOR_REPETITION. lia. }
  now rewrite Hc.
Qed.

(** ** Lines made of digits *)

Lemma matches_many_run_ic (ic : bool) (p : ascii -> bool) (run : pystr) :
  forall prev tail,
    all_in p run ->
    exists prev',
      Matches ic (Many (Cls p)) (prev, run ++ tail) (prev', tail).
Proof.
  induction run as [|x run IH]; intros prev tail Hrun.
  - exists prev. apply MStarStop.
  - inversion Hrun as [|? ? Hx Hrun']; subst.
    destruct (IH (Some x) tail Hrun') as [prev' Hm].
    exists prev'. simpl.
    apply MStarStep with (c2 := (Some x, run ++ tail)).
    + constructor. unfold cls_ok. now rewrite Hx.
    + simpl. lia.
    + exact Hm.
Qed.

Lemma matches_plus_run_ic (ic : bool) (p : ascii -> bool) (run : pystr)
      (prev : option ascii) (tail : pystr) :
  run <> [] -> all_in p run ->
  exists prev',
    Matches ic (Plus (Cls p)) (prev, run ++ tail) (prev', tail).
Proof.
  intros Hne Hrun. destruct run as [|x run]; [congruence|].
  inversion Hrun as [|? ? Hx Hrun']; subst.
  destruct (matches_many_run_ic ic p run (Some x) tail Hrun') as [prev' Hm].
  exists prev'. simpl. eapply MCat; [|exact Hm].
  constructor. unfold cls_ok. now rewrite Hx.
Qed.

Lemma pmatch_search (p : pattern) (s : pystr) :
  pmatch p s = true -> search p s = true.
Proof.
  unfold pmatch, search. intros H. destruct s; simpl; now rewrite H.
Qed.

Lemma digit_not_upper (c : ascii) : is_digit c = true -> is_upper c = false.
Proof.
  destruct c as [[] [] [] [] [] [] [] []]; vm_compute; congruence.
Qed.

Lemma lower_digits (ds : pystr) : all_in is_digit ds -> lower ds = ds.
Proof.
  induction 1 as [|c ds Hc _ IH]; [reflexivity|].
  change (lower (c :: ds)) with (to_lower c :: lower ds).
  rewrite IH. unfold to_lower. now rewrite (digit_not_upper c Hc).
Qed.

Lemma strip_no_space (s : pystr) :
  Forall (fun c => is_space c = false) s -> strip s = s.
Proof.
  intros H. unfold strip, rstrip.
  assert (Hl : forall t, Forall (fun c => is_space c = false) t ->
                         lstrip t = t).
  { intros t Ht. apply lstrip_fixed. destruct Ht; auto. }
  rewrite (Hl s H), Hl.
  - apply rev_involutive.
  - now apply Forall_rev.
Qed.

Lemma strip_digits (ds : pystr) : all_in is_digit ds -> strip ds = ds.
Proof.
  intros H. apply strip_no_space.
  eapply Forall_impl; [|exact H]. apply digit_not_space.
Qed.

(** X16. A line made of digits only is always classified as redundant, at
    any position and in any state. *)
Theorem digits_only_line_is_redundant (st : State) (ds : pystr)
        (y_top y_bottom : Q) (page_num : Z) :
  ds <> [] -> all_in is_digit ds ->
  _is_redundant_line st ds y_top y_bottom page_num = true.
Proof.
  intros Hne Hds. unfold _is_redundant_line.
  rewrite (strip_digits ds Hds), (lower_digits ds Hds).
  assert (Hs : search (compile (Seq [Bol; Many ws; Plus dig; Many ws; Eol])
                               true) ds = true).
  { apply pmatch_search, pmatch_spec.
    destruct (matches_plus_run_ic true is_digit ds None [] Hne Hds)
      as [prev Hd].
    rewrite app_nil_r in Hd.
    exists (prev, []). simpl.
    eapply MCat; [apply MBol|].
    eapply MCat; [apply MStarStop|].
    eapply MCat; [exact Hd|].
    eapply MCat; [apply MStarStop|].
    apply MEolEnd. }
  unfold NON_CONTENT_PATTERNS. cbn [existsb]. now rewrite Hs.
Qed.

Lemma digits_only_line_is_redundant_witness :
  _is_redundant_line initial_state (str "42") 400 412 0 = true.
Proof.
  apply (digits_only_line_is_redundant initial_state (str "42") 400 412 0).
  - discriminate.
  - repeat constructor.
Defined.

(** ** Numbers of three or more levels *)

(** X17. A heading whose text starts with a number of three levels
    [n.n.n] followed by whitespace is classified H3, whatever its font
    size, its position and the other headings. *)
Theorem three_level_number_is_H3
        (st : State) (h : Line) (all_headings : list Line)
        (font_stats : option FontStats)
        (a b c : pystr) (w : ascii) (tail : pystr) :
  all_headings <> [] ->
  a <> [] -> all_in is_digit a ->
  b <> [] -> all_in is_digit b ->
  c <> [] -> all_in is_digit c ->
  is_space w = true ->
  text h = a ++ "."%char :: b ++ "."%char :: c ++ w :: tail ->
  classify_heading_level st h all_headings font_stats = H3.
Proof.
  intros Hall Ha Hda Hb Hdb Hc Hdc Hw Ht.
  unfold classify_heading_level.
  destruct all_headings as [|h0 hs]; [congruence|].
  assert (E : pmatch RE_LEVEL3 (text h) = true).
  { rewrite Ht. apply pmatch_spec. simpl.
    destruct (matches_plus_run is_digit a None
                ("."%char :: b ++ "."%char :: c ++ w :: tail) Ha Hda)
      as [pa Hma].
    destruct (matches_plus_run is_digit b (Some "."%char)
                ("."%char :: c ++ w :: tail) Hb Hdb) as [pb Hmb].
    destruct (matches_plus_run is_digit c (Some "."%char) (w :: tail) Hc Hdc)
      as [pc Hmc].
    exists (Some w, tail).
    eapply MCat; [apply MBol|].
    eapply MCat; [apply MStarStop|].
    eapply MCat; [exact Hma|].
    eapply MCat; [constructor; now apply lit_ok_exact|].
    eapply MCat; [exact Hmb|].
    eapply MCat; [constructor; now apply lit_ok_exact|].
    eapply MCat; [exact Hmc|].
    eapply MCat; [apply MStarStop|].
    eapply MCat; [|apply MStarStop].
    constructor. now rewrite cls_ok_exact. }
  now rewrite E.
Qed.

Lemma three_level_number_is_H3_witness :
  let h := Samples.numbered_line "2.3.1 Scope" 10 400 in
  classify_heading_level initial_state h
    [Samples.numbered_line "1 Introduction" 24 72; h] None = H3.
Proof.
  cbv zeta.
  apply (three_level_number_is_H3 initial_state
           (Samples.numbered_line "2.3.1 Scope" 10 400) _ None
           (str "2") (str "3") (str "1") " "%char (str "Scope")).
  - discriminate.
  - discriminate.
  - repeat constructor.
  - discriminate.
  - repeat constructor.
  - discriminate.
  - repeat constructor.
  - reflexivity.
  - reflexivity.
Defined.


(** ** The range of the heading score *)

Ltac split_ifs :=
  repeat match goal with
         | |- context [if ?b then _ else _] => destruct b
         end.

Ltac qconst := split; unfold Qle; simpl; lia.

Lemma score_font_range (l : Line) (avg : Q) :
  (0 <= score_font l avg <= 50)%Q.
Proof.
  unfold score_font. destruct (size_ratio_of l avg); split_ifs; qconst.
Qed.

Lemma score_bold_range (l : Line) : (0 <= score_bold l <= 45)%Q.
Proof. unfold score_bold. split_ifs; qconst. Qed.

Lemma score_italic_zero (l : Line) : score_italic l = 0%Q.
Proof. unfold score_italic. now destruct (is_italic l). Qed.

Lemma score_pattern_range (l : Line) : (0 <= score_pattern l <= 30)%Q.
Proof. unfold score_pattern. split_ifs; qconst. Qed.

Lemma score_enum_range (l : Line) : (0 <= score_enum l <= 35)%Q.
Proof. unfold score_enum. split_ifs; qconst. Qed.

Lemma score_cue_range (l : Line) : (0 <= score_cue l <= 10)%Q.
Proof. unfold score_cue. split_ifs; qconst. Qed.

Lemma score_whitespace_range (l : Line) (avg : Q) :
  (0 <= score_whitespace l avg <= 15)%Q.
Proof. unfold score_whitespace, whitespace_tier. split_ifs; qconst. Qed.

Lemma score_left_range (st : State) (l : Line) :
  (0 <= score_left st l <= 10)%Q.
Proof. unfold score_left. split_ifs; qconst. Qed.

Lemma score_center_range (st : State) (l : Line) :
  (0 <= score_center st l <= 12)%Q.
Proof. unfold score_center. split_ifs; qconst. Qed.

Lemma score_word_count_range (l : Line) :
  (-30 <= score_word_count l <= 6)%Q.
Proof. unfold score_word_count. split_ifs; qconst. Qed.

Lemma score_capitalization_range (l : Line) :
  (0 <= score_capitalization l <= 12)%Q.
Proof. unfold score_capitalization. split_ifs; qconst. Qed.

Lemma score_ending_range (l : Line) : (-45 <= score_ending l <= 15)%Q.
Proof. unfold score_ending. split_ifs; qconst. Qed.

Lemma score_first_page_range (l : Line) (avg : Q) :
  (0 <= score_first_page l avg <= 25)%Q.
Proof. unfold score_first_page. split_ifs; qconst. Qed.

Lemma score_color_range (l : Line) : (0 <= score_color l <= 3)%Q.
Proof. unfold score_color. split_ifs; qconst. Qed.

(** A returned score is the sum of the fourteen steps, or 0 for an empty
    text. *)
Lemma calculate_heading_score_sum (st : State) (l : Line) (avg s : Q) :
  calculate_heading_score st l avg = Ok s ->
  (text l = [] /\ s = 0%Q) \/
  (text l <> [] /\ (0 < avg)%Q /\
   s = (0 + score_font l avg + score_bold l + score_italic l
        + score_pattern l + score_enum l + score_cue l
        + score_whitespace l avg + score_left st l + score_center st l
        + score_word_count l + score_capitalization l + score_ending l
        + score_first_page l avg + score_color l)%Q).
Proof.
  unfold calculate_heading_score.
  destruct (text l) as [|c t] eqn:Ht; simpl.
  - intros H; inversion H. now left.
  - unfold size_ratio_of. destruct (Qgtb avg 0) eqn:E; simpl; [|discriminate].
    intros H; inversion H. right. split; [discriminate|].
    split; [now apply Qgtb_true|reflexivity].
Qed.

(** X18. Every score the scorer returns lies between -75 and 268. *)
Theorem heading_score_range (st : State) (l : Line) (avg s : Q) :
  calculate_heading_score st l avg = Ok s -> (-75 <= s <= 268)%Q.
Proof.
  intros H. apply calculate_heading_score_sum in H.
  destruct H as [[_ ->]|[_ [_ ->]]]; [qconst|].
  pose proof (score_font_range l avg).
  pose proof (score_bold_range l).
  rewrite (score_italic_zero l).
  pose proof (score_pattern_range l).
  pose proof (score_enum_range l).
  pose proof (score_cue_range l).
  pose proof (score_whitespace_range l avg).
  pose proof (score_left_range st l).
  pose proof (score_center_range st l).
  pose proof (score_word_count_range l).
  pose proof (score_capitalization_range l).
  pose proof (score_ending_range l).
  pose proof (score_first_page_range l avg).
  pose proof (score_color_range l).
  lra.
Qed.

Lemma heading_score_range_witness :
  exists s,
    calculate_heading_score initial_state (Samples.plain_line "Hello" 12) 12
    = Ok s /\ (-75 <= s <= 268)%Q.
Proof.
  eexists. split; [crunch|].
  apply (heading_score_range initial_state (Samples.plain_line "Hello" 12) 12).
  crunch.
Defined.

(** X19. A line that ends with a period, is not bold, starts with no
    enumeration and is set in at most 1.3 times the mean font size scores
    below the threshold of 75: it is never a heading candidate. *)
Theorem plain_sentence_below_threshold (st : State) (l : Line) (avg s : Q) :
  calculate_heading_score st l avg = Ok s ->
  ends_with_period l = true -> is_bold l = false -> has_enum l = false ->
  (font_size l <= avg * (13 # 10))%Q ->
  (s < HEADING_SCORE_THRESHOLD)%Q.
Proof.
  intros H Hp Hb He Hf. apply calculate_heading_score_sum in H.
  unfold HEADING_SCORE_THRESHOLD.
  destruct H as [[_ ->]|[_ [Havg ->]]]; [reflexivity|].
  assert (Hratio : (font_size l / avg <= 13 # 10)%Q).
  { apply Qle_shift_div_r; [assumption|].
    now rewrite Qmult_comm. }
  assert (Efont : score_font l avg = 0%Q).
  { unfold score_font, size_ratio_of.
    apply Qgtb_true in Havg. rewrite Havg.
    assert (E1 : Qgeb (font_size l / avg) (18 # 10) = false).
    { unfold Qgeb. destruct (Qle_bool _ _) eqn:E; [|reflexivity].
      apply Qle_bool_iff in E. lra. }
    assert (E2 : Qgeb (font_size l / avg) (15 # 10) = false).
    { unfold Qgeb. destruct (Qle_bool _ _) eqn:E; [|reflexivity].
      apply Qle_bool_iff in E. lra. }
    assert (E3 : Qgtb (font_size l / avg) MIN_HEADING_FONT_SIZE_RATIO = false).
    { unfold Qgtb, MIN_HEADING_FONT_SIZE_RATIO. apply negb_false_iff.
      now apply Qle_bool_iff. }
    now rewrite E1, E2, E3. }
  assert (Efirst : score_first_page l avg = 0%Q).
  { unfold score_first_page.
    assert (E : Qgeb (font_size l) (avg * (18 # 10)) = false).
    { unfold Qgeb. destruct (Qle_bool _ _) eqn:E; [|reflexivity].
      apply Qle_bool_iff in E. lra. }
    now rewrite E, andb_false_r. }
  assert (Ebold : score_bold l = 0%Q) by (unfold score_bold; now rewrite Hb).
  assert (Eenum : score_enum l = 0%Q) by (unfold score_enum; now rewrite He).
  assert (Eend : score_ending l = (-45)%Q)
    by (unfold score_ending; now rewrite Hp).
  rewrite Efont, Efirst, Ebold, Eenum, Eend, (score_italic_zero l).
  pose proof (score_pattern_range l).
  pose proof (score_cue_range l).
  pose proof (score_whitespace_range l avg).
  pose proof (score_left_range st l).
  pose proof (score_center_range st l).
  pose proof (score_word_count_range l).
  pose proof (score_capitalization_range l).
  pose proof (score_color_range l).
  lra.
Qed.

Lemma plain_sentence_below_threshold_witness :
  exists s,
    calculate_heading_score initial_state
      (Samples.sentence_line "It was a dark night." 12) 12 = Ok s /\
    (s < HEADING_SCORE_THRESHOLD)%Q.
Proof.
  eexists. split; [crunch|].
  apply (plain_sentence_below_threshold initial_state
           (Samples.sentence_line "It was a dark night." 12) 12).
  - crunch.
  - reflexivity.
  - reflexivity.
  - reflexivity.
  - vm_compute. discriminate.
Defined.

(** ** Style flags *)

Lemma land_2_testbit (a : Z) :
  Z.land a 2 = if Z.testbit a 1 then 2%Z else 0%Z.
Proof.
  apply Z.bits_inj'. intros n Hn. rewrite Z.land_spec.
  change 2%Z with (2 ^ 1)%Z at 1.
  rewrite Z.pow2_bits_eqb by lia.
  destruct (Z.eqb_spec 1 n) as [<-|Hne].
  - rewrite andb_true_r. destruct (Z.testbit a 1); reflexivity.
  - rewrite andb_false_r. destruct (Z.testbit a 1).
    + change 2%Z with (2 ^ 1)%Z. rewrite Z.pow2_bits_eqb by lia.
      symmetry. now apply Z.eqb_neq.
    + symmetry. apply Z.bits_0.
Qed.

(** X20. Bold is bit 0 and italic is bit 1 of the style flags, whatever the
    other bits are. *)
Theorem style_flags_are_bits (flags : Z) :
  _is_bold flags = Z.testbit flags 0 /\
  _is_italic flags = Z.testbit flags 1.
Proof.
  unfold _is_bold, _is_italic. split.
  - change 1%Z with (Z.ones 1). rewrite Z.land_ones by lia.
    change (2 ^ 1)%Z with 2%Z. rewrite Zmod_odd, Z.bit0_odd.
    destruct (Z.odd flags); reflexivity.
  - rewrite land_2_testbit. destruct (Z.testbit flags 1); reflexivity.
Qed.

(** ** The vertical bucket of a census key *)

(** X21. For a top coordinate that is not negative, the bucket is the
    multiple of 5 at or below it and less than 5 under it. *)
Theorem y_bucket_bounds (y : Q) :
  (0 <= y)%Q ->
  (inject_Z (y_bucket_of y) <= y)%Q /\
  (y < inject_Z (y_bucket_of y) + 5)%Q /\
  (y_bucket_of y mod 5 = 0)%Z.
Proof.
  intros Hy. destruct y as [n d]. unfold y_bucket_of, py_int.
  unfold Qle in Hy. simpl in Hy.
  assert (Hn : (0 <= n)%Z) by lia.
  unfold Qdiv, Qinv, Qmult. simpl Qnum. simpl Qden.
  rewrite Z.mul_1_r.
  rewrite Z.quot_div_nonneg by lia.
  set (D := Z.pos (d * 5)).
  assert (HD : D = (5 * Z.pos d)%Z) by (unfold D; lia).
  pose proof (Z.div_mod n D ltac:(lia)) as Hdm.
  pose proof (Z.mod_pos_bound n D ltac:(lia)) as Hr.
  set (q := (n / D)%Z) in *.
  split; [|split].
  - unfold Qle, inject_Z. simpl. nia.
  - unfold Qlt, Qplus, inject_Z. simpl. nia.
  - now rewrite Z.mod_mul by lia.
Qed.

Lemma y_bucket_bounds_witness :
  (inject_Z (y_bucket_of (237 # 10)) <= 237 # 10)%Q /\
  (237 # 10 < inject_Z (y_bucket_of (237 # 10)) + 5)%Q /\
  (y_bucket_of (237 # 10) mod 5 = 0)%Z.
Proof.
  apply (y_bucket_bounds (237 # 10)). unfold Qle. simpl. lia.
Defined.

(** ** The pages of the outline *)

Lemma merged_with_page (a b : Line) : page (merged_with a b) = page a.
Proof. reflexivity. Qed.

Lemma Forall2_Forall_left (A B : Type) (R : A -> B -> Prop)
      (P : B -> Prop) (Q : A -> Prop) (la : list A) (lb : list B) :
  (forall a b, R a b -> P b -> Q a) ->
  Forall2 R la lb -> Forall P lb -> Forall Q la.
Proof.
  intros H HR. induction HR as [|a b la lb Hab _ IH]; intros HP;
    [constructor|].
  inversion HP; subst. constructor; [eapply H; eauto|now apply IH].
Qed.

(** X22. Every outline entry of an opened document carries a valid 0-based
    page index of that document. *)
Theorem outline_pages_valid (st : State) (doc : Doc) :
  Forall (fun e => (0 <= o_page e < Z.of_nat (List.length doc))%Z)
         (outline (fst (process_pdf st (Ok doc)))).
Proof.
  destruct (opened_run_is_assembled st doc) as [lines [Hx ->]].
  apply extracted_all in Hx.
  eapply Forall2_Forall_left;
    [|apply assemble_outline
     |apply Forall_sorted with
        (P := fun h => (1 <= page h <= Z.of_nat (List.length doc))%Z)].
  - intros e h [_ Hp] Hh. simpl in Hh. lia.
  - apply merge_Forall; [intros a b Ha; exact Ha|].
    apply select_headings_Forall.
    eapply Forall_impl; [|exact Hx]. intros l Hl. apply Hl.
Qed.

(** ** The title *)

Lemma fallback_title_cases (text_lines : list Line) :
  fallback_title text_lines = document_title \/
  exists h,
    In h text_lines /\
    (HEADING_SCORE_THRESHOLD + 10 < get (heading_score h) 0)%Q /\
    fallback_title text_lines = strip (text h).
Proof.
  unfold fallback_title. destruct text_lines as [|l ls]; [now left|].
  set (hs := filter _ (l :: ls)).
  destruct (PySort.sorted page_ypos_le hs) as [|h rest] eqn:E; [now left|].
  right. exists h.
  assert (Hin : In h hs).
  { apply (Permutation_in _ (sorted_perm _ page_ypos_le hs)).
    rewrite E. now left. }
  unfold hs in Hin. apply filter_In in Hin. destruct Hin as [Hin Hs].
  split; [assumption|]. split; [now apply Qgtb_true|reflexivity].
Qed.

Lemma title_checked (text_lines : list Line) (t : pystr) :
  let r := if (len t <? 5)%Z || pmatch RE_BARE_NUMBER t || is_non_content t
           then fallback_title text_lines
           else if is_empty t then document_title else t in
  r = document_title \/
  (exists h,
      In h text_lines /\
      (HEADING_SCORE_THRESHOLD + 10 < get (heading_score h) 0)%Q /\
      r = strip (text h)) \/
  ((5 <= len r)%Z /\ pmatch RE_BARE_NUMBER r = false /\
   is_non_content r = false).
Proof.
  cbv zeta.
  destruct (_ || _) eqn:Eb.
  - destruct (fallback_title_cases text_lines) as [H|H]; auto.
  - destruct (is_empty t); [now left|]. right. right.
    apply orb_false_iff in Eb. destruct Eb as [Eb E3].
    apply orb_false_iff in Eb. destruct Eb as [E1 E2].
    apply Z.ltb_ge in E1. auto.
Qed.

(** X23. The title is the placeholder "Document", or the stripped text of
    a line that scores above 85, or a text of at least 5 characters that is
    neither a bare number nor matched by a non-content pattern. *)
Theorem title_cases (st : State) (text_lines : list Line)
        (font_stats : option FontStats) :
  let t := extract_title st text_lines font_stats in
  t = document_title \/
  (exists h,
      In h text_lines /\
      (HEADING_SCORE_THRESHOLD + 10 < get (heading_score h) 0)%Q /\
      t = strip (text h)) \/
  ((5 <= len t)%Z /\ pmatch RE_BARE_NUMBER t = false /\
   is_non_content t = false).
Proof.
  cbv zeta. unfold extract_title.
  assert (Hfb : forall ls,
             fallback_title ls = document_title \/
             (exists h, In h ls /\
                        (HEADING_SCORE_THRESHOLD + 10
                         < get (heading_score h) 0)%Q /\
                        fallback_title ls = strip (text h)) \/
             ((5 <= len (fallback_title ls))%Z /\
              pmatch RE_BARE_NUMBER (fallback_title ls) = false /\
              is_non_content (fallback_title ls) = false)).
  { intros ls. destruct (fallback_title_cases ls) as [H|H]; auto. }
  destruct text_lines as [|l ls]; [now left|].
  destruct (filter _ (l :: ls)) as [|f fs]; [apply Hfb|].
  repeat match goal with
         | |- context [match ?c with [] => document_title | _ :: _ => _ end] =>
             destruct c; [now left|]
         | |- context [match ?c with [] => filter _ _ | _ :: _ => _ end] =>
             destruct c
         end;
    apply title_checked.
Qed.

(** ** Dictionaries keyed by font size *)

Lemma Qeqb_refl (a : Q) : Qeqb a a = true.
Proof. apply Qeq_bool_iff. reflexivity. Qed.

Lemma Qeqb_sym (a b : Q) : Qeqb a b = Qeqb b a.
Proof.
  destruct (Qeqb a b) eqn:E1, (Qeqb b a) eqn:E2; try reflexivity.
  - apply Qeq_bool_iff in E1. symmetry in E1. apply Qeq_bool_iff in E1.
    unfold Qeqb in *. congruence.
  - apply Qeq_bool_iff in E2. symmetry in E2. apply Qeq_bool_iff in E2.
    unfold Qeqb in *. congruence.
Qed.

Lemma Qeqb_trans (a b c : Q) :
  Qeqb a b = true -> Qeqb b c = true -> Qeqb a c = true.
Proof.
  intros H1 H2. apply Qeq_bool_iff in H1. apply Qeq_bool_iff in H2.
  apply Qeq_bool_iff. now rewrite H1.
Qed.

Lemma Qeqb_congr (a b c : Q) : Qeqb a b = true -> Qeqb a c = Qeqb b c.
Proof.
  intros H. destruct (Qeqb b c) eqn:E.
  - now apply Qeqb_trans with b.
  - destruct (Qeqb a c) eqn:E'; [|reflexivity].
    rewrite Qeqb_sym in H. rewrite (Qeqb_trans b a c H E') in E. discriminate.
Qed.

Lemma lookupQ_congr (V : Type) (j j' : Q) (d : list (Q * V)) :
  Qeqb j j' = true -> lookup Qeqb j d = lookup Qeqb j' d.
Proof.
  intros H. induction d as [|[k v] d IH]; simpl; [reflexivity|].
  now rewrite (Qeqb_congr j j' k H), IH.
Qed.

Lemma lookupQ_store_same (V : Type) (j k : Q) (v : V) (d : list (Q * V)) :
  Qeqb j k = true -> lookup Qeqb j (store Qeqb k v d) = Some v.
Proof.
  intros H. induction d as [|[k' v'] d IH]; simpl.
  - now rewrite H.
  - destruct (Qeqb k k') eqn:E; simpl.
    + now rewrite H.
    + rewrite (Qeqb_congr j k k' H), E. exact IH.
Qed.

Lemma lookupQ_store_other (V : Type) (j k : Q) (v : V) (d : list (Q * V)) :
  Qeqb j k = false -> lookup Qeqb j (store Qeqb k v d) = lookup Qeqb j d.
Proof.
  intros H. induction d as [|[k' v'] d IH]; simpl.
  - now rewrite H.
  - destruct (Qeqb k k') eqn:E; simpl.
    + rewrite H. rewrite Qeqb_sym in H.
      rewrite Qeqb_sym, <- (Qeqb_congr k k' j E), H. reflexivity.
    + destruct (Qeqb j k'); [reflexivity|exact IH].
Qed.

Lemma store_In (V : Type) (k : Q) (v : V) (d : list (Q * V)) (e : Q * V) :
  In e (store Qeqb k v d) -> e = (k, v) \/ In e d.
Proof.
  induction d as [|[k' v'] d IH]; simpl.
  - intros [<-|[]]. now left.
  - destruct (Qeqb k k'); simpl.
    + intros [<-|H]; auto.
    + intros [<-|H]; auto. destruct (IH H); auto.
Qed.

Lemma store_keys_distinct (V : Type) (k : Q) (v : V) (d : list (Q * V)) :
  keys_distinct d -> keys_distinct (store Qeqb k v d).
Proof.
  induction d as [|[k' v'] d IH]; simpl.
  - intros _. split; [intros e []|exact I].
  - intros [Hk Hd]. destruct (Qeqb k k') eqn:E; simpl.
    + split; [|assumption]. intros e He.
      rewrite (Qeqb_congr k k' (fst e) E). now apply Hk.
    + split; [|now apply IH]. intros e He.
      apply store_In in He. destruct He as [->|He]; [|now apply Hk].
      simpl. now rewrite Qeqb_sym.
Qed.

Lemma lookupQ_distinct (V : Type) (d : list (Q * V)) (k : Q) (v : V) :
  keys_distinct d -> In (k, v) d -> lookup Qeqb k d = Some v.
Proof.
  induction d as [|[k' v'] d IH]; simpl; [contradiction|].
  intros [Hk Hd] [H|H].
  - inversion H; subst. now rewrite Qeqb_refl.
  - destruct (Qeqb k k') eqn:E; [|now apply IH].
    rewrite Qeqb_sym in E. pose proof (Hk (k, v) H) as Hf. simpl in Hf.
    congruence.
Qed.

Lemma lookupQ_In (V : Type) (d : list (Q * V)) (j : Q) (v : V) :
  lookup Qeqb j d = Some v -> exists k, In (k, v) d.
Proof.
  induction d as [|[k' v'] d IH]; simpl; [discriminate|].
  destruct (Qeqb j k').
  - intros H; inversion H; subst. exists k'. now left.
  - intros H. destruct (IH H) as [k Hk]. exists k. now right.
Qed.

(** ** The body font size *)

Lemma counter_count (l : list Q) (j : Q) :
  forall acc,
    get (lookup Qeqb j (counter l acc)) 0%Z
    = (get (lookup Qeqb j acc) 0 + count_size j l)%Z.
Proof.
  unfold count_size.
  induction l as [|x l IH]; intros acc; cbn [counter filter].
  - simpl. lia.
  - rewrite IH. destruct (Qeqb j x) eqn:E.
    + rewrite <- (lookupQ_congr _ j x acc E).
      destruct (lookup Qeqb j acc) as [n|];
        rewrite (lookupQ_store_same _ j x _ acc E);
        cbn [get List.length]; lia.
    + destruct (lookup Qeqb x acc);
        rewrite (lookupQ_store_other _ j x _ acc E); lia.
Qed.

Lemma counter_distinct (l : list Q) :
  forall acc, keys_distinct acc -> keys_distinct (counter l acc).
Proof.
  induction l as [|x l IH]; simpl; intros acc H; [assumption|].
  apply IH. destruct (lookup Qeqb x acc); now apply store_keys_distinct.
Qed.

Lemma counter_keys (l : list Q) :
  forall acc e,
    In e (counter l acc) -> In (fst e) l \/ In e acc.
Proof.
  induction l as [|x l IH]; simpl; intros acc e H; [now right|].
  apply IH in H. destruct H as [H|H]; [now left; right|].
  destruct (lookup Qeqb x acc); apply store_In in H;
    destruct H as [->|H]; auto.
Qed.

Lemma most_common1_max (items : list (Q * Z)) :
  forall best,
  exists e,
    In e (best :: items) /\ most_common1 best items = fst e /\
    forall e', In e' (best :: items) -> (snd e' <= snd e)%Z.
Proof.
  induction items as [|it items IH]; intros best; cbn [most_common1].
  - exists best. split; [now left|]. split; [reflexivity|].
    intros e' [<-|[]]. lia.
  - destruct (snd best <? snd it)%Z eqn:E.
    + apply Z.ltb_lt in E. destruct (IH it) as [e [Hin [He Hmax]]].
      exists e. split; [now right|]. split; [assumption|].
      intros e' [<-|He'].
      * specialize (Hmax it (or_introl eq_refl)). lia.
      * now apply Hmax.
    + apply Z.ltb_ge in E. destruct (IH best) as [e [Hin [He Hmax]]].
      exists e. split.
      * destruct Hin as [<-|Hin]; [now left|now right; right].
      * split; [assumption|].
        intros e' [<-|[<-|He']].
        -- apply Hmax. now left.
        -- specialize (Hmax best (or_introl eq_refl)). lia.
        -- apply Hmax. now right.
Qed.

Lemma count_size_nonneg (x : Q) (l : list Q) : (0 <= count_size x l)%Z.
Proof. unfold count_size. lia. Qed.

(** X24. The body font size is a most frequent one among the positive font
    sizes of the lines: it is the size of some line, it is positive, and no
    size occurs more often.  There are statistics exactly when some line
    has a positive size. *)
Theorem body_font_size_is_modal (text_blocks : list Line) :
  match analyze_font_statistics text_blocks with
  | None => positive_sizes text_blocks = []
  | Some stats =>
      In (body_font_size stats) (positive_sizes text_blocks) /\
      (0 < body_font_size stats)%Q /\
      forall x : Q,
        (count_size x (positive_sizes text_blocks)
         <= count_size (body_font_size stats) (positive_sizes text_blocks))%Z
  end.
Proof.
  unfold analyze_font_statistics. fold (positive_sizes text_blocks).
  set (sizes := positive_sizes text_blocks).
  destruct (counter sizes []) as [|it items] eqn:Ec.
  - destruct sizes as [|x l] eqn:Es; [reflexivity|].
    pose proof (counter_count (x :: l) x []) as H.
    rewrite Ec in H. unfold count_size in H. cbn [filter] in H.
    rewrite Qeqb_refl in H. simpl in H. lia.
  - cbn [body_font_size].
    destruct (most_common1_max items it) as [e [Hin [He Hmax]]].
    rewrite He. rewrite <- Ec in Hin, Hmax.
    assert (Hd : keys_distinct (counter sizes [])).
    { apply counter_distinct. exact I. }
    assert (Hkey : In (fst e) sizes).
    { destruct (counter_keys sizes [] e Hin) as [H|[]]. exact H. }
    split; [exact Hkey|]. split.
    + unfold sizes, positive_sizes in Hkey. apply filter_In in Hkey.
      now apply Qgtb_true.
    + intros x.
      pose proof (counter_count sizes x []) as Hx.
      pose proof (counter_count sizes (fst e) []) as Hb.
      simpl in Hx, Hb.
      assert (Hlb : lookup Qeqb (fst e) (counter sizes []) = Some (snd e)).
      { apply lookupQ_distinct; [assumption|]. now destruct e. }
      rewrite Hlb in Hb. simpl in Hb.
      destruct (lookup Qeqb x (counter sizes [])) as [c|] eqn:El.
      * destruct (lookupQ_In _ _ _ _ El) as [k Hk].
        specialize (Hmax (k, c) Hk). simpl in *. lia.
      * simpl in Hx. pose proof (count_size_nonneg (fst e) sizes). lia.
Qed.

(** ** The rank of the largest font size *)

Lemma distinct_incl (l : list Q) (x : Q) : In x (distinct l) -> In x l.
Proof.
  induction l as [|y l IH]; simpl; [auto|].
  destruct (existsb (Qeqb y) l); simpl; intuition.
Qed.

Lemma distinct_represents (l : list Q) (x : Q) :
  In x l -> exists r, In r (distinct l) /\ Qeqb x r = true.
Proof.
  revert x. induction l as [|y l IH]; simpl; intros x; [contradiction|].
  intros [->|H].
  - destruct (existsb (Qeqb x) l) eqn:E.
    + apply existsb_exists in E. destruct E as [z [Hz Hxz]].
      destruct (IH z Hz) as [r [Hr Hzr]]. exists r. split; [assumption|].
      now apply Qeqb_trans with z.
    + exists x. split; [now left|apply Qeqb_refl].
  - destruct (IH x H) as [r [Hr Hxr]]. exists r. split; [|assumption].
    destruct (existsb (Qeqb y) l); [assumption|now right].
Qed.

Lemma distinct_sizes_distinct (l : list Q) : sizes_distinct (distinct l).
Proof.
  induction l as [|y l IH]; simpl; [exact I|].
  destruct (existsb (Qeqb y) l) eqn:E; [assumption|].
  simpl. split; [|assumption].
  apply Forall_forall. intros z Hz. apply distinct_incl in Hz.
  destruct (Qeqb y z) eqn:Eyz; [|reflexivity].
  assert (existsb (Qeqb y) l = true)
    by (apply existsb_exists; now exists z).
  congruence.
Qed.

Lemma Forall_insert (A : Type) (le : A -> A -> bool) (P : A -> Prop)
      (x : A) (l : list A) :
  P x -> Forall P l -> Forall P (PySort.insert le x l).
Proof.
  intros Hx Hl. apply (Permutation_Forall (Permutation_sym (insert_perm _ le x l))).
  now constructor.
Qed.

Lemma insert_sizes_distinct (le : Q -> Q -> bool) (x : Q) (l : list Q) :
  Forall (fun y => Qeqb x y = false) l -> sizes_distinct l ->
  sizes_distinct (PySort.insert le x l).
Proof.
  induction l as [|y l IH]; simpl; intros Hx Hl.
  - split; [constructor|exact I].
  - destruct Hl as [Hy Hl]. inversion Hx as [|? ? Hxy Hx']; subst.
    destruct (le x y); simpl.
    + split; [now constructor|now split].
    + split; [|now apply IH].
      apply Forall_insert; [now rewrite Qeqb_sym|assumption].
Qed.

Lemma sorted_sizes_distinct (le : Q -> Q -> bool) (l : list Q) :
  sizes_distinct l -> sizes_distinct (PySort.sorted le l).
Proof.
  induction l as [|x l IH]; simpl; [auto|].
  intros [Hx Hl]. apply insert_sizes_distinct; [|now apply IH].
  now apply Forall_sorted.
Qed.

Lemma descending_head (l : list Q) (s0 : Q) (rest : list Q) :
  PySort.sorted (fun a b => Qleb b a) l = s0 :: rest ->
  Forall (fun r => (r <= s0)%Q) rest.
Proof.
  intros E.
  assert (H : StronglySorted (fun a b => Qleb b a = true)
                             (PySort.sorted (fun a b => Qleb b a) l)).
  { apply Sorted_StronglySorted.
    - intros a b c Hab Hbc. apply Qleb_true in Hab, Hbc. apply Qleb_true.
      eapply Qle_trans; eassumption.
    - apply sorted_Sorted. intros a b.
      destruct (Qlt_le_dec a b) as [H|H].
      + right. apply Qleb_true. now apply Qlt_le_weak.
      + left. now apply Qleb_true. }
  rewrite E in H. inversion H as [|? ? _ Hall]; subst.
  eapply Forall_impl; [|exact Hall]. intros r Hr. now apply Qleb_true.
Qed.

Lemma lookupQ_store_keep (j k : Q) (v : level) (d : list (Q * level)) :
  v <> H1 ->
  lookup Qeqb j (store Qeqb k v d) = Some H1 -> lookup Qeqb j d = Some H1.
Proof.
  intros Hv H. destruct (Qeqb j k) eqn:E.
  - rewrite (lookupQ_store_same _ j k v d E) in H. congruence.
  - now rewrite (lookupQ_store_other _ j k v d E) in H.
Qed.

Lemma fold_store_H3 (rest : list Q) (j s0 : Q) :
  forall d,
    (lookup Qeqb j d = Some H1 <-> Qeqb j s0 = true) ->
    Forall (fun r => Qeqb s0 r = false) rest ->
    (lookup Qeqb j (fold_left (fun m sz => store Qeqb sz H3 m) rest d)
     = Some H1 <-> Qeqb j s0 = true).
Proof.
  induction rest as [|r rest IH]; simpl; intros d Hd Hrest; [assumption|].
  inversion Hrest as [|? ? Hr Hrest']; subst.
  apply IH; [|assumption]. split.
  - intros H. apply Hd. eapply lookupQ_store_keep; [|exact H]. discriminate.
  - intros H. rewrite lookupQ_store_other; [now apply Hd|].
    now rewrite (Qeqb_congr j s0 r H).
Qed.

(** Only the largest size is mapped to H1. *)
Lemma level_map_H1 (s0 : Q) (rest : list Q) (j : Q) :
  Forall (fun r => Qeqb s0 r = false) rest ->
  lookup Qeqb j (build_level_map (s0 :: rest)) = Some H1 <->
  Qeqb j s0 = true.
Proof.
  intros Hrest. unfold build_level_map.
  assert (Hstep : forall (d : list (Q * level)) (k : Q) (v : level),
             v <> H1 -> Qeqb s0 k = false ->
             (lookup Qeqb j d = Some H1 <-> Qeqb j s0 = true) ->
             (lookup Qeqb j (store Qeqb k v d) = Some H1
              <-> Qeqb j s0 = true)).
  { intros d k v Hv Hk Hd. split.
    - intros H. apply Hd. eapply lookupQ_store_keep; eassumption.
    - intros H. rewrite lookupQ_store_other; [now apply Hd|].
      now rewrite (Qeqb_congr j s0 k H). }
  assert (Hbase : lookup Qeqb j (store Qeqb s0 H1 []) = Some H1
                  <-> Qeqb j s0 = true).
  { simpl. destruct (Qeqb j s0); split; congruence. }
  cbn [nth_error].
  destruct rest as [|s1 rest]; [exact Hbase|].
  inversion Hrest as [|? ? H1' Hrest1]; subst.
  destruct rest as [|s2 rest].
  - cbn [nth_error skipn fold_left]. apply Hstep; [discriminate|assumption|].
    exact Hbase.
  - inversion Hrest1 as [|? ? H2' Hrest2]; subst.
    cbn [nth_error skipn]. apply fold_store_H3; [|assumption].
    apply Hstep; [discriminate|assumption|].
    apply Hstep; [discriminate|assumption|]. exact Hbase.
Qed.

(** X25. Among the headings, exactly those of the largest font size are
    ranked H1 by the font-size map. *)
Theorem largest_font_ranks_first (h : Line) (all_headings : list Line) :
  In h all_headings ->
  (initial_level h all_headings = H1 <->
   forall x, In x all_headings -> (font_size x <= font_size h)%Q).
Proof.
  intros Hin. unfold initial_level, _get_heading_font_sizes.
  set (sizes := map font_size all_headings).
  pose proof (sorted_perm Q (fun a b => Qleb b a) (distinct sizes)) as Hperm.
  pose proof (sorted_sizes_distinct (fun a b => Qleb b a) _
                (distinct_sizes_distinct sizes)) as Hsd.
  destruct (PySort.sorted (fun a b => Qleb b a) (distinct sizes))
    as [|s0 rest] eqn:Eu.
  - exfalso.
    destruct (distinct_represents sizes (font_size h)) as [r [Hr _]];
      [now apply in_map|].
    apply (Permutation_in _ (Permutation_sym Hperm)) in Hr. contradiction.
  - pose proof (descending_head _ _ _ Eu) as Hdesc.
    assert (Hdist : Forall (fun r => Qeqb s0 r = false) rest) by apply Hsd.
    assert (Hu : forall r, In r (s0 :: rest) -> (r <= s0)%Q).
    { intros r [<-|Hr]; [apply Qle_refl|].
      rewrite Forall_forall in Hdesc. now apply Hdesc. }
    assert (Hrep : forall x, In x all_headings ->
                             exists r, In r (s0 :: rest) /\
                                       (font_size x == r)%Q).
    { intros x Hx.
      destruct (distinct_represents sizes (font_size x)) as [r [Hr Hxr]];
        [now apply in_map|].
      exists r. split; [|now apply Qeqb_true].
      now apply (Permutation_in _ (Permutation_sym Hperm)). }
    assert (Hs0 : exists x, In x all_headings /\ font_size x = s0).
    { assert (H : In s0 (s0 :: rest)) by now left.
      apply (Permutation_in _ Hperm) in H.
      apply distinct_incl in H. unfold sizes in H.
      apply in_map_iff in H. destruct H as [x [Hx Hxin]]. now exists x. }
    assert (Hlevel : get (lookup Qeqb (font_size h)
                                 (build_level_map (s0 :: rest))) H3 = H1
                     <-> Qeqb (font_size h) s0 = true).
    { rewrite <- (level_map_H1 s0 rest (font_size h) Hdist).
      destruct (lookup Qeqb (font_size h) (build_level_map (s0 :: rest)))
        as [v|]; simpl; split; congruence. }
    rewrite Hlevel, Qeqb_true. split.
    + intros Heq x Hx. destruct (Hrep x Hx) as [r [Hr Hxr]].
      rewrite Hxr, Heq. now apply Hu.
    + intros Hmax. destruct Hs0 as [x [Hx <-]].
      destruct (Hrep h Hin) as [r [Hr Hhr]].
      apply Qle_antisym; [|now apply Hmax].
      rewrite Hhr. now apply Hu.
Qed.


(** ** Instances *)

Lemma enumerated_line_starts_heading_witness :
  let a := Samples.numbered_line "Terms of Reference" 18 72 in
  let h := Samples.numbered_line "1.1 Background" 18 72 in
  exists m rest tail,
    merge_multiline_headings [h] = m :: rest /\
    merge_multiline_headings [a; h] = merge_multiline_headings [a] ++ m :: rest /\
    seq_idx m = seq_idx h /\ y_pos m = y_pos h /\
    text m = text h ++ tail.
Proof.
  cbv zeta.
  apply (enumerated_line_starts_heading
           [Samples.numbered_line "Terms of Reference" 18 72;
            Samples.numbered_line "1.1 Background" 18 72]
           [Samples.numbered_line "Terms of Reference" 18 72] []
           (Samples.numbered_line "1.1 Background" 18 72)).
  - vm_compute. reflexivity.
  - reflexivity.
Defined.

Lemma short_document_not_repetitive_witness :
  repetition_rule
    (_pre_process_for_hf_detection (_reset_state initial_state)
       Samples.doc_running_header)
    (str "Quarterly Results Brief") 10 true = false.
Proof.
  apply (short_document_not_repetitive initial_state
           Samples.doc_running_header (str "Quarterly Results Brief") 10 true).
  - simpl. lia.
  - unfold one_line_per_key. simpl enumerate_from.
    repeat (apply Forall_cons || apply Forall_nil);
      vm_compute; (apply NoDup_cons; [intros []|apply NoDup_nil]).
Defined.

Lemma largest_font_ranks_first_witness :
  let h1 := Samples.numbered_line "1 Introduction" 24 200 in
  let h2 := Samples.numbered_line "1.1 Background" 18 300 in
  initial_level h1 [h1; h2] = H1 <->
  forall x, In x [h1; h2] -> (font_size x <= font_size h1)%Q.
Proof.
  cbv zeta.
  apply (largest_font_ranks_first
           (Samples.numbered_line "1 Introduction" 24 200)
           [Samples.numbered_line "1 Introduction" 24 200;
            Samples.numbered_line "1.1 Background" 18 300]).
  left. reflexivity.
Defined.

(** ** Neighbours among the accepted headings *)

Lemma neighbours_snoc (A : Type) (R : A -> A -> Prop) (l : list A)
      (d c : A) :
  neighbours R l -> (l <> [] -> R (last l d) c) -> neighbours R (l ++ [c]).
Proof.
  induction l as [|a l IH]; simpl; intros Hn Hc; [exact I|].
  destruct l as [|b l].
  - simpl. split; [|exact I]. apply Hc. discriminate.
  - destruct Hn as [Hab Hn]. split; [assumption|].
    apply IH; [assumption|]. intros _. apply Hc. discriminate.
Qed.

Lemma last_default (A : Type) (l : list A) (d d' : A) :
  l <> [] -> last l d = last l d'.
Proof.
  induction l as [|a l IH]; [congruence|]. intros _.
  destruct l as [|b l]; [reflexivity|].
  change (last (b :: l) d = last (b :: l) d'). apply IH. discriminate.
Qed.

Lemma last_snoc (A : Type) (l : list A) (c d : A) : last (l ++ [c]) d = c.
Proof. apply last_last. Qed.

Lemma close_duplicate_last (c : Line) (final : list Line)
      (lb : option BBox) (lp : Z) :
  final <> [] -> last_added_ok final lb lp ->
  close_duplicate c final lb lp = rendering_duplicate (last final c) c.
Proof.
  intros Hne Hok. destruct final as [|f fs]; [congruence|].
  destruct Hok as [-> ->]. unfold close_duplicate, rendering_duplicate.
  assert (E : last (f :: fs) f = last (f :: fs) c)
    by (apply last_default; discriminate).
  rewrite E. reflexivity.
Qed.

Lemma select_loop_neighbours (cap : nat) (cands : list Line) :
  forall final seen lb lp,
    neighbours (fun a b => rendering_duplicate a b = false) final ->
    last_added_ok final lb lp ->
    neighbours (fun a b => rendering_duplicate a b = false)
               (select_loop cap cands final seen lb lp).
Proof.
  induction cands as [|c cands IH]; simpl; intros final seen lb lp Hn Hok.
  - assumption.
  - destruct (_ || _); [now apply IH|].
    destruct (close_duplicate c final lb lp) eqn:Ed; [now apply IH|].
    assert (Hn' : neighbours (fun a b => rendering_duplicate a b = false)
                             (final ++ [c])).
    { apply neighbours_snoc with (d := c); [assumption|].
      intros Hne. now rewrite <- (close_duplicate_last c final lb lp Hne Hok). }
    destruct (_ <=? _)%nat; [assumption|].
    apply IH; [assumption|].
    unfold last_added_ok. destruct (final ++ [c]) as [|f fs] eqn:E.
    + destruct final; discriminate.
    + rewrite <- E, !last_snoc. now split.
Qed.

(** X26. No accepted heading is a rendering duplicate of the one accepted
    just before it: on the same page, less than 0.8 font sizes below its
    bottom, within one unit of its font size and of the same weight. *)
Theorem accepted_not_adjacent_duplicates (text_lines : list Line) :
  neighbours (fun a b => rendering_duplicate a b = false)
             (select_headings text_lines).
Proof.
  unfold select_headings. apply select_loop_neighbours.
  - exact I.
  - reflexivity.
Qed.

(** ** What the merge joins *)

Lemma Qmax_pos (a b : Q) : (0 < a)%Q -> (0 < Qmax a b)%Q.
Proof.
  intros Ha. unfold Qmax. destruct (Qltb a b) eqn:E; [|assumption].
  apply Qltb_true in E. now apply Qlt_trans with a.
Qed.

Lemma merge_fold_joined (P : Line -> Prop) (others : list Line) :
  forall emitted cur,
    Forall (fun h => P h /\ (0 < font_size h)%Q) others ->
    Forall (fun m => P m \/ is_bold m = true) emitted ->
    (P cur \/ is_bold cur = true) -> (0 < font_size cur)%Q ->
    let r := fold_left merge_step others (emitted, cur) in
    Forall (fun m => P m \/ is_bold m = true) (fst r ++ [snd r]).
Proof.
  induction others as [|n others IH]; simpl; intros emitted cur Ho He Hc Hpos.
  - apply Forall_app. split; [assumption|]. now constructor.
  - inversion Ho as [|? ? [Hn Hnpos] Ho']; subst.
    assert (He' : Forall (fun m => P m \/ is_bold m = true) (emitted ++ [cur])).
    { apply Forall_app. split; [assumption|]. now constructor. }
    destruct (earlier_break cur n); [apply IH; auto|].
    destruct (break_not_bold cur n) eqn:Eb; [apply IH; auto|].
    apply IH; [assumption|assumption| |now apply Qmax_pos].
    right. simpl.
    destruct (is_bold cur) eqn:Ec; [reflexivity|].
    destruct (is_bold n) eqn:En; [reflexivity|].
    rewrite (break_not_bold_fires cur n Ec En Hpos) in Eb. discriminate.
Qed.

(** X27. When the font sizes are positive, the merge joins two lines only
    if one of them is bold: every merged heading is one of the headings
    given, unchanged, or is bold. *)
Theorem merge_joins_only_bold (hs : list Line) :
  Forall (fun h => (0 < font_size h)%Q) hs ->
  Forall (fun m => In m hs \/ is_bold m = true)
         (merge_multiline_headings hs).
Proof.
  intros Hpos. unfold merge_multiline_headings.
  assert (Hs : Forall (fun h => In h hs /\ (0 < font_size h)%Q)
                      (PySort.sorted page_top_le hs)).
  { apply Forall_sorted. apply Forall_forall. intros h Hh. split; [assumption|].
    rewrite Forall_forall in Hpos. now apply Hpos. }
  destruct (PySort.sorted page_top_le hs) as [|first others]; [constructor|].
  inversion Hs as [|? ? [Hf Hfpos] Ho]; subst.
  pose proof (merge_fold_joined (fun m => In m hs) others [] first Ho
                (Forall_nil _) (or_introl Hf) Hfpos) as H.
  cbv zeta in H.
  destruct (fold_left merge_step others ([], first)) as [emitted cur].
  exact H.
Qed.

Lemma merge_joins_only_bold_witness :
  let hs := [Samples.numbered_line "Terms of Reference" 18 72;
             Samples.numbered_line "1.1 Background" 18 72] in
  Forall (fun m => In m hs \/ is_bold m = true)
         (merge_multiline_headings hs).
Proof.
  cbv zeta.
  apply (merge_joins_only_bold
           [Samples.numbered_line "Terms of Reference" 18 72;
            Samples.numbered_line "1.1 Background" 18 72]).
  repeat constructor.
Defined.
